(** * Log-analysis scripts: a shallow embedding and its verified properties

    The development follows the two scripts of the repository:

    - [problem1.py]: one streaming pass over every log line that counts
      severity levels and keeps a reservoir sample of ten matching lines;
    - [problem2.py]: one scan per application directory that extracts the
      earliest and latest timestamp, followed by per-cluster aggregation.

    Python values are modelled as follows.  A [str] is a list of Unicode
    code points ([text]); the Unicode tables that the [re] module and
    [int()] consult for code points outside ASCII are an interface
    ([UnicodeDB]).  Compiled patterns are terms of a small regular
    expression syntax executed by a backtracking matcher with the
    priorities of Python's engine.  Exceptions are values of [exn] carried
    by the [result] type.  The pseudo random generator behind
    [random.randint] is an interface ([RandomSource]) threaded through the
    aggregation loop, and the float operations of the percentage formatter
    are an interface as well ([FloatOps]).  The file tree under [data/raw]
    is a value ([Fs.tree]) in which a log file is the list of the lines
    that reading it yields, possibly ended by an error.

    The first part holds the definitions: the built-ins, the two scripts,
    the vocabulary in which their properties are stated, instances of the
    interfaces and sample inputs.  The second part holds the lemmas and
    the properties themselves.  Charts, argument parsing and the writing
    of files are left out: the properties are about the rows and lines
    that are written. *)

From Stdlib Require Import ZArith NArith Lia Sorting.Sorted Sorting.Permutation.
From Stdlib Require Import Strings.String Strings.Ascii DecimalString.
From Stdlib Require Import Floats.SpecFloat.
From stdpp Require Import base option list gmap.

(** ** Text *)

(** A Python [str]: the sequence of its code points. *)
Abbreviation text := (list N).

(** The code points of an ASCII literal. *)
Definition str (s : string) : text :=
  List.map N_of_ascii (list_ascii_of_string s).

(** ** Exceptions *)

Inductive exn :=
| ValueError (msg : text)
| FileNotFoundError (msg : text)
| OSError (msg : text)
| KeyError (key : text)
| IndexError
| ZeroDivisionError
| OverflowError.

Inductive result (A : Type) :=
| Ok (a : A)
| Raise (e : exn).
Arguments Ok {A} a.
Arguments Raise {A} e.

Definition rbind {A B} (m : result A) (f : A → result B) : result B :=
  match m with
  | Ok a => f a
  | Raise e => Raise e
  end.

Notation "x ←! m ; k" := (rbind m (fun x => k))
  (at level 100, m at next level, right associativity,
   format "x  ←!  m ;  '/' k").

(** ** Character classes of the [re] module on [str] patterns *)

(** What the Unicode database answers for a code point above 127:
    [Py_UNICODE_ISALNUM], [Py_UNICODE_ISSPACE] and the value of a decimal
    digit ([Py_UNICODE_TODECIMAL]).  A decimal digit has a value below
    ten and is not white space. *)
Class UnicodeDB := {
  uni_isalnum : N → bool;
  uni_isspace : N → bool;
  uni_decimal : N → option N;
  uni_decimal_lt : ∀ c v, uni_decimal c = Some v → (v < 10)%N;
  uni_decimal_not_space : ∀ c v, uni_decimal c = Some v → uni_isspace c = false;
}.

(** The database of a text that is plain ASCII: no code point above 127 is
    alphanumeric, a space or a digit. *)
#[export] Program Instance ascii_db : UnicodeDB | 100 := {|
  uni_isalnum := fun _ => false;
  uni_isspace := fun _ => false;
  uni_decimal := fun _ => None;
|}.
Next Obligation. intros c v H; discriminate H. Qed.
Next Obligation. reflexivity. Qed.

Module Char.
Local Open Scope N_scope.

Section WithUnicode.
Context {U : UnicodeDB}.

Definition is_ascii (c : N) : bool := c <? 128.

Definition between (lo hi c : N) : bool := (lo <=? c) && (c <=? hi).

(** Value of a decimal digit, [None] when [c] is not one. *)
Definition decimal_value (c : N) : option N :=
  if is_ascii c
  then (if between 48 57 c then Some (c - 48) else None)
  else uni_decimal c.

(** [\d] *)
Definition is_digit (c : N) : bool :=
  match decimal_value c with Some _ => true | None => false end.

(** [\s] *)
Definition is_space (c : N) : bool :=
  if is_ascii c
  then between 9 13 c || between 28 32 c
  else uni_isspace c.

(** [\w] *)
Definition is_word (c : N) : bool :=
  if is_ascii c
  then between 48 57 c || between 65 90 c || between 97 122 c || (c =? 95)
  else uni_isalnum c.
End WithUnicode.
End Char.

(** ** Regular expressions *)

Module Re.
Local Open Scope N_scope.

(** Sets of characters that appear in the patterns. *)
Inductive cset :=
| Digit                   (* \d *)
| Space                   (* \s *)
| Range (lo hi : N).      (* [lo-hi] *)

Inductive regex :=
| Eps
| Chr (c : N)                                   (* a literal character *)
| In_ (k : cset)                                (* one character of a set *)
| WordB                                         (* \b *)
| Bos                                           (* ^ *)
| Eos                                           (* $ *)
| Cat (r s : regex)
| Alt (r s : regex)                             (* r|s, r tried first *)
| Rep (k : cset) (lo : nat) (hi : option nat)   (* greedy k{lo,hi}; k+ is k{1,} *)
| Grp (i : nat) (r : regex).                    (* capturing group number i *)

(** A literal word. *)
Fixpoint lit (w : text) : regex :=
  match w with
  | [] => Eps
  | c :: w' => Cat (Chr c) (lit w')
  end.

(** A sequence [r1 r2 ... rn] and an alternation [r1|r2|...|rn]. *)
Fixpoint cat (rs : list regex) : regex :=
  match rs with
  | [] => Eps
  | [r] => r
  | r :: rs' => Cat r (cat rs')
  end.

Fixpoint alt (rs : list regex) : regex :=
  match rs with
  | [] => Eps
  | [r] => r
  | r :: rs' => Alt r (alt rs')
  end.

(** The numbers of the groups of a pattern. *)
Fixpoint groups_of (r : regex) : list nat :=
  match r with
  | Cat r1 r2 | Alt r1 r2 => groups_of r1 ++ groups_of r2
  | Grp i r1 => i :: groups_of r1
  | _ => []
  end.

(** Position of the matcher in the subject: the character just before it
    (for [\b]), its index, and the text that remains. *)
Record cursor := Cursor {
  before : option N;
  pos : nat;
  rest : text;
}.

(** The cursor after the characters of [w] have been consumed. *)
Definition skip (w : text) (c : cursor) : cursor :=
  Cursor (match last w with Some x => Some x | None => before c end)
         (pos c + length w) (drop (length w) (rest c)).

Definition groups := list (nat * text).

Definition set_group (i : nat) (t : text) (g : groups) : groups :=
  (i, t) :: g.

Fixpoint get_group (i : nat) (g : groups) : option text :=
  match g with
  | [] => None
  | (j, t) :: g' => if Nat.eqb i j then Some t else get_group i g'
  end.

(** A match object: where the match starts and ends and what its groups
    captured. *)
Record mobj := MObj {
  m_start : nat;
  m_end : nat;
  m_groups : groups;
}.

Definition group (i : nat) (m : mobj) : option text := get_group i (m_groups m).

Section WithUnicode.
Context {U : UnicodeDB}.

Definition in_cset (k : cset) (c : N) : bool :=
  match k with
  | Digit => Char.is_digit c
  | Space => Char.is_space c
  | Range lo hi => Char.between lo hi c
  end.

(** Whether the optional character is a word character; there is none at
    either end of the subject. *)
Definition word_at (o : option N) : bool :=
  match o with Some c => Char.is_word c | None => false end.

Definition hi_allows (hi : option nat) : bool :=
  match hi with Some 0%nat => false | _ => true end.

Definition hi_pred (hi : option nat) : option nat :=
  match hi with Some n => Some (Nat.pred n) | None => None end.

(** Greedy repetition of one character set: take one more character when
    allowed and backtrack to stopping here when the continuation fails
    later. *)
Fixpoint rep {A} (k : cset) (lo : nat) (hi : option nat)
    (b : option N) (p : nat) (s : text) (g : groups)
    (cont : cursor → groups → option A) : option A :=
  let stop := match lo with
              | O => cont (Cursor b p s) g
              | S _ => None
              end in
  match s with
  | c :: s' =>
      if in_cset k c && hi_allows hi then
        match rep k (Nat.pred lo) (hi_pred hi) (Some c) (S p) s' g cont with
        | Some x => Some x
        | None => stop
        end
      else stop
  | [] => stop
  end.

(** The backtracking matcher, in continuation passing style: [exec r c g
    cont] tries the ways [r] can match at [c] in priority order and
    returns the first for which [cont] succeeds. *)
Fixpoint exec {A} (r : regex) (c : cursor) (g : groups)
    (cont : cursor → groups → option A) : option A :=
  match r with
  | Eps => cont c g
  | Chr x =>
      match rest c with
      | y :: s' => if x =? y then cont (Cursor (Some y) (S (pos c)) s') g else None
      | [] => None
      end
  | In_ k =>
      match rest c with
      | y :: s' => if in_cset k y then cont (Cursor (Some y) (S (pos c)) s') g else None
      | [] => None
      end
  | WordB =>
      if xorb (word_at (before c)) (word_at (head (rest c))) then cont c g else None
  | Bos =>
      match pos c with O => cont c g | S _ => None end
  | Eos =>
      match rest c with
      | [] => cont c g
      | [10] => cont c g
      | _ => None
      end
  | Cat r1 r2 => exec r1 c g (fun c' g' => exec r2 c' g' cont)
  | Alt r1 r2 =>
      match exec r1 c g cont with
      | Some x => Some x
      | None => exec r2 c g cont
      end
  | Rep k lo hi => rep k lo hi (before c) (pos c) (rest c) g cont
  | Grp i r1 =>
      exec r1 c g
        (fun c' g' => cont c' (set_group i (take (pos c' - pos c) (rest c)) g'))
  end.

Definition accept (start : nat) (c : cursor) (g : groups) : option mobj :=
  Some (MObj start (pos c) g).

(** [pattern.match(s)]: a match that starts at index 0. *)
Definition match_ (r : regex) (s : text) : option mobj :=
  exec r (Cursor None 0 s) [] (accept 0).

(** [pattern.search(s)]: the match at the least start index. *)
Fixpoint search_from (r : regex) (b : option N) (p : nat) (s : text) : option mobj :=
  match exec r (Cursor b p s) [] (accept p) with
  | Some m => Some m
  | None =>
      match s with
      | [] => None
      | c :: s' => search_from r (Some c) (S p) s'
      end
  end.

Definition search (r : regex) (s : text) : option mobj :=
  search_from r None 0 s.

End WithUnicode.
End Re.

(** ** Built-ins *)

Module Py.
Local Open Scope Z_scope.

(** [l[i] = x] on a list: a negative index counts from the end, an index
    out of range raises. *)
Definition list_setitem {A} (l : list A) (i : Z) (x : A) : result (list A) :=
  let n := Z.of_nat (length l) in
  let i' := if i <? 0 then i + n else i in
  if (0 <=? i') && (i' <? n)
  then Ok (<[Z.to_nat i' := x]> l)
  else Raise IndexError.

(** [len(l)] *)
Definition len {A} (l : list A) : Z := Z.of_nat (length l).

(** [str(n)] for an int. *)
Definition str_of_int (n : Z) : text :=
  str (NilZero.string_of_int (Z.to_int n)).

(** Format specifications [:<w] and [:>w]: pad with spaces up to the
    width, never truncate. *)
Definition ljust (w : nat) (t : text) : text :=
  t ++ replicate (w - length t) 32%N.

Definition rjust (w : nat) (t : text) : text :=
  replicate (w - length t) 32%N ++ t.

(** Zero padding of a non-negative int, as [%02d] does. *)
Definition zfill (w : nat) (t : text) : text :=
  replicate (w - length t) 48%N ++ t.

(** [s.rstrip(chars)] for a single character. *)
Fixpoint rstrip (c : N) (s : text) : text :=
  match s with
  | [] => []
  | x :: s' =>
      match rstrip c s' with
      | [] => if (x =? c)%N then [] else [x]
      | t => x :: t
      end
  end.

(** [s.replace(old, new)] for a single character [old]. *)
Definition replace_char (old : N) (new : text) (s : text) : text :=
  concat (List.map (fun x => if (x =? old)%N then new else [x]) s).

(** [s < t] on [str]: lexicographic on code points. *)
Fixpoint text_lt (s t : text) : bool :=
  match s, t with
  | _, [] => false
  | [], _ :: _ => true
  | x :: s', y :: t' => (x <? y)%N || ((x =? y)%N && text_lt s' t')
  end.

(** [sorted(l)] under the comparison [lt]: the sort is stable, so its
    result is the one of inserting each element, from the last to the
    first, in front of the elements that are not smaller. *)
Fixpoint insort {A} (lt : A → A → bool) (x : A) (l : list A) : list A :=
  match l with
  | [] => [x]
  | y :: l' => if lt y x then y :: insort lt x l' else x :: l
  end.

Definition sorted {A} (lt : A → A → bool) (l : list A) : list A :=
  foldr (insort lt) [] l.

(** A [Counter]: a dict from keys to ints in insertion order; a missing key
    counts zero. *)
Definition Counter (K : Type) := list (K * Z).

Fixpoint counter_get `{EqDecision K} (c : Counter K) (k : K) : Z :=
  match c with
  | [] => 0
  | (k', v) :: c' => if decide (k = k') then v else counter_get c' k
  end.

(** [c[k] += 1]: the key keeps its place, a new key goes last. *)
Fixpoint counter_incr `{EqDecision K} (c : Counter K) (k : K) : Counter K :=
  match c with
  | [] => [(k, 1)]
  | (k', v) :: c' =>
      if decide (k = k') then (k', v + 1) :: c' else (k', v) :: counter_incr c' k
  end.

Definition counter_keys {K} (c : Counter K) : list K := List.map fst c.

Definition counter_values {K} (c : Counter K) : list Z := List.map snd c.

(** [sum(l)] on ints: the additions run from the left, starting at 0. *)
Definition sum (l : list Z) : Z := fold_left Z.add l 0.

(** [sep.join(l)] *)
Fixpoint join (sep : text) (l : list text) : text :=
  match l with
  | [] => []
  | [x] => x
  | x :: l' => x ++ sep ++ join sep l'
  end.

Section WithUnicode.
Context {U : UnicodeDB}.

Fixpoint strip_left (s : text) : text :=
  match s with
  | c :: s' => if Char.is_space c then strip_left s' else s
  | [] => []
  end.

Definition strip (s : text) : text :=
  rev (strip_left (rev (strip_left s))).

Fixpoint digits_value (acc : Z) (s : text) : option Z :=
  match s with
  | [] => Some acc
  | c :: s' =>
      match Char.decimal_value c with
      | Some v => digits_value (10 * acc + Z.of_N v) s'
      | None => None
      end
  end.

(** [int(s)] for a text that, once stripped of surrounding white space,
    is a non-empty run of decimal digits; any other text is refused
    here (signs and underscores do not occur in what the scripts
    convert, which is always a group of digits captured by a pattern). *)
Definition int (s : text) : result Z :=
  match strip s with
  | [] => Raise (ValueError s)
  | t =>
      match digits_value 0 t with
      | Some n => Ok n
      | None => Raise (ValueError s)
      end
  end.
End WithUnicode.

End Py.

(** ** The file tree under [data/raw] *)

Module Fs.

(** A directory entry that a [*.log] pattern can match.  Iterating it in
    text mode with [errors="ignore"] yields [f_lines] (decoding never
    fails, undecodable bytes are dropped) and then, when [f_fail] is
    [Some e], raises [e]: [open] itself raises when [f_lines] is empty (no
    permission, or the entry is a directory), a read error raises after
    the lines read so far. *)
Record file := File {
  f_name : text;
  f_lines : list text;
  f_fail : option exn;
}.

(** An entry of [data/raw]. *)
Record entry := Entry {
  e_name : text;
  e_is_dir : bool;
  e_files : list file;
}.

(** The tree before a run: the entries of [data/raw] in the order the
    operating system lists them, and what the archive holds when it
    exists. *)
Record tree := Tree {
  raw : list entry;
  archive : option (list entry);
}.

Fixpoint starts_with (p s : text) : bool :=
  match p, s with
  | [], _ => true
  | _ :: _, [] => false
  | x :: p', y :: s' => (x =? y)%N && starts_with p' s'
  end.

Definition ends_with (p s : text) : bool :=
  starts_with (rev p) (rev s).

(** [RAW_DIR.glob("application_*")] *)
Definition glob_applications (t : tree) : list entry :=
  filter (fun e => starts_with (str "application_") (e_name e) = true) (raw t).

(** [dir.glob("*.log")] *)
Definition glob_logs (e : entry) : list file :=
  filter (fun f => ends_with (str ".log") (f_name f) = true) (e_files e).

(** A path below [data/raw]: directory name and file name. *)
Definition path := (text * text)%type.

Definition archive_missing : exn :=
  FileNotFoundError
    (str "Archive not found at data/raw/Spark.tar.gz. Please ensure it exists.").

(** [ensure_extracted()]: nothing to do when an application directory is
    there, fatal when the archive is not, and otherwise the content of the
    archive is added to [data/raw]. *)
Definition ensure_extracted (t : tree) : result tree :=
  match glob_applications t with
  | _ :: _ => Ok t
  | [] =>
      match archive t with
      | None => Raise archive_missing
      | Some es => Ok (Tree (raw t ++ es) (archive t))
      end
  end.

End Fs.

(** ** The random source *)

(** [random.randint(a, b)] on an explicit generator state: for [a <= b]
    the integer drawn lies in [[a, b]]. *)
Class RandomSource := {
  rng : Type;
  randint : Z → Z → rng → Z * rng;
  randint_range : ∀ a b g, (a ≤ b)%Z → (a ≤ (randint a b g).1 ≤ b)%Z;
}.

(** ** Floating point *)

(** The float operations of the percentage formatter: the quotient of two
    ints with a divisor that is not zero ([None] when it is too large for
    a float, where Python raises [OverflowError]), the product of floats,
    the float of an int, and the rendering under the format [0.2f].  A
    quotient between zero and one is a float. *)
Class FloatOps := {
  float : Type;
  int_truediv : Z → Z → option float;
  float_of_int : Z → float;
  float_mul : float → float → float;
  format_2f : float → text;
  int_truediv_fraction :
    ∀ x d, (0 ≤ x ≤ d)%Z → (0 < d)%Z → is_Some (int_truediv x d);
}.

(** ** Level counts and the reservoir sample ([problem1.py]) *)

Module Problem1.
Import Re.
Local Open Scope Z_scope.

Definition LEVEL_RE : regex :=
  cat [ WordB;
        Grp 1 (alt [lit (str "INFO"); lit (str "WARN"); lit (str "ERROR"); lit (str "DEBUG")]);
        WordB ].

Definition LEVELS : list text :=
  [str "INFO"; str "WARN"; str "ERROR"; str "DEBUG"].

(** [iter_log_lines()]: the pairs the generator yields, in order, and the
    exception that ends it when a file cannot be read. *)
Fixpoint walk_files (dir : text) (fs : list Fs.file) : list (Fs.path * text) * option exn :=
  match fs with
  | [] => ([], None)
  | f :: fs' =>
      let here := List.map (fun l => ((dir, Fs.f_name f), Py.rstrip 10%N l)) (Fs.f_lines f) in
      match Fs.f_fail f with
      | Some e => (here, Some e)
      | None => let '(more, r) := walk_files dir fs' in (here ++ more, r)
      end
  end.

Fixpoint walk_dirs (es : list Fs.entry) : list (Fs.path * text) * option exn :=
  match es with
  | [] => ([], None)
  | e :: es' =>
      if Fs.e_is_dir e then
        match walk_files (Fs.e_name e) (Fs.glob_logs e) with
        | (here, Some x) => (here, Some x)
        | (here, None) => let '(more, r) := walk_dirs es' in (here ++ more, r)
        end
      else walk_dirs es'
  end.

Definition iter_log_lines (t : Fs.tree) : list (Fs.path * text) * option exn :=
  walk_dirs (Fs.glob_applications t).

Section WithInterfaces.
Context {U : UnicodeDB} {R : RandomSource}.

(** [reservoir_sample(iterable, k, predicate)] *)
Fixpoint reservoir_loop (k : Z) (predicate : text → bool)
    (items : list (Fs.path * text))
    (sample : list (Fs.path * text)) (n : Z) (g : rng)
    : result (list (Fs.path * text) * rng) :=
  match items with
  | [] => Ok (sample, g)
  | (path, line) :: items' =>
      if negb (predicate line) then reservoir_loop k predicate items' sample n g
      else
        let n := n + 1 in
        if Py.len sample <? k then
          reservoir_loop k predicate items' (sample ++ [(path, line)]) n g
        else
          let '(j, g') := randint 1 n g in
          if j <=? k then
            sample' ←! Py.list_setitem sample (j - 1) (path, line);
            reservoir_loop k predicate items' sample' n g'
          else reservoir_loop k predicate items' sample n g'
  end.

Definition reservoir_sample (items : list (Fs.path * text)) (k : Z)
    (predicate : text → bool) (g : rng) : result (list (Fs.path * text) * rng) :=
  reservoir_loop k predicate items [] 0 g.

(** [has_level] *)
Definition has_level (s : text) : bool :=
  match search LEVEL_RE s with Some _ => true | None => false end.

(** A sampled record: path, line and level. *)
Definition record := (Fs.path * text * text)%type.

(** The local variables of [main] during the pass. *)
Record state := State {
  total_lines : Z;
  level_lines : Z;
  counts : Py.Counter text;
  sample : list record;
  n_kept : Z;
  gen : rng;
}.

Definition k : Z := 10.

Definition init (g : rng) : state :=
  State 0 0 [] [] 0 g.

(** [m.group(1)]; the group takes part in every match of the patterns
    of the scripts. *)
Definition group1 (m : mobj) : text := default [] (group 1 m).

(** One iteration of the loop of [main]. *)
Definition step (st : state) (item : Fs.path * text) : result state :=
  let '(path, line) := item in
  let total := total_lines st + 1 in
  match search LEVEL_RE line with
  | Some m =>
      let level := group1 m in
      let counts' := Py.counter_incr (counts st) level in
      let level_lines' := level_lines st + 1 in
      let n := n_kept st + 1 in
      if Py.len (sample st) <? k then
        Ok (State total level_lines' counts' (sample st ++ [(path, line, level)]) n (gen st))
      else
        let '(j, g') := randint 1 n (gen st) in
        if j <=? k then
          sample' ←! Py.list_setitem (sample st) (j - 1) (path, line, level);
          Ok (State total level_lines' counts' sample' n g')
        else Ok (State total level_lines' counts' (sample st) n g')
  | None =>
      Ok (State total (level_lines st) (counts st) (sample st) (n_kept st) (gen st))
  end.

(** The pass over the items of a stream, from a given state. *)
Fixpoint run (st : state) (items : list (Fs.path * text)) : result state :=
  match items with
  | [] => Ok st
  | item :: items' => st' ←! step st item; run st' items'
  end.

Definition aggregate (g : rng) (items : list (Fs.path * text)) : result state :=
  run (init g) items.

(** [main()] up to the end of the pass over the tree; the walker may end
    it with an exception after the lines it has yielded were consumed.
    The three files are written from the state it returns. *)
Definition main (g : rng) (t : Fs.tree) : result state :=
  t' ←! Fs.ensure_extracted t;
  let '(items, failure) := iter_log_lines t' in
  st ←! aggregate g items;
  match failure with
  | Some e => Raise e
  | None => Ok st
  end.

(** Rows of [problem1_counts.csv] after the header. *)
Definition counts_rows (st : state) : list text :=
  concat (List.map (fun lvl =>
    if 0 <? Py.counter_get (counts st) lvl
    then [lvl ++ str "," ++ Py.str_of_int (Py.counter_get (counts st) lvl) ++ [10%N]]
    else []) LEVELS).

(** Rows of [problem1_sample.csv] after the header. *)
Definition sample_rows (st : state) : list text :=
  List.map (fun r : record =>
    let '(_, line, lvl) := r in
    ([34%N] ++ Py.replace_char 34%N [34%N; 34%N] line ++ [34%N]) ++ str "," ++ lvl ++ [10%N])
    (sample st).

(** [sum(1 for c in counts.values() if c>0)], the number written after
    "Unique log levels found". *)
Definition unique_levels (st : state) : Z :=
  Py.sum (List.map (fun _ : Z => 1)
            (filter (fun c : Z => 0 < c) (Py.counter_values (counts st)))).

Context {F : FloatOps}.

(** [x / denom] on ints. *)
Definition truediv (x denom : Z) : result float :=
  if denom =? 0 then Raise ZeroDivisionError
  else match int_truediv x denom with
       | Some q => Ok q
       | None => Raise OverflowError
       end.

Definition pct (x denom : Z) : result text :=
  if denom =? 0 then Ok (str "0.00%")
  else
    q ←! truediv x denom;
    Ok (format_2f (float_mul q (float_of_int 100)) ++ str "%").

(** One line of the level distribution in [problem1_summary.txt]. *)
Definition distribution_line (st : state) (lvl : text) : result text :=
  let c := Py.counter_get (counts st) lvl in
  p ←! pct c (level_lines st);
  Ok (str "  " ++ Py.ljust 5 lvl ++ str ": " ++ Py.rjust 10 (Py.str_of_int c)
      ++ str " (" ++ p ++ str ")" ++ [10%N]).

Fixpoint distribution_lines (st : state) (lvls : list text) : result (list text) :=
  match lvls with
  | [] => Ok []
  | lvl :: lvls' =>
      l ←! distribution_line st lvl;
      ls ←! distribution_lines st lvls';
      Ok (l :: ls)
  end.

End WithInterfaces.
End Problem1.

(** ** Naive [datetime] values *)

Module Datetime.
Local Open Scope Z_scope.

Record datetime := DT {
  year : Z;
  month : Z;
  day : Z;
  hour : Z;
  minute : Z;
  second : Z;
}.

Definition is_leap (y : Z) : bool :=
  (y mod 4 =? 0) && (negb (y mod 100 =? 0) || (y mod 400 =? 0)).

Definition days_in_month (y m : Z) : Z :=
  if m =? 2 then (if is_leap y then 29 else 28)
  else if (m =? 4) || (m =? 6) || (m =? 9) || (m =? 11) then 30
  else 31.

Definition in_range (lo hi x : Z) : bool := (lo <=? x) && (x <=? hi).

(** The constructor [datetime(y, m, d, H, M, S)] with its range checks. *)
Definition make (y m d H M S : Z) : result datetime :=
  if negb (in_range 1 9999 y) then Raise (ValueError (str "year is out of range"))
  else if negb (in_range 1 12 m) then Raise (ValueError (str "month must be in 1..12"))
  else if negb (in_range 1 (days_in_month y m) d)
       then Raise (ValueError (str "day is out of range for month"))
  else if negb (in_range 0 23 H) then Raise (ValueError (str "hour must be in 0..23"))
  else if negb (in_range 0 59 M) then Raise (ValueError (str "minute must be in 0..59"))
  else if negb (in_range 0 59 S) then Raise (ValueError (str "second must be in 0..59"))
  else Ok (DT y m d H M S).

(** [dt.replace(year=y)] *)
Definition replace_year (dt : datetime) (y : Z) : result datetime :=
  make y (month dt) (day dt) (hour dt) (minute dt) (second dt).

(** Comparison of two datetimes: the tuples of their fields, in the order
    year, month, day, hour, minute, second. *)
Definition fields (dt : datetime) : list Z :=
  [year dt; month dt; day dt; hour dt; minute dt; second dt].

Fixpoint cmp (a b : list Z) : comparison :=
  match a, b with
  | [], [] => Eq
  | [], _ :: _ => Lt
  | _ :: _, [] => Gt
  | x :: a', y :: b' =>
      match x ?= y with
      | Eq => cmp a' b'
      | c => c
      end
  end.

(** [a < b], [a > b] and [a <= b] *)
Definition lt (a b : datetime) : bool :=
  match cmp (fields a) (fields b) with Lt => true | _ => false end.

Definition gt (a b : datetime) : bool :=
  match cmp (fields a) (fields b) with Gt => true | _ => false end.

Definition le (a b : datetime) : bool :=
  match cmp (fields a) (fields b) with Gt => false | _ => true end.

(** The ordinal of a date, 1 for the first of January of the year 1, as
    [_ymd2ord] computes it. *)
Definition days_before_year (year : Z) : Z :=
  let y := year - 1 in y * 365 + y / 4 - y / 100 + y / 400.

Definition DAYS_BEFORE_MONTH : list Z :=
  [0; 31; 59; 90; 120; 151; 181; 212; 243; 273; 304; 334].

Definition days_before_month (year month : Z) : Z :=
  nth (Z.to_nat (month - 1)) DAYS_BEFORE_MONTH 0
  + (if (2 <? month) && is_leap year then 1 else 0).

Definition toordinal (dt : datetime) : Z :=
  days_before_year (year dt) + days_before_month (year dt) (month dt) + day dt.

(** [(a - b).total_seconds()]: the days and the seconds of the difference,
    in seconds.  The datetimes carry no microseconds, so this is a whole
    number, which the float that Python returns holds exactly. *)
Definition total_seconds (a b : datetime) : Z :=
  (toordinal a - toordinal b) * 86400
  + ((second a + minute a * 60 + hour a * 3600)
     - (second b + minute b * 60 + hour b * 3600)).

(** [dt.strftime("%Y-%m-%d %H:%M:%S")] *)
Definition strftime (dt : datetime) : text :=
  Py.zfill 4 (Py.str_of_int (year dt)) ++ str "-"
  ++ Py.zfill 2 (Py.str_of_int (month dt)) ++ str "-"
  ++ Py.zfill 2 (Py.str_of_int (day dt)) ++ str " "
  ++ Py.zfill 2 (Py.str_of_int (hour dt)) ++ str ":"
  ++ Py.zfill 2 (Py.str_of_int (minute dt)) ++ str ":"
  ++ Py.zfill 2 (Py.str_of_int (second dt)).

Section WithUnicode.
Context {U : UnicodeDB}.
Import Re.

(** The pattern [_strptime] compiles for the format
    ["%y/%m/%d %H:%M:%S"]; the groups y, m, d, H, M, S are numbered 1
    to 6. *)
Definition c (s : string) : N :=
  match str s with x :: _ => x | [] => 0%N end.

Definition one (lo hi : string) : regex := In_ (Range (c lo) (c hi)).

Definition STRPTIME_RE : regex :=
  cat [ Grp 1 (cat [In_ Digit; In_ Digit]);
        Chr (c "/");
        Grp 2 (alt [ cat [Chr (c "1"); one "0" "2"];
                     cat [Chr (c "0"); one "1" "9"];
                     one "1" "9" ]);
        Chr (c "/");
        Grp 3 (alt [ cat [Chr (c "3"); one "0" "1"];
                     cat [one "1" "2"; In_ Digit];
                     cat [Chr (c "0"); one "1" "9"];
                     one "1" "9";
                     cat [Chr (c " "); one "1" "9"] ]);
        Rep Space 1 None;
        Grp 4 (alt [ cat [Chr (c "2"); one "0" "3"];
                     cat [one "0" "1"; In_ Digit];
                     In_ Digit ]);
        Chr (c ":");
        Grp 5 (alt [ cat [one "0" "5"; In_ Digit];
                     In_ Digit ]);
        Chr (c ":");
        Grp 6 (alt [ cat [Chr (c "6"); one "0" "1"];
                     cat [one "0" "5"; In_ Digit];
                     In_ Digit ]) ].

Definition field (i : nat) (m : mobj) : result Z :=
  Py.int (default [] (group i m)).

(** [datetime.strptime(ts, "%y/%m/%d %H:%M:%S")] *)
Definition strptime (ts : text) : result datetime :=
  match match_ STRPTIME_RE ts with
  | None => Raise (ValueError (str "time data does not match format"))
  | Some found =>
      if negb (length ts =? m_end found)%nat
      then Raise (ValueError (str "unconverted data remains"))
      else
        y ←! field 1 found;
        let y := if y <=? 68 then y + 2000 else y + 1900 in
        m ←! field 2 found;
        d ←! field 3 found;
        H ←! field 4 found;
        M ←! field 5 found;
        S ←! field 6 found;
        make y m d H M S
  end.
End WithUnicode.

End Datetime.

(** ** Application and cluster time ranges ([problem2.py]) *)

Module Problem2.
Import Re.
Local Open Scope Z_scope.

Definition c := Datetime.c.

Definition APP_DIR_RE : regex :=
  cat [ lit (str "application_");
        Grp 1 (Rep Digit 13 (Some 13%nat));
        Chr (c "_");
        Grp 2 (Rep Digit 1 None);
        Eos ].

Definition TS_RE : regex :=
  cat [ Bos;
        Grp 1 (cat [ Rep Digit 2 (Some 2%nat); Chr (c "/");
                     Rep Digit 2 (Some 2%nat); Chr (c "/");
                     Rep Digit 2 (Some 2%nat);
                     Rep Space 1 None;
                     Rep Digit 2 (Some 2%nat); Chr (c ":");
                     Rep Digit 2 (Some 2%nat); Chr (c ":");
                     Rep Digit 2 (Some 2%nat) ]) ].

Definition invalid_name (name : text) : exn :=
  ValueError (str "Invalid application dir name: " ++ name).

Section WithUnicode.
Context {U : UnicodeDB}.
Import Datetime.

Definition parse_ts (ts : text) : result datetime :=
  dt ←! strptime ts;
  if year dt <? 2000 then replace_year dt (year dt + 100) else Ok dt.

(** [format_dt(dt)] *)
Definition format_dt (dt : datetime) : text := strftime dt.

(** [iter_app_dirs()]: paths in one directory compare by name. *)
Definition iter_app_dirs (t : Fs.tree) : list Fs.entry :=
  filter (fun d => Fs.e_is_dir d = true)
    (Py.sorted (fun a b => Py.text_lt (Fs.e_name a) (Fs.e_name b))
       (Fs.glob_applications t)).

(** The earliest and latest timestamp seen so far. *)
Definition range := (option datetime * option datetime)%type.

(** The body of the loop over the lines of a file. *)
Definition scan_line (r : range) (line : text) : result range :=
  match match_ TS_RE line with
  | None => Ok r
  | Some mt =>
      dt ←! parse_ts (default [] (group 1 mt));
      let start_dt :=
        match r.1 with
        | None => Some dt
        | Some s => if lt dt s then Some dt else Some s
        end in
      let end_dt :=
        match r.2 with
        | None => Some dt
        | Some e => if gt dt e then Some dt else Some e
        end in
      Ok (start_dt, end_dt)
  end.

Fixpoint scan_lines (r : range) (lines : list text) : result range :=
  match lines with
  | [] => Ok r
  | l :: ls => r' ←! scan_line r l; scan_lines r' ls
  end.

Fixpoint scan_files (r : range) (fs : list Fs.file) : result range :=
  match fs with
  | [] => Ok r
  | f :: fs' =>
      r' ←! scan_lines r (Fs.f_lines f);
      match Fs.f_fail f with
      | Some e => Raise e
      | None => scan_files r' fs'
      end
  end.

(** What [scan_app_times] returns: cluster_id, application_id_str,
    app_number, start_dt, end_dt. *)
Definition scanned := (text * text * text * option datetime * option datetime)%type.

Definition scan_app_times (app_dir : Fs.entry) : result scanned :=
  match search APP_DIR_RE (Fs.e_name app_dir) with
  | None => Raise (invalid_name (Fs.e_name app_dir))
  | Some m =>
      let cluster_id := default [] (group 1 m) in
      let app_number := default [] (group 2 m) in
      let application_id_str :=
        str "application_" ++ cluster_id ++ str "_" ++ app_number in
      r ←! scan_files (None, None) (Fs.glob_logs app_dir);
      Ok (cluster_id, application_id_str, app_number, r.1, r.2)
  end.

(** A row of [problem2_timeline.csv]: cluster_id, application_id,
    app_number, start_time, end_time. *)
Definition timeline_row := (text * text * text * text * text)%type.

(** The accumulators of [main]. *)
Record state := State {
  timeline_rows : list timeline_row;
  cluster_counts : Py.Counter text;
  cluster_first : gmap text datetime;
  cluster_last : gmap text datetime;
}.

Definition init : state := State [] [] ∅ ∅.

(** One iteration of the loop over the application directories. *)
Definition step (st : state) (app_dir : Fs.entry) : result state :=
  found ←! scan_app_times app_dir;
  let '(cluster_id, app_id, app_number, start, end_) := found in
  match start, end_ with
  | Some start_dt, Some end_dt =>
      let rows := timeline_rows st ++
        [(cluster_id, app_id, app_number, format_dt start_dt, format_dt end_dt)] in
      let counts := Py.counter_incr (cluster_counts st) cluster_id in
      let first :=
        match cluster_first st !! cluster_id with
        | None => <[cluster_id := start_dt]> (cluster_first st)
        | Some f => if lt start_dt f
                    then <[cluster_id := start_dt]> (cluster_first st)
                    else cluster_first st
        end in
      let last :=
        match cluster_last st !! cluster_id with
        | None => <[cluster_id := end_dt]> (cluster_last st)
        | Some l => if gt end_dt l
                    then <[cluster_id := end_dt]> (cluster_last st)
                    else cluster_last st
        end in
      Ok (State rows counts first last)
  | _, _ => Ok st
  end.

Fixpoint run (st : state) (dirs : list Fs.entry) : result state :=
  match dirs with
  | [] => Ok st
  | d :: ds => st' ←! step st d; run st' ds
  end.

(** [sorted(keys, key=lambda x: int(x))]: the keys are computed first,
    then the elements are sorted by them. *)
Fixpoint with_int_keys (l : list text) : result (list (Z * text)) :=
  match l with
  | [] => Ok []
  | x :: l' =>
      n ←! Py.int x;
      kl ←! with_int_keys l';
      Ok ((n, x) :: kl)
  end.

Definition sorted_by_int (l : list text) : result (list text) :=
  kl ←! with_int_keys l;
  Ok (List.map snd (Py.sorted (fun a b : Z * text => a.1 <? b.1) kl)).

Definition dict_get {V} (d : gmap text V) (key : text) : result V :=
  match d !! key with
  | Some v => Ok v
  | None => Raise (KeyError key)
  end.

(** A row of [problem2_cluster_summary.csv]: cluster_id,
    num_applications, cluster_first_app, cluster_last_app. *)
Definition summary_row := (text * text * text * text)%type.

Fixpoint summary_loop (st : state) (cids : list text) : result (list summary_row) :=
  match cids with
  | [] => Ok []
  | cid :: cids' =>
      first_dt ←! dict_get (cluster_first st) cid;
      last_dt ←! dict_get (cluster_last st) cid;
      rows ←! summary_loop st cids';
      Ok ((cid, Py.str_of_int (Py.counter_get (cluster_counts st) cid),
           format_dt first_dt, format_dt last_dt) :: rows)
  end.

Definition cluster_summary_rows (st : state) : result (list summary_row) :=
  cids ←! sorted_by_int (Py.counter_keys (cluster_counts st));
  summary_loop st cids.

(** The two tables that [main] writes. *)
Definition main (t : Fs.tree) : result (list timeline_row * list summary_row) :=
  t' ←! Fs.ensure_extracted t;
  st ←! run init (iter_app_dirs t');
  summary ←! cluster_summary_rows st;
  Ok (timeline_rows st, summary).

(** [durations_by_cluster[cluster_id].append((end_dt - start_dt).total_seconds())]
    in the loop over the application directories: a cluster without a list
    gets an empty one first. *)
Definition note_duration (durations : gmap text (list Z)) (app_dir : Fs.entry)
    : result (gmap text (list Z)) :=
  found ←! scan_app_times app_dir;
  let '(cluster_id, _, _, start, end_) := found in
  match start, end_ with
  | Some start_dt, Some end_dt =>
      Ok (<[cluster_id := default [] (durations !! cluster_id)
                          ++ [total_seconds end_dt start_dt]]> durations)
  | _, _ => Ok durations
  end.

Fixpoint durations_by_cluster (durations : gmap text (list Z)) (dirs : list Fs.entry)
    : result (gmap text (list Z)) :=
  match dirs with
  | [] => Ok durations
  | d :: ds => durations' ←! note_duration durations d; durations_by_cluster durations' ds
  end.

(** [write_csv(path, header, rows)]: the text written to the file. *)
Definition write_csv (header : text) (rows : list (list text)) : text :=
  (header ++ [10%N])
  ++ concat (List.map (fun r => Py.join (str ",") r ++ [10%N]) rows).

(** The fields of a row, in the order [join] meets them. *)
Definition timeline_fields (row : timeline_row) : list text :=
  let '(cluster_id, app_id, app_number, start_time, end_time) := row in
  [cluster_id; app_id; app_number; start_time; end_time].

Definition summary_fields (row : summary_row) : list text :=
  let '(cid, num, first, last) := row in [cid; num; first; last].

(** The content of [problem2_timeline.csv] and of
    [problem2_cluster_summary.csv]. *)
Definition timeline_csv (rows : list timeline_row) : text :=
  write_csv (str "cluster_id,application_id,app_number,start_time,end_time")
    (List.map timeline_fields rows).

Definition cluster_summary_csv (rows : list summary_row) : text :=
  write_csv (str "cluster_id,num_applications,cluster_first_app,cluster_last_app")
    (List.map summary_fields rows).

(** The figures of [problem2_stats.txt]. *)
Definition num_clusters (st : state) : Z := Py.len (cluster_counts st).

Definition num_apps (st : state) : Z :=
  Py.sum (Py.counter_values (cluster_counts st)).

(** [sorted(cluster_counts.items(), key=lambda x: x[1], reverse=True)]:
    by falling count, clusters with equal counts in the order of the
    counter. *)
Definition top_items (st : state) : list (text * Z) :=
  Py.sorted (fun a b : text * Z => b.2 <? a.2) (cluster_counts st).

(** [top_items[0][0] if top_items else None] *)
Definition largest_cluster (st : state) : option text :=
  match top_items st with
  | [] => None
  | item :: _ => Some item.1
  end.

Context {F : FloatOps}.

(** [(num_apps / num_clusters) if num_clusters else 0.0] *)
Definition avg_apps_per_cluster (st : state) : result float :=
  if num_clusters st =? 0 then Ok (float_of_int 0)
  else Problem1.truediv (num_apps st) (num_clusters st).

(** The lines of [problem2_stats.txt]. *)
Definition stats_lines (st : state) : result (list text) :=
  avg ←! avg_apps_per_cluster st;
  Ok ([ str "Total unique clusters: " ++ Py.str_of_int (num_clusters st) ++ [10%N];
        str "Total applications: " ++ Py.str_of_int (num_apps st) ++ [10%N];
        str "Average applications per cluster: " ++ format_2f avg ++ [10%N; 10%N];
        str "Most heavily used clusters:" ++ [10%N] ]
      ++ List.map (fun item : text * Z =>
                     str "  Cluster " ++ item.1 ++ str ": " ++ Py.str_of_int item.2
                     ++ str " applications" ++ [10%N])
           (take 10 (top_items st))).

End WithUnicode.
End Problem2.

(** ** Vocabulary of the specification *)

Module Spec.
Import Re.
Local Open Scope Z_scope.

(** [a] does not come after [b] in the order of a [sorted] call. *)
Definition not_after {A} (lt : A → A → bool) (a b : A) : Prop := lt b a = false.

(** The numeric order of keyed elements, for [sorted(..., key=int)]. *)
Definition key_lt (a b : Z * text) : bool := a.1 <? b.1.

(** The year that [%y] stands for. *)
Definition pivot (y : Z) : Z := if y <=? 68 then y + 2000 else y + 1900.

(** The first instant of the year written [yy] with two digits. *)
Definition new_year (yy : Z) : text :=
  Py.zfill 2 (Py.str_of_int yy) ++ str "/01/01 00:00:00".

(** The lines of a file as the walker yields them. *)
Definition yielded (dir : text) (f : Fs.file) : list (Fs.path * text) :=
  List.map (fun l => ((dir, Fs.f_name f), Py.rstrip 10%N l)) (Fs.f_lines f).

(** The files the pattern [application_*/*.log] matches, each with the name
    of its directory, in the order of the walk. *)
Definition matched_logs (t : Fs.tree) : list (text * Fs.file) :=
  concat (List.map (fun e => List.map (pair (Fs.e_name e)) (Fs.glob_logs e))
            (filter (fun e => Fs.e_is_dir e = true) (Fs.glob_applications t))).

(** A walk that stops at the first file that fails: it yields the lines of
    the files before it and the lines of that file read before the
    failure, then fails. *)
Fixpoint walk_until_failure (fs : list (text * Fs.file))
    : list (Fs.path * text) * option exn :=
  match fs with
  | [] => ([], None)
  | (dir, f) :: fs' =>
      match Fs.f_fail f with
      | Some e => (yielded dir f, Some e)
      | None => (yielded dir f ++ (walk_until_failure fs').1, (walk_until_failure fs').2)
      end
  end.

(** The walk of a tolerant walker: a file that cannot be read is skipped,
    the lines of every other file are yielded and nothing fails. *)
Definition tolerant_walk (fs : list (text * Fs.file))
    : list (Fs.path * text) * option exn :=
  (concat (List.map (fun df : text * Fs.file =>
                       match Fs.f_fail df.2 with
                       | Some _ => []
                       | None => yielded df.1 df.2
                       end) fs), None).

(** Every file of the list can be read to its end. *)
Definition all_readable (fs : list (text * Fs.file)) : Prop :=
  Forall (fun df : text * Fs.file => Fs.f_fail df.2 = None) fs.

(** A pair of numeric keys does not come after another. *)
Definition pair_le (a b : Z * Z) : bool :=
  (a.1 <? b.1) || ((a.1 =? b.1) && (a.2 <=? b.2)).

Fixpoint ascending (ks : list (Z * Z)) : bool :=
  match ks with
  | a :: ((b :: _) as ks') => pair_le a b && ascending ks'
  | _ => true
  end.

(** How often a character occurs in a text. *)
Definition occurrences (c : N) (s : text) : nat :=
  length (filter (fun x => x = c) s).

(** The two ASCII digits of a number below one hundred. *)
Definition two_digits (n : Z) : text :=
  [Z.to_N (48 + n / 10); Z.to_N (48 + n mod 10)].

(** A timestamp as the logs write it, YY/MM/DD HH:MM:SS, with ASCII digits
    and one space. *)
Definition stamp (yy mm dd HH MM SS : Z) : text :=
  two_digits yy ++ str "/" ++ two_digits mm ++ str "/" ++ two_digits dd
  ++ str " " ++ two_digits HH ++ str ":" ++ two_digits MM ++ str ":"
  ++ two_digits SS.

(** The same instant as the tables write it, 20YY-MM-DD HH:MM:SS. *)
Definition rendered (yy mm dd HH MM SS : Z) : text :=
  str "20" ++ two_digits yy ++ str "-" ++ two_digits mm ++ str "-"
  ++ two_digits dd ++ str " " ++ two_digits HH ++ str ":" ++ two_digits MM
  ++ str ":" ++ two_digits SS.

(** The six numbers are a date and a time of day of the year 2000 + yy. *)
Definition civil (yy mm dd HH MM SS : Z) : bool :=
  (1 <=? mm) && (mm <=? 12)
  && (1 <=? dd) && (dd <=? Datetime.days_in_month (2000 + yy) mm)
  && (HH <=? 23) && (MM <=? 59) && (SS <=? 59).

Section WithUnicode.
Context {U : UnicodeDB}.

(** [\b] holds between two neighbouring characters (or an end of the
    text) when exactly one of them is a word character. *)
Definition boundary (a b : option N) : Prop := word_at a ≠ word_at b.

(** [tok] occurs in [line] at index [i] as a word of its own: with a
    word boundary before it and after it. *)
Definition standalone (tok line : text) (i : nat) : Prop :=
  ∃ pre post, line = pre ++ tok ++ post ∧ length pre = i
    ∧ boundary (last pre) (head (tok ++ post))
    ∧ boundary (last (pre ++ tok)) (head post).

(** [tok] occurs as a word of its own right at a cursor. *)
Definition here (tok : text) (b : option N) (s : text) : Prop :=
  ∃ post, s = tok ++ post ∧ boundary b (head s) ∧ boundary (last tok) (head post).

(** What one alternative of the level pattern returns at a cursor. *)
Definition attempt (tok : text) (b : option N) (p : nat) (s : text) : option mobj :=
  if Fs.starts_with tok s then
    if xorb (word_at (last tok)) (word_at (head (drop (length tok) s)))
    then Some (MObj p (p + length tok) [(1%nat, tok)])
    else None
  else None.

(** A successful run of the matcher went through its continuation, after
    some prefix [w] of the remaining text, and the groups outside the
    pattern kept their value. *)
Definition through {A} (r : regex) (c : cursor) (g : groups)
    (k : cursor → groups → option A) (x : A) : Prop :=
  ∃ w g', rest c = w ++ rest (skip w c) ∧ k (skip w c) g' = Some x
    ∧ ∀ i, i ∉ groups_of r → get_group i g' = get_group i g.

(** The qualifying lines of a stream, each with its level. *)
Definition qualifying (items : list (Fs.path * text)) : list Problem1.record :=
  omap (fun item : Fs.path * text =>
          match search Problem1.LEVEL_RE item.2 with
          | Some m => Some (item.1, item.2, Problem1.group1 m)
          | None => None
          end) items.

(** Number of qualifying records with a given level. *)
Definition with_level (lvl : text) (recs : list Problem1.record) : Z :=
  Py.len (filter (fun r : Problem1.record => r.2 = lvl) recs).

(** The sum of the four per-level counts. *)
Definition level_total (c : Py.Counter text) : Z :=
  foldr (fun lvl acc => Py.counter_get c lvl + acc) 0 Problem1.LEVELS.

(** The names that end in application_<13 digits>_<digits>. *)
Definition ends_in_identifier (name : text) : Prop :=
  ∃ pre d13 dn,
    name = pre ++ str "application_" ++ d13 ++ [95%N] ++ dn
    ∧ length d13 = 13%nat ∧ Forall (fun c => Char.is_digit c = true) d13
    ∧ dn ≠ [] ∧ Forall (fun c => Char.is_digit c = true) dn.

(** [s] is [application_], thirteen digits, an underscore, at least one
    digit and then [tail]. *)
Definition app_shape (s d13 dn tail : text) : Prop :=
  s = str "application_" ++ d13 ++ [95%N] ++ dn ++ tail
  ∧ length d13 = 13%nat ∧ Forall (fun c => Char.is_digit c = true) d13
  ∧ dn ≠ [] ∧ Forall (fun c => Char.is_digit c = true) dn.

(** The names the directory pattern accepts: a name that ends in an
    identifier, possibly followed by one line feed. *)
Definition accepted (name : text) : Prop :=
  ∃ pre d13 dn tail, name = pre ++ str "application_" ++ d13 ++ [95%N] ++ dn ++ tail
    ∧ length d13 = 13%nat ∧ Forall (fun c => Char.is_digit c = true) d13
    ∧ dn ≠ [] ∧ Forall (fun c => Char.is_digit c = true) dn
    ∧ (tail = [] ∨ tail = [10%N]).

(** The pattern captures the whole of [new_year yy] and the parser gives it
    the year 2000 + yy. *)
Definition year_checks (yy : Z) : bool :=
  match match_ Problem2.TS_RE (new_year yy), Problem2.parse_ts (new_year yy) with
  | Some m, Ok dt =>
      bool_decide (group 1 m = Some (new_year yy)) && (Datetime.year dt =? 2000 + yy)
  | _, _ => false
  end.

(** The numeric keys of the rows of the timeline table (cluster_id and
    app_number as integers), and whether the rows are in ascending order
    of them. *)
Fixpoint timeline_keys (rows : list Problem2.timeline_row) : result (list (Z * Z)) :=
  match rows with
  | [] => Ok []
  | row :: rows' =>
      cid ←! Py.int row.1.1.1.1;
      num ←! Py.int row.1.1.2;
      ks ←! timeline_keys rows';
      Ok ((cid, num) :: ks)
  end.

Definition timeline_numeric (rows : list Problem2.timeline_row) : bool :=
  match timeline_keys rows with
  | Ok ks => ascending ks
  | Raise _ => false
  end.

(** [dt] is the time of a line: the timestamp pattern matches at its head
    and the parser returns [dt] for what it captures. *)
Definition line_time (line : text) (dt : Datetime.datetime) : Prop :=
  ∃ mt, match_ Problem2.TS_RE line = Some mt
    ∧ Problem2.parse_ts (default [] (group 1 mt)) = Ok dt.

(** [dt] is the time of some line of one of the files. *)
Definition seen (fs : list Fs.file) (dt : Datetime.datetime) : Prop :=
  ∃ f line, f ∈ fs ∧ line ∈ Fs.f_lines f ∧ line_time line dt.

(** The directory [d] is an application of the cluster [cid] whose logs
    run from [s] to [e]. *)
Definition app_of (cid : text) (d : Fs.entry) (s e : Datetime.datetime) : Prop :=
  ∃ aid num, Problem2.scan_app_times d = Ok (cid, aid, num, Some s, Some e).

(** [dt] is the time of one of the lines. *)
Definition among (lines : list text) (dt : Datetime.datetime) : Prop :=
  ∃ line, line ∈ lines ∧ line_time line dt.

(** [dt] lies within a time range. *)
Definition covers (r : Problem2.range) (dt : Datetime.datetime) : Prop :=
  ∃ s e, r = (Some s, Some e) ∧ Datetime.le s dt = true ∧ Datetime.le dt e = true.

(** What holds of the first and last times of the clusters once the
    directories [ds] have been scanned: they bound the time range of every
    application of the cluster, and each is the start, or the end, of one
    of them. *)
Definition extremes (st : Problem2.state) (ds : list Fs.entry) : Prop :=
  (∀ cid d s e, d ∈ ds → app_of cid d s e →
     ∃ f l, Problem2.cluster_first st !! cid = Some f
       ∧ Problem2.cluster_last st !! cid = Some l
       ∧ Datetime.le f s = true ∧ Datetime.le e l = true)
  ∧ (∀ cid f, Problem2.cluster_first st !! cid = Some f →
       ∃ d e, d ∈ ds ∧ app_of cid d f e)
  ∧ (∀ cid l, Problem2.cluster_last st !! cid = Some l →
       ∃ d s, d ∈ ds ∧ app_of cid d s l).

(** The cluster of a row of the timeline. *)
Definition cluster_of (row : Problem2.timeline_row) : text := row.1.1.1.1.

(** What ties the counter of the clusters to the rows of the timeline:
    distinct keys, and for every cluster as many applications as rows. *)
Definition counted (st : Problem2.state) : Prop :=
  NoDup (Py.counter_keys (Problem2.cluster_counts st))
  ∧ (∀ cid, Py.counter_get (Problem2.cluster_counts st) cid =
            Py.len (filter (fun row => cluster_of row = cid) (Problem2.timeline_rows st)))
  ∧ Problem2.num_apps st = Py.len (Problem2.timeline_rows st).

(** The comparison behind the clusters by falling count. *)
Definition by_count (a b : text * Z) : bool := b.2 <? a.2.

(** The keys of the counter of levels are distinct levels and every count
    is positive. *)
Definition tidy (c : Py.Counter text) : Prop :=
  NoDup (Py.counter_keys c)
  ∧ Forall (fun k => k ∈ Problem1.LEVELS) (Py.counter_keys c)
  ∧ Forall (fun v => 0 < v) (Py.counter_values c).

(** A datetime that the constructor accepts. *)
Definition wellformed (dt : Datetime.datetime) : Prop :=
  1 ≤ Datetime.year dt ∧ 1 ≤ Datetime.month dt ≤ 12
  ∧ 1 ≤ Datetime.day dt ≤ Datetime.days_in_month (Datetime.year dt) (Datetime.month dt)
  ∧ 0 ≤ Datetime.hour dt ≤ 23 ∧ 0 ≤ Datetime.minute dt ≤ 59
  ∧ 0 ≤ Datetime.second dt ≤ 59.

(** What ties the lists of durations to the state of the loop: no
    duration is negative and a cluster has as many durations as
    applications. *)
Definition timed (durations : gmap text (list Z)) (st : Problem2.state) : Prop :=
  (∀ cid ds, durations !! cid = Some ds → Forall (fun x => 0 ≤ x) ds)
  ∧ ∀ cid, Py.len (default [] (durations !! cid)) =
           Py.counter_get (Problem2.cluster_counts st) cid.

(** A run of decimal digits. *)
Definition digits (s : text) : Prop := Forall (fun c => Char.is_digit c = true) s.

(** A time as the tables write it: 20YY-MM-DD HH:MM:SS for a date and a
    time of day that exist. *)
Definition time_text (s : text) : Prop :=
  ∃ yy mm dd HH MM SS,
    0 ≤ yy ≤ 99 ∧ civil yy mm dd HH MM SS = true ∧ 0 ≤ HH ∧ 0 ≤ MM ∧ 0 ≤ SS
    ∧ s = rendered yy mm dd HH MM SS.

(** The shape of a row of the timeline: thirteen digits, the identifier
    made of them and of the digits of the number, these digits, and two
    times. *)
Definition timeline_shape (row : Problem2.timeline_row) : Prop :=
  ∃ d13 dn start_time end_time,
    row = (d13, str "application_" ++ d13 ++ str "_" ++ dn, dn, start_time, end_time)
    ∧ length d13 = 13%nat ∧ digits d13 ∧ dn ≠ [] ∧ digits dn
    ∧ time_text start_time ∧ time_text end_time.

(** The shape of a row of the cluster summary. *)
Definition summary_shape (row : Problem2.summary_row) : Prop :=
  ∃ d13 n first last,
    row = (d13, Py.str_of_int n, first, last)
    ∧ length d13 = 13%nat ∧ digits d13 ∧ 1 ≤ n
    ∧ time_text first ∧ time_text last.

(** A time range is absent, or runs from a start to an end that is not
    earlier. *)
Definition range_ok (r : Problem2.range) : Prop :=
  match r with
  | (None, None) => True
  | (Some s, Some e) => Datetime.le s e = true
  | _ => False
  end.

(** The timeline row that scanning the directory [d] gives rise to. *)
Definition row_from (row : Problem2.timeline_row) (d : Fs.entry) : Prop :=
  ∃ s e, Problem2.scan_app_times d =
           Ok (row.1.1.1.1, row.1.1.1.2, row.1.1.2, Some s, Some e)
    ∧ row.1.2 = Problem2.format_dt s ∧ row.2 = Problem2.format_dt e.

(** Directory names in the order of [str]. *)
Definition name_le (a b : Fs.entry) : Prop :=
  Py.text_lt (Fs.e_name b) (Fs.e_name a) = false.

(** The scan of the directory returns a start and an end: the loop gives
    it a row of the timeline. *)
Definition has_times (d : Fs.entry) : bool :=
  match Problem2.scan_app_times d with
  | Ok (_, _, _, Some _, Some _) => true
  | _ => false
  end.

(** The directories of the tree that get a row of the timeline, in the
    order in which the loop visits them. *)
Definition timeline_dirs (t : Fs.tree) : list Fs.entry :=
  filter (fun d => has_times d = true) (Problem2.iter_app_dirs t).

(** What holds of the accumulators of the time-range report between two
    iterations: a cluster that has a count has at least one application
    and a first time not after its last time; any other cluster has
    neither. *)
Definition Inv2 (st : Problem2.state) : Prop :=
  ∀ cid,
    ((cid ∈ Py.counter_keys (Problem2.cluster_counts st))
     ∧ 1 ≤ Py.counter_get (Problem2.cluster_counts st) cid
     ∧ (∃ f l, Problem2.cluster_first st !! cid = Some f
          ∧ Problem2.cluster_last st !! cid = Some l
          ∧ Datetime.le f l = true))
    ∨ ((cid ∉ Py.counter_keys (Problem2.cluster_counts st))
       ∧ Problem2.cluster_first st !! cid = None
       ∧ Problem2.cluster_last st !! cid = None).

(** The keys of the counts of the time-range report are cluster
    identifiers: [int] accepts them. *)
Definition keys_numeric (st : Problem2.state) : Prop :=
  Forall (fun cid => ∃ n, Py.int cid = Ok n)
    (Py.counter_keys (Problem2.cluster_counts st)).

(** A row of the cluster summary renders a count of at least one and a
    first time that is not after the last time. *)
Definition summary_row_ok (row : Problem2.summary_row) : Prop :=
  ∃ n f l, row = (row.1.1.1, Py.str_of_int n, Problem2.format_dt f, Problem2.format_dt l)
    ∧ 1 ≤ n ∧ Datetime.le f l = true.

Context {R : RandomSource}.

(** Algorithm R as the specification words it, for the record that is
    the [N]th qualifying one: among the first [K] it is appended;
    later an integer [J] is drawn in [[1, N]] and the record overwrites
    slot [J - 1] when [J <= K] and is discarded otherwise. *)
Definition algorithm_R_step {A} (K N : Z) (rec : A) (sg : list A * rng)
    : list A * rng :=
  if N <=? K then (sg.1 ++ [rec], sg.2)
  else
    let '(J, g') := randint 1 N sg.2 in
    if J <=? K then (<[Z.to_nat (J - 1) := rec]> sg.1, g') else (sg.1, g').

(** Algorithm R over the qualifying records, [seen] of which came
    before. *)
Fixpoint algorithm_R {A} (K seen : Z) (recs : list A) (sg : list A * rng)
    : list A * rng :=
  match recs with
  | [] => sg
  | rec :: recs' =>
      algorithm_R K (seen + 1) recs' (algorithm_R_step K (seen + 1) rec sg)
  end.

(** What holds of the local variables of the level report between two
    iterations. *)
Record Inv1 (st : Problem1.state) : Prop := {
  inv_kept : Problem1.n_kept st = Problem1.level_lines st;
  inv_len : Py.len (Problem1.sample st) = Z.min Problem1.k (Problem1.level_lines st);
  inv_nonneg : 0 ≤ Problem1.level_lines st ≤ Problem1.total_lines st;
  inv_sum : Problem1.level_lines st = level_total (Problem1.counts st);
}.
End WithUnicode.
End Spec.

(** ** Instances of the interfaces *)

Module Lcg.
Local Open Scope Z_scope.

(** A linear congruential generator as random source. *)
Definition next (g : Z) : Z := (g * 1103515245 + 12345) mod 2147483648.

Definition draw (a b g : Z) : Z * Z := (a + g mod (b - a + 1), next g).

#[export] Program Instance source : RandomSource | 100 :=
  {| rng := Z; randint := draw |}.
Next Obligation.
  intros a b g H. unfold draw. cbn [fst].
  pose proof (Z.mod_pos_bound g (b - a + 1) ltac:(lia)). lia.
Qed.
End Lcg.

Module Binary64.
Local Open Scope Z_scope.

Definition prec : Z := 53.
Definition emax : Z := 1024.

(** The float nearest to [m * 2^e], ties to even. *)
Definition nearest (m e : Z) : spec_float := binary_normalize prec emax m e false.

(** Half an ulp above the largest float: a quotient of this size or more
    rounds to infinity. *)
Definition overflow_threshold : Z := 2 ^ 1024 - 2 ^ 970.

(** The correctly rounded quotient of two ints, as [int.__truediv__]
    computes it: the quotient is developed to more bits than a float holds,
    with a last bit that records whether anything remains, and rounded
    once.  [None] when it overflows. *)
Definition truediv (x d : Z) : option spec_float :=
  let neg := xorb (x <? 0) (d <? 0) in
  let a := Z.abs x in
  let b := Z.abs d in
  if a =? 0 then Some (S754_zero neg)
  else if overflow_threshold * b <=? a then None
  else
    let sh := 64 + Z.log2 b in
    let q := Z.shiftl a sh / b in
    let sticky := if Z.shiftl a sh mod b =? 0 then 0 else 1 in
    let m := 2 * q + sticky in
    Some (nearest (if neg then - m else m) (- (sh + 1))).

Definition of_int (n : Z) : spec_float := nearest n 0.

(** The integer nearest to [m * 2^e * 100], ties to even. *)
Definition hundredths (m : positive) (e : Z) : Z :=
  if 0 <=? e then Z.pos m * 2 ^ e * 100
  else
    let num := Z.pos m * 100 in
    let den := 2 ^ (- e) in
    let q := num / den in
    let r := num mod den in
    if (den <? 2 * r) || ((den =? 2 * r) && Z.odd q) then q + 1 else q.

Definition fixed2 (neg : bool) (n : Z) : text :=
  (if neg then str "-" else []) ++ Py.str_of_int (n / 100) ++ str "."
  ++ Py.zfill 2 (Py.str_of_int (n mod 100)).

(** [format(f, "0.2f")] *)
Definition render_2f (f : spec_float) : text :=
  match f with
  | S754_zero neg => fixed2 neg 0
  | S754_finite neg m e => fixed2 neg (hundredths m e)
  | S754_infinity neg => (if neg then str "-" else []) ++ str "inf"
  | S754_nan => str "nan"
  end.

#[export] Program Instance ops : FloatOps | 100 :=
  {| float := spec_float;
     int_truediv := truediv;
     float_of_int := of_int;
     float_mul := SFmul prec emax;
     format_2f := render_2f |}.
Next Obligation.
  intros x d Hx Hd. unfold truediv.
  destruct (Z.abs x =? 0); [by eexists|].
  assert (2 ≤ overflow_threshold) as Ht by (by vm_compute).
  destruct (Z.leb_spec (overflow_threshold * Z.abs d) (Z.abs x)) as [Hle|];
    [|by eexists].
  exfalso. rewrite (Z.abs_eq d), (Z.abs_eq x) in Hle by lia.
  revert Ht Hle. generalize overflow_threshold. intros c Hc Hle.
  assert (2 * d ≤ c * d) by (apply Z.mul_le_mono_nonneg_r; lia). lia.
Qed.
End Binary64.

(** ** Sample inputs *)

Module Sample.
Local Open Scope Z_scope.

Definition started : text := str "17/03/29 10:04:41 INFO Started".

(** What the timestamp pattern captures in it, and the datetime it
    stands for. *)
Definition started_ts : text := str "17/03/29 10:04:41".


Definition started_dt : Datetime.datetime := Datetime.DT 2017 3 29 10 4 41.

Definition errorish : text := str "random text ERRORISH".

(** Digits in the shape of a timestamp that are no date. *)
Definition no_date : text := str "17/13/45 99:99:99 INFO Started".

Definition app_name : text := str "application_1234567890123_000001".

(** The same name followed by a line feed. *)
Definition app_name_lf : text := app_name ++ [10%N].

Definition log (name : string) (lines : list string) : Fs.file :=
  Fs.File (str name) (List.map (fun l => str l ++ [10%N]) lines) None.

(** Two applications of one cluster, numbered 9 and 10. *)
Definition tree_9_10 : Fs.tree :=
  Fs.Tree
    [ Fs.Entry (str "application_1234567890123_9") true
        [ log "container.log" ["17/03/29 10:04:41 INFO Started"%string;
                               "17/03/29 10:05:00 WARN Slow"%string] ];
      Fs.Entry (str "application_1234567890123_10") true
        [ log "container.log" ["17/03/30 08:00:00 INFO Started"%string;
                               "no timestamp here"%string;
                               "17/03/30 09:30:15 ERROR Failed"%string] ] ]
    None.

Definition timeline_9_10 : list Problem2.timeline_row :=
  [ (str "1234567890123", str "application_1234567890123_10", str "10",
     str "2017-03-30 08:00:00", str "2017-03-30 09:30:15");
    (str "1234567890123", str "application_1234567890123_9", str "9",
     str "2017-03-29 10:04:41", str "2017-03-29 10:05:00") ].

Definition summary_9_10 : list Problem2.summary_row :=
  [ (str "1234567890123", str "2", str "2017-03-29 10:04:41",
     str "2017-03-30 09:30:15") ].

Definition denied : exn := OSError (str "Permission denied").

(** One application whose first log cannot be opened. *)
Definition unreadable : Fs.file := Fs.File (str "a.log") [] (Some denied).

Definition readable : Fs.file := log "b.log" ["17/03/29 10:04:41 INFO Started"%string].

Definition tree_unreadable : Fs.tree :=
  Fs.Tree
    [ Fs.Entry (str "application_1234567890123_0001") true [unreadable; readable] ]
    None.

(** Three lines, two of them with a level. *)
Definition few : list (Fs.path * text) :=
  [ ((str "d", str "f"), str "17/03/29 10:04:41 INFO Started");
    ((str "d", str "f"), str "no level here");
    ((str "d", str "g"), str "17/03/29 10:05:00 WARN Slow") ].

(** The state of the level report with one sampled line that holds a
    quoted word, read from the file [name]. *)
Definition sampled (R : RandomSource) (g : rng) (name : string) : Problem1.state :=
  Problem1.State 1 1 [(str "INFO", 1)]
    [((str "d", str name), str "INFO said " ++ [34%N] ++ str "hi" ++ [34%N], str "INFO")]
    1 g.

(** The first line that the walk over the two applications yields. *)
Definition first_item : Fs.path * text :=
  ((str "application_1234567890123_9", str "container.log"), started).

(** The application numbered 9, and the datetimes of its two lines. *)
Definition app_9 : Fs.entry :=
  Fs.Entry (str "application_1234567890123_9") true
    [ log "container.log" ["17/03/29 10:04:41 INFO Started"%string;
                           "17/03/29 10:05:00 WARN Slow"%string] ].

Definition slow_dt : Datetime.datetime := Datetime.DT 2017 3 29 10 5 0.

(** An application whose log has no timestamp. *)
Definition app_silent : Fs.entry :=
  Fs.Entry app_name true [ log "container.log" ["no timestamp here"%string] ].

(** An application whose log opens with digits that are no date. *)
Definition app_no_date : Fs.entry :=
  Fs.Entry app_name true
    [ log "container.log" ["17/13/45 99:99:99 INFO Started"%string] ].

Definition tree_no_date : Fs.tree := Fs.Tree [app_no_date] None.

(** The accumulators and the durations after the loop over the two
    applications. *)
Definition cluster : text := str "1234567890123".

Definition state_9_10 : Problem2.state :=
  Problem2.State timeline_9_10 [(cluster, 2)]
    {[ cluster := started_dt ]} {[ cluster := Datetime.DT 2017 3 30 9 30 15 ]}.

Definition durations_9_10 : gmap text (list Z) := {[ cluster := [5415; 19] ]}.

(** Sixteen lines, twelve of them with a level. *)
Definition sixteen : list (Fs.path * text) :=
  List.map (fun i : nat => ((str "d", str "f"),
     (if Nat.eqb (i mod 4) 3 then str "no level " else str "INFO line ")
       ++ Py.str_of_int (Z.of_nat i))) (seq 0 16).

(** The lines of the sample, the two counters and the generator after a
    pass with the linear congruential generator. *)
Definition outcome (r : result (Problem1.state (R := Lcg.source)))
    : result (list text * Z * Z * Z) :=
  match r with
  | Ok st => Ok (List.map (fun rec : Problem1.record => rec.1.2) (Problem1.sample st),
                 Problem1.total_lines st, Problem1.level_lines st, Problem1.gen st)
  | Raise e => Raise e
  end.
End Sample.

(** ** Proof automation *)

Module Tactics.

(** Case analysis on a number below one hundred. *)
Ltac hundred n tac :=
  rewrite <- (Z2Nat.id n) by lia;
  let k := fresh "k" in
  let Hk := fresh "Hk" in
  assert (Z.to_nat n < 100)%nat as Hk by lia;
  revert Hk; generalize (Z.to_nat n); intros k Hk;
  do 100 (destruct k as [|k]; [tac|]); exfalso; lia.

(** A match that runs to the continuation [K]. *)
Ltac by_cases K := vm_compute; try reflexivity; by destruct (K _ _).

End Tactics.

(** * Properties *)

(** ** The matcher *)

Module ReFacts.
Import Re Spec.
Section WithUnicode.
Context {U : UnicodeDB}.

Lemma starts_with_spec (w s : text) :
  Fs.starts_with w s = true ↔ ∃ t, s = w ++ t.
Proof.
  revert s. induction w as [|x w IH]; intros s; simpl.
  - split; [intros _; by exists s | done].
  - destruct s as [|y s]; [split; [done | intros [t [=]]]|].
    rewrite andb_true_iff, N.eqb_eq, IH. split.
    + intros [-> [t ->]]. by exists t.
    + intros [t [= -> ->]]. split; [done | by exists t].
Qed.

Lemma exec_lit {A} (w : text) (c : cursor) g (k : cursor → groups → option A) :
  exec (lit w) c g k =
    if Fs.starts_with w (rest c) then k (skip w c) g else None.
Proof.
  revert c. induction w as [|x w IH]; intros [b p s]; simpl.
  - unfold skip; simpl. by rewrite Nat.add_0_r.
  - destruct s as [|y s]; [done|]. simpl.
    destruct (N.eqb_spec x y) as [->|]; [|done]. simpl.
    rewrite IH. simpl. destruct (Fs.starts_with w s); [|done].
    unfold skip; simpl. f_equal. f_equal; [|lia].
    destruct w as [|z w]; [done|]. 
    change (last (y :: z :: w)) with (last (z :: w)).
    destruct (last_is_Some (z :: w)) as [_ [u ->]]; done.
Qed.
Lemma skip_nil c : skip [] c = c.
Proof. destruct c as [b p s]. unfold skip; cbn. f_equal. lia. Qed.

Lemma skip_one b p y s : skip [y] (Cursor b p (y :: s)) = Cursor (Some y) (S p) s.
Proof. unfold skip; cbn. f_equal. lia. Qed.

Lemma skip_app w1 w2 c : skip (w1 ++ w2) c = skip w2 (skip w1 c).
Proof.
  destruct c as [b p s]. unfold skip; cbn [before pos rest].
  rewrite last_app, length_app, drop_drop. f_equal; [|lia].
  by destruct (last w2), (last w1).
Qed.

Lemma rest_skip w c t : rest c = w ++ t → rest (skip w c) = t.
Proof. intros H. unfold skip; cbn. by rewrite H, drop_app_length. Qed.

Lemma rep_sound {A} cs s : ∀ lo hi b p g (k : cursor → groups → option A) x,
  rep cs lo hi b p s g k = Some x →
  ∃ w, s = w ++ drop (length w) s
    ∧ k (skip w (Cursor b p s)) g = Some x.
Proof.
  induction s as [|y s IH]; intros lo hi b p g k x; cbn [rep].
  - destruct lo; [|done]. intros H. exists []. by rewrite skip_nil.
  - assert (match lo with O => k (Cursor b p (y :: s)) g | S _ => None end = Some x →
            ∃ w, y :: s = w ++ drop (length w) (y :: s)
              ∧ k (skip w (Cursor b p (y :: s))) g = Some x) as Hstop.
    { destruct lo; [|done]. intros H. exists []. by rewrite skip_nil. }
    destruct (in_cset cs y && hi_allows hi); [|done].
    destruct (rep cs (Nat.pred lo) (hi_pred hi) (Some y) (S p) s g k) as [x'|] eqn:E;
      [|done].
    intros [= ->]. apply IH in E as (w & Hw & Hk).
    exists (y :: w). split; [cbn; by f_equal|].
    change (y :: w) with ([y] ++ w). by rewrite skip_app, skip_one.
Qed.

Lemma exec_sound {A} r : ∀ c g (k : cursor → groups → option A) x,
  exec r c g k = Some x → through r c g k x.
Proof.
  unfold through.
  induction r as [| ch | cs | | | | r1 IH1 r2 IH2 | r1 IH1 r2 IH2 | cs lo hi | i r1 IH1];
    intros c g k x; cbn [exec groups_of].
  - intros H. exists [], g. by rewrite skip_nil.
  - destruct c as [b p [|y s]]; cbn [rest pos]; [done|].
    destruct (N.eqb_spec ch y) as [->|]; [|done]. intros H.
    exists [y], g. by rewrite skip_one.
  - destruct c as [b p [|y s]]; cbn [rest pos]; [done|].
    destruct (in_cset cs y); [|done]. intros H.
    exists [y], g. by rewrite skip_one.
  - destruct (xorb _ _); [|done]. intros H. exists [], g. by rewrite skip_nil.
  - destruct (pos c); [|done]. intros H. exists [], g. by rewrite skip_nil.
  - intros H. exists [], g. rewrite skip_nil. split; [done|]. split; [|done].
    destruct (rest c) as [|y [|z s]]; try done.
    all: revert H; repeat case_match; done.
  - intros H. apply IH1 in H as (w1 & g1 & Hw1 & H & Hg1).
    apply IH2 in H as (w2 & g2 & Hw2 & H & Hg2).
    exists (w1 ++ w2), g2. rewrite skip_app. split_and!; [|done|].
    + rewrite Hw1 at 1. rewrite Hw2 at 1. by rewrite app_assoc.
    + intros j Hj. rewrite not_elem_of_app in Hj. destruct Hj.
      rewrite Hg2, Hg1; done.
  - destruct (exec r1 c g k) as [x'|] eqn:E.
    + intros [= ->]. apply IH1 in E as (w & g' & ? & ? & Hg).
      exists w, g'. split; [done|]. split; [done|].
      intros j Hj. rewrite not_elem_of_app in Hj. apply Hg. tauto.
    + intros H. apply IH2 in H as (w & g' & ? & ? & Hg).
      exists w, g'. split; [done|]. split; [done|].
      intros j Hj. rewrite not_elem_of_app in Hj. apply Hg. tauto.
  - intros H. destruct c as [b p s]. cbn [before pos rest] in *.
    apply rep_sound in H as (w & Hw & H).
    exists w, g. split_and!; [|done..].
    unfold skip; cbn. done.
  - intros H. apply IH1 in H as (w & g' & Hw & H & Hg).
    eexists w, _. split; [done|]. split; [exact H|].
    intros j Hj. rewrite not_elem_of_cons in Hj. destruct Hj as [Hne Hj].
    unfold set_group. cbn [get_group].
    destruct (Nat.eqb_spec j i); [done|]. by apply Hg.
Qed.
End WithUnicode.
End ReFacts.

(** ** Built-ins *)

Module PyFacts.
Import Spec.
Local Open Scope Z_scope.

Section Sorting.
Context {A : Type} (lt : A → A → bool).
Hypothesis lt_asym : ∀ a b, lt a b = true → lt b a = false.
Hypothesis le_trans : ∀ a b c, lt b a = false → lt c b = false → lt c a = false.

Lemma insort_Permutation x l : Py.insort lt x l ≡ₚ x :: l.
Proof.
  induction l as [|y l IH]; cbn [Py.insort]; [done|].
  destruct (lt y x); [|done]. rewrite IH. apply perm_swap.
Qed.

Lemma sorted_Permutation l : Py.sorted lt l ≡ₚ l.
Proof.
  unfold Py.sorted. induction l as [|x l IH]; cbn [foldr]; [done|].
  by rewrite insort_Permutation, IH.
Qed.

Lemma insort_StronglySorted x l :
  StronglySorted (not_after lt) l → StronglySorted (not_after lt) (Py.insort lt x l).
Proof.
  induction l as [|y l IH]; cbn [Py.insort]; intros Hs.
  - repeat constructor.
  - apply StronglySorted_inv in Hs as [Hs Hy].
    destruct (lt y x) eqn:E.
    + constructor; [by apply IH|].
      rewrite insort_Permutation. constructor; [|done].
      by apply lt_asym.
    + constructor; [by constructor|].
      constructor; [done|].
      eapply Forall_impl; [exact Hy|]. intros z Hz. by eapply le_trans.
Qed.

Lemma sorted_StronglySorted l : StronglySorted (not_after lt) (Py.sorted lt l).
Proof.
  unfold Py.sorted. induction l as [|x l IH]; cbn [foldr]; [constructor|].
  by apply insort_StronglySorted.
Qed.
End Sorting.

Lemma StronglySorted_sublist {A} (R : A → A → Prop) l1 l2 :
  sublist l1 l2 → StronglySorted R l2 → StronglySorted R l1.
Proof.
  induction 1 as [|x l1 l2 Hs IH|x l1 l2 Hs IH]; intros H2; [done| |].
  - apply StronglySorted_inv in H2 as [H2 Hx]. constructor; [by apply IH|].
    eapply Forall_forall. intros y Hy. rewrite Forall_forall in Hx. apply Hx.
    by eapply elem_of_sublist.
  - apply StronglySorted_inv in H2 as [H2 _]. by apply IH.
Qed.

Lemma text_lt_irrefl s : Py.text_lt s s = false.
Proof.
  induction s as [|x s IH]; cbn; [done|].
  by rewrite N.ltb_irrefl, N.eqb_refl, IH.
Qed.

Lemma text_lt_asym s t : Py.text_lt s t = true → Py.text_lt t s = false.
Proof.
  revert t. induction s as [|x s IH]; intros [|y t]; cbn; try done.
  rewrite orb_true_iff, andb_true_iff, N.ltb_lt, N.eqb_eq.
  intros [Hlt | [-> Hr]].
  - apply orb_false_iff. split; [apply N.ltb_ge; lia|].
    apply andb_false_iff. left. apply N.eqb_neq. lia.
  - rewrite N.ltb_irrefl, N.eqb_refl. cbn. by apply IH.
Qed.

Lemma text_le_trans a b c :
  Py.text_lt b a = false → Py.text_lt c b = false → Py.text_lt c a = false.
Proof.
  revert b c. induction a as [|x a IH]; intros [|y b] [|z c]; cbn; try done.
  rewrite !orb_false_iff, !andb_false_iff, !N.ltb_ge, !N.eqb_neq.
  intros [H1 H1'] [H2 H2']. split; [lia|].
  destruct (decide (z = x)) as [->|]; [|by left]. right.
  assert (y = x) as -> by lia.
  destruct H1' as [|H1']; [done|]. destruct H2' as [|H2']; [done|].
  by eapply IH.
Qed.

(** Counters *)
Section Counter.
Context `{EqDecision K}.

Lemma counter_get_incr (c : Py.Counter K) (k k' : K) :
  Py.counter_get (Py.counter_incr c k) k' =
    Py.counter_get c k' + (if decide (k' = k) then 1 else 0).
Proof.
  induction c as [|[k0 v] c IH]; simpl.
  - repeat case_decide; simplify_eq; lia.
  - repeat (case_decide; simplify_eq; simpl); try lia; try done.
Qed.

Lemma counter_keys_incr (c : Py.Counter K) (k x : K) :
  x ∈ Py.counter_keys (Py.counter_incr c k) ↔ x = k ∨ x ∈ Py.counter_keys c.
Proof.
  unfold Py.counter_keys. induction c as [|[k0 v] c IH]; cbn.
  - rewrite elem_of_cons, elem_of_nil. tauto.
  - case_decide; simplify_eq; cbn; rewrite !elem_of_cons; [tauto|].
    rewrite IH. tauto.
Qed.

Lemma counter_get_absent (c : Py.Counter K) (k : K) :
  k ∉ Py.counter_keys c → Py.counter_get c k = 0.
Proof.
  unfold Py.counter_keys. induction c as [|[k0 v] c IH]; cbn; [done|].
  rewrite not_elem_of_cons. intros [Hne Hk]. case_decide; [done|]. by apply IH.
Qed.
End Counter.

Lemma list_setitem_in_range {A} (l : list A) (i : Z) (x : A) :
  0 ≤ i < Py.len l →
  Py.list_setitem l i x = Ok (<[Z.to_nat i := x]> l).
Proof.
  unfold Py.list_setitem, Py.len. intros H.
  destruct (Z.ltb_spec i 0); [lia|].
  destruct (Z.leb_spec 0 i); [|lia].
  destruct (Z.ltb_spec i (Z.of_nat (length l))); [done | lia].
Qed.
End PyFacts.

(** ** Datetimes *)

Module DtOrder.
Import Datetime.
Local Open Scope Z_scope.

Lemma cmp_opp a : ∀ b, cmp b a = CompOpp (cmp a b).
Proof.
  induction a as [|x a IH]; intros [|y b]; cbn; try done.
  rewrite (Z.compare_antisym x y).
  destruct (x ?= y); cbn; [apply IH | done..].
Qed.

Lemma cmp_refl a : cmp a a = Eq.
Proof. induction a as [|x a IH]; cbn; [done|]. by rewrite Z.compare_refl. Qed.

Lemma cmp_le_trans a : ∀ b c, cmp a b ≠ Gt → cmp b c ≠ Gt → cmp a c ≠ Gt.
Proof.
  induction a as [|x a IH]; intros [|y b] [|z c]; cbn; try done.
  destruct (Z.compare_spec x y), (Z.compare_spec y z), (Z.compare_spec x z);
    try done; try lia.
  apply IH.
Qed.

Lemma le_refl a : le a a = true.
Proof. unfold le. by rewrite cmp_refl. Qed.

Lemma le_trans a b c : le a b = true → le b c = true → le a c = true.
Proof.
  unfold le. intros H1 H2.
  pose proof (cmp_le_trans (fields a) (fields b) (fields c)) as H.
  destruct (cmp (fields a) (fields b)), (cmp (fields b) (fields c)),
    (cmp (fields a) (fields c)); try done; exfalso; by apply H.
Qed.

Lemma lt_false_le a b : lt a b = false → le b a = true.
Proof.
  unfold lt, le. rewrite (cmp_opp (fields a) (fields b)).
  by destruct (cmp (fields a) (fields b)).
Qed.

Lemma lt_true_le a b : lt a b = true → le a b = true.
Proof. unfold lt, le. by destruct (cmp (fields a) (fields b)). Qed.

Lemma gt_false_le a b : gt a b = false → le a b = true.
Proof. unfold gt, le. by destruct (cmp (fields a) (fields b)). Qed.

Lemma gt_true_le a b : gt a b = true → le b a = true.
Proof.
  unfold gt, le. rewrite (cmp_opp (fields a) (fields b)).
  by destruct (cmp (fields a) (fields b)).
Qed.
End DtOrder.

Module DtFacts.
Import Re ReFacts Datetime Spec.
Local Open Scope Z_scope.
Section WithUnicode.
Context {U : UnicodeDB}.

Lemma decimal_value_lt c v : Char.decimal_value c = Some v → (v < 10)%N.
Proof.
  unfold Char.decimal_value, Char.between.
  destruct (Char.is_ascii c).
  - destruct (_ && _) eqn:E; [|done].
    intros [= <-]. apply andb_true_iff in E as [E1 E2].
    apply N.leb_le in E1, E2. lia.
  - apply uni_decimal_lt.
Qed.

Lemma digit_not_space c v :
  Char.decimal_value c = Some v → Char.is_space c = false.
Proof.
  unfold Char.decimal_value, Char.is_space, Char.between.
  destruct (Char.is_ascii c).
  - destruct (_ && _) eqn:E; [|done]. intros _.
    apply andb_true_iff in E as [E1 E2]. apply N.leb_le in E1, E2.
    apply orb_false_iff. split; apply andb_false_iff.
    + right. apply N.leb_gt. lia.
    + right. apply N.leb_gt. lia.
  - apply uni_decimal_not_space.
Qed.

Lemma int_two_digits d1 d2 v1 v2 :
  Char.decimal_value d1 = Some v1 → Char.decimal_value d2 = Some v2 →
  Py.int [d1; d2] = Ok (10 * Z.of_N v1 + Z.of_N v2).
Proof.
  intros H1 H2. unfold Py.int, Py.strip. cbn [Py.strip_left].
  rewrite (digit_not_space _ _ H1). cbn [rev app Py.strip_left].
  rewrite (digit_not_space _ _ H2). cbn [rev app Py.digits_value].
  rewrite H1, H2. f_equal; lia.
Qed.

Lemma make_Ok y m d H M S dt :
  make y m d H M S = Ok dt → dt = DT y m d H M S.
Proof.
  unfold make. repeat (destruct (negb _); [done|]). by intros [= <-].
Qed.

Lemma strptime_groups :
  ∃ tail, STRPTIME_RE = Cat (Grp 1 (Cat (In_ Digit) (In_ Digit))) tail
    ∧ 1%nat ∉ groups_of tail.
Proof.
  eexists. split; [reflexivity|].
  cbn. rewrite !not_elem_of_cons. split_and!; try done. apply not_elem_of_nil.
Qed.

Lemma match_STRPTIME_RE ts found :
  match_ STRPTIME_RE ts = Some found →
  ∃ d1 d2 rest v1 v2, ts = d1 :: d2 :: rest
    ∧ Char.decimal_value d1 = Some v1 ∧ Char.decimal_value d2 = Some v2
    ∧ group 1 found = Some [d1; d2].
Proof.
  destruct strptime_groups as (tail & -> & Hno).
  unfold match_. cbn [exec rest pos].
  destruct ts as [|d1 [|d2 ts]]; [done| |].
  { cbn [in_cset]. by destruct (Char.is_digit d1). }
  cbn [in_cset]. unfold Char.is_digit.
  destruct (Char.decimal_value d1) as [v1|] eqn:E1; [|done].
  destruct (Char.decimal_value d2) as [v2|] eqn:E2; [|done].
  cbn [rest pos]. intros H.
  apply exec_sound in H as (w & g' & _ & H & Hg).
  unfold accept in H. injection H as <-.
  exists d1, d2, ts, v1, v2. split_and!; try done.
  unfold group. cbn [m_groups]. by rewrite Hg.
Qed.

Lemma strptime_year ts dt :
  strptime ts = Ok dt →
  ∃ d1 d2 rest v1 v2, ts = d1 :: d2 :: rest
    ∧ Char.decimal_value d1 = Some v1 ∧ Char.decimal_value d2 = Some v2
    ∧ ∃ m d H M S,
        make (pivot (10 * Z.of_N v1 + Z.of_N v2)) m d H M S = Ok dt.
Proof.
  unfold strptime.
  destruct (match_ STRPTIME_RE ts) as [found|] eqn:E; [|done].
  destruct (negb _); [done|].
  apply match_STRPTIME_RE in E as (d1 & d2 & rest & v1 & v2 & -> & H1 & H2 & Hg).
  unfold field at 1. rewrite Hg.
  change (default [] (Some [d1; d2])) with [d1; d2].
  rewrite (int_two_digits _ _ _ _ H1 H2). cbn [rbind].
  destruct (field 2 found) as [m|]; [|done].
  destruct (field 3 found) as [d|]; [|done].
  destruct (field 4 found) as [H|]; [|done].
  destruct (field 5 found) as [M|]; [|done].
  destruct (field 6 found) as [S|]; [|done].
  cbn [rbind]. intros Hm.
  exists d1, d2, rest, v1, v2. split_and!; try done.
  by exists m, d, H, M, S.
Qed.

Lemma make_inv y m d H M S dt :
  make y m d H M S = Ok dt →
  dt = DT y m d H M S ∧ in_range 1 9999 y = true ∧ in_range 1 12 m = true
  ∧ in_range 1 (days_in_month y m) d = true ∧ in_range 0 23 H = true
  ∧ in_range 0 59 M = true ∧ in_range 0 59 S = true.
Proof.
  unfold make.
  repeat match goal with
  | |- (if negb ?b then _ else _) = _ → _ => destruct b; cbn [negb]; [|done]
  end.
  by intros [= <-].
Qed.

Lemma make_complete y m d H M S :
  in_range 1 9999 y = true → in_range 1 12 m = true
  → in_range 1 (days_in_month y m) d = true → in_range 0 23 H = true
  → in_range 0 59 M = true → in_range 0 59 S = true
  → make y m d H M S = Ok (DT y m d H M S).
Proof. unfold make. by intros -> -> -> -> -> ->. Qed.

(** Adding a century to a year of 1969..1999 keeps leap years. *)
Lemma is_leap_next_century y :
  1969 ≤ y ≤ 1999 → is_leap (y + 100) = is_leap y.
Proof.
  intros Hy. unfold is_leap.
  assert (y mod 100 ≠ 0) as H1.
  { intros H. apply Z.mod_divide in H as [q ->]; lia. }
  assert ((y + 100) mod 100 ≠ 0) as H2.
  { intros H. apply Z.mod_divide in H as [q Hq]; lia. }
  apply Z.eqb_neq in H1, H2. rewrite H1, H2. cbn [negb orb].
  rewrite !andb_true_r.
  replace ((y + 100) mod 4) with (y mod 4); [done|].
  replace (y + 100) with (y + 25 * 4) by lia. by rewrite Z.mod_add.
Qed.
End WithUnicode.
End DtFacts.

(** ** The level report *)

Module P1Facts.
Import Re ReFacts PyFacts Problem1 Spec.
Local Open Scope Z_scope.
Section WithUnicode.
Context {U : UnicodeDB}.

Lemma xorb_boundary a b : xorb (word_at a) (word_at b) = true ↔ boundary a b.
Proof. unfold boundary. destruct (word_at a), (word_at b); simpl; split; congruence. Qed.

Lemma levels_codes :
  LEVELS = [[73;78;70;79]; [87;65;82;78]; [69;82;82;79;82]; [68;69;66;85;71]]%N.
Proof. reflexivity. Qed.

Lemma level_re_unfold :
  LEVEL_RE = Cat WordB (Cat (Grp 1
    (Alt (lit [73;78;70;79]%N) (Alt (lit [87;65;82;78]%N)
    (Alt (lit [69;82;82;79;82]%N) (lit [68;69;66;85;71]%N))))) WordB).
Proof. reflexivity. Qed.

Lemma exec_token (tok : text) b p s :
  tok ≠ [] →
  exec (lit tok) (Cursor b p s) []
    (λ c' g', exec WordB c'
       (set_group 1 (take (pos c' - p) s) g') (accept p))
  = attempt tok b p s.
Proof.
  intros Hne. rewrite exec_lit. unfold attempt. cbn [rest].
  destruct (Fs.starts_with tok s) eqn:E; [|done].
  apply starts_with_spec in E as [post ->].
  cbn [exec skip before rest pos].
  destruct (last_is_Some tok) as [_ [x Hx]].
  { by destruct tok. }
  rewrite Hx. destruct (xorb _ _); [|done].
  unfold accept, set_group. cbn [pos].
  replace (p + length tok - p)%nat with (length tok) by lia.
  by rewrite take_app_length.
Qed.

Lemma exec_LEVEL_RE b p s :
  exec LEVEL_RE (Cursor b p s) [] (accept p) =
    if xorb (word_at b) (word_at (head s)) then
      match attempt [73;78;70;79]%N b p s with Some m => Some m | None =>
      match attempt [87;65;82;78]%N b p s with Some m => Some m | None =>
      match attempt [69;82;82;79;82]%N b p s with Some m => Some m | None =>
      attempt [68;69;66;85;71]%N b p s end end end
    else None.
Proof.
  rewrite level_re_unfold. cbn [exec before rest pos].
  destruct (xorb _ _); [|done].
  by rewrite !exec_token.
Qed.

Lemma standalone_here tok pre s :
  tok ≠ [] →
  standalone tok (pre ++ s) (length pre) ↔ here tok (last pre) s.
Proof.
  intros Hne. unfold standalone, here. split.
  - intros (pre' & post & Heq & Hlen & B1 & B2).
    apply app_inj_1 in Heq as [<- ->]; [|done].
    exists post. split_and!; [done..|].
    rewrite last_app in B2. destruct (last_is_Some tok) as [_ [x Hx]].
    { by destruct tok. }
    by rewrite Hx in *.
  - intros (post & -> & B1 & B2). exists pre, post. split_and!; [done..|].
    rewrite last_app. destruct (last_is_Some tok) as [_ [x Hx]].
    { by destruct tok. }
    by rewrite Hx in *.
Qed.

Lemma standalone_length tok line i :
  standalone tok line i → (i + length tok ≤ length line)%nat.
Proof.
  intros (pre & post & -> & <- & _). rewrite !length_app. lia.
Qed.

Lemma attempt_Some tok b p s m :
  tok ≠ [] →
  attempt tok b p s = Some m ↔
    (∃ post, s = tok ++ post ∧ boundary (last tok) (head post))
    ∧ m = MObj p (p + length tok) [(1%nat, tok)].
Proof.
  intros Hne. unfold attempt.
  destruct (Fs.starts_with tok s) eqn:E.
  - apply starts_with_spec in E as [post ->].
    rewrite drop_app_length.
    destruct (xorb _ _) eqn:X.
    + apply xorb_boundary in X. split.
      * intros [= <-]. split; [|done]. by exists post.
      * by intros [_ ->].
    + split; [done|]. intros [(post' & Heq & B) _].
      apply app_inv_head in Heq as <-.
      apply xorb_boundary in B. congruence.
  - split; [done|]. intros [(post & -> & _) _].
    assert (Fs.starts_with tok (tok ++ post) = true) by (apply starts_with_spec; eauto).
    congruence.
Qed.

Lemma attempt_None tok b p s :
  tok ≠ [] →
  attempt tok b p s = None ↔
    ¬ ∃ post, s = tok ++ post ∧ boundary (last tok) (head post).
Proof.
  intros Hne. destruct (attempt tok b p s) as [m|] eqn:E.
  - apply attempt_Some in E as [E _]; [|done]. split; [done | tauto].
  - split; [|done]. intros _ Hex.
    assert (attempt tok b p s = Some (MObj p (p + length tok) [(1%nat, tok)])) as E'
      by (apply attempt_Some; auto).
    congruence.
Qed.

Lemma elem_of_LEVELS tok :
  tok ∈ LEVELS ↔
    tok = [73;78;70;79]%N ∨ tok = [87;65;82;78]%N
    ∨ tok = [69;82;82;79;82]%N ∨ tok = [68;69;66;85;71]%N.
Proof.
  rewrite levels_codes, !elem_of_cons, elem_of_nil. tauto.
Qed.

Lemma LEVELS_nonempty tok : tok ∈ LEVELS → tok ≠ [].
Proof. rewrite elem_of_LEVELS. intros [-> | [-> | [-> | ->]]]; done. Qed.

Lemma exec_LEVEL_RE_Some b p s m :
  exec LEVEL_RE (Cursor b p s) [] (accept p) = Some m →
  ∃ tok, tok ∈ LEVELS ∧ here tok b s ∧ m = MObj p (p + length tok) [(1%nat, tok)].
Proof.
  rewrite exec_LEVEL_RE. destruct (xorb _ _) eqn:X; [|done].
  apply xorb_boundary in X.
  repeat match goal with
  | |- match attempt ?t b p s with _ => _ end = _ → _ =>
      destruct (attempt t b p s) eqn:?
  end; intros E; simplify_eq.
  all: match goal with
  | H : attempt ?t _ _ _ = Some _ |- _ =>
      apply attempt_Some in H as [(post & -> & B) ->]; [|done];
      exists t; split; [apply elem_of_LEVELS; tauto|];
      split; [by exists post | done]
  end.
Qed.

Lemma exec_LEVEL_RE_None b p s :
  exec LEVEL_RE (Cursor b p s) [] (accept p) = None →
  ∀ tok, tok ∈ LEVELS → ¬ here tok b s.
Proof.
  rewrite exec_LEVEL_RE. intros E tok Htok (post & -> & B1 & B2).
  apply xorb_boundary in B1. rewrite B1 in E.
  assert (attempt tok b p (tok ++ post) =
          Some (MObj p (p + length tok) [(1%nat, tok)])) as Ha.
  { apply attempt_Some; [by apply LEVELS_nonempty|]. split; [|done]. by exists post. }
  apply elem_of_LEVELS in Htok as [-> | [-> | [-> | ->]]].
  all: repeat match type of E with
       | match attempt ?t ?b ?p ?s with _ => _ end = _ =>
           destruct (attempt t b p s) eqn:?; [discriminate|]
       end.
  all: congruence.
Qed.

Lemma search_from_LEVEL_RE s : ∀ pre,
  match search_from LEVEL_RE (last pre) (length pre) s with
  | Some m =>
      ∃ tok, tok ∈ LEVELS ∧ group 1 m = Some tok
        ∧ (length pre ≤ m_start m)%nat
        ∧ m_end m = (m_start m + length tok)%nat
        ∧ standalone tok (pre ++ s) (m_start m)
        ∧ ∀ j t, (length pre ≤ j < m_start m)%nat → t ∈ LEVELS →
            ¬ standalone t (pre ++ s) j
  | None =>
      ∀ j t, (length pre ≤ j)%nat → t ∈ LEVELS → ¬ standalone t (pre ++ s) j
  end.
Proof.
  induction s as [|x s IH]; intros pre; cbn [search_from].
  - destruct (exec _ _ _ _) as [m|] eqn:E.
    + apply exec_LEVEL_RE_Some in E as (tok & Htok & Hh & ->).
      exists tok. cbn. split_and!; try done.
      * apply standalone_here; [by apply LEVELS_nonempty | done].
      * intros j t ?. lia.
    + intros j t Hj Ht Hs.
      destruct (decide (j = length pre)) as [->|].
      * apply standalone_here in Hs; [|by apply LEVELS_nonempty].
        by eapply exec_LEVEL_RE_None.
      * apply standalone_length in Hs. apply LEVELS_nonempty in Ht.
        rewrite length_app in Hs. simpl in Hs. destruct t; [done|simpl in Hs; lia].
  - destruct (exec _ _ _ _) as [m|] eqn:E.
    + apply exec_LEVEL_RE_Some in E as (tok & Htok & Hh & ->).
      exists tok. cbn. split_and!; try done.
      * apply standalone_here; [by apply LEVELS_nonempty | done].
      * intros j t ?. lia.
    + specialize (IH (pre ++ [x])).
      rewrite last_snoc, length_app, <- app_assoc in IH. cbn in IH.
      replace (length pre + 1)%nat with (S (length pre)) in IH by lia.
      assert (∀ t, t ∈ LEVELS → ¬ standalone t (pre ++ x :: s) (length pre)) as H0.
      { intros t Ht Hs. apply standalone_here in Hs; [|by apply LEVELS_nonempty].
        by eapply exec_LEVEL_RE_None. }
      destruct (search_from _ _ _ _) as [m|].
      * destruct IH as (tok & Htok & Hg & Hle & Hend & Hs & Hmin).
        exists tok. split_and!; try done; [lia|].
        intros j t Hj Ht. destruct (decide (j = length pre)) as [->|]; [by apply H0|].
        apply Hmin; [lia | done].
      * intros j t Hj Ht. destruct (decide (j = length pre)) as [->|]; [by apply H0|].
        apply IH; [lia | done].
Qed.

Lemma search_LEVEL_RE line :
  match search LEVEL_RE line with
  | Some m =>
      ∃ tok, tok ∈ LEVELS ∧ group 1 m = Some tok
        ∧ m_end m = (m_start m + length tok)%nat
        ∧ standalone tok line (m_start m)
        ∧ ∀ j t, (j < m_start m)%nat → t ∈ LEVELS → ¬ standalone t line j
  | None => ∀ j t, t ∈ LEVELS → ¬ standalone t line j
  end.
Proof.
  pose proof (search_from_LEVEL_RE line []) as H.
  change (search_from LEVEL_RE (last []) (length []) line)
    with (search LEVEL_RE line) in H.
  change ([] ++ line) with line in H.
  destruct (search LEVEL_RE line) as [m|].
  - destruct H as (tok & ? & ? & ? & ? & ? & Hmin). exists tok.
    split_and!; try done. intros j t Hj. apply Hmin. simpl. lia.
  - intros j t. apply H. simpl. lia.
Qed.
Context {R : RandomSource}.

Lemma search_level_group line m :
  search LEVEL_RE line = Some m → group1 m ∈ LEVELS.
Proof.
  intros E. pose proof (search_LEVEL_RE line) as H. rewrite E in H.
  destruct H as (tok & Htok & Hg & _). unfold group1. by rewrite Hg.
Qed.

Lemma level_total_incr c lvl :
  lvl ∈ LEVELS → level_total (Py.counter_incr c lvl) = level_total c + 1.
Proof.
  intros H. apply elem_of_LEVELS in H. unfold level_total.
  rewrite levels_codes. cbn [foldr]. rewrite !counter_get_incr.
  destruct H as [-> | [-> | [-> | ->]]];
    repeat (case_decide; [|try done]); try discriminate; lia.
Qed.

Lemma step_total st item :
  Inv1 st →
  ∃ st', step st item = Ok st' ∧ Inv1 st'
    ∧ total_lines st' = total_lines st + 1
    ∧ (sample st', gen st') =
        match search LEVEL_RE item.2 with
        | Some m =>
            algorithm_R_step k (level_lines st + 1) (item.1, item.2, group1 m)
              (sample st, gen st)
        | None => (sample st, gen st)
        end
    ∧ level_lines st' =
        level_lines st + (if search LEVEL_RE item.2 is Some _ then 1 else 0)
    ∧ counts st' =
        match search LEVEL_RE item.2 with
        | Some m => Py.counter_incr (counts st) (group1 m)
        | None => counts st
        end.
Proof.
  intros [Hk Hl Hn Hs]. destruct item as [path line]. unfold step. cbn [fst snd].
  unfold k, Py.len in *.
  destruct (search LEVEL_RE line) as [m|] eqn:E.
  - pose proof (search_level_group _ _ E) as Hlv.
    pose proof (level_total_incr (counts st) _ Hlv) as Hinc.
    unfold algorithm_R_step. cbn [fst snd].
    destruct (Z.ltb_spec (Z.of_nat (length (sample st))) 10) as [Hlt|Hge].
    + destruct (Z.leb_spec (level_lines st + 1) 10); [|lia].
      eexists. split; [done|].
      cbn [sample level_lines counts n_kept total_lines gen].
      split_and!; try done.
      split; cbn [sample level_lines counts n_kept total_lines gen];
        unfold k, Py.len; rewrite ?length_app; cbn [length]; lia.
    + destruct (Z.leb_spec (level_lines st + 1) 10); [lia|].
      rewrite Hk.
      pose proof (randint_range 1 (level_lines st + 1) (gen st) ltac:(lia)) as Hr.
      destruct (randint 1 (level_lines st + 1) (gen st)) as [j g'] eqn:Ej.
      cbn [fst] in Hr.
      destruct (Z.leb_spec j 10).
      * rewrite list_setitem_in_range by (unfold Py.len; lia). cbn [rbind].
        eexists. split; [done|].
        cbn [sample level_lines counts n_kept total_lines gen].
        split_and!; try done.
        split; cbn [sample level_lines counts n_kept total_lines gen];
          unfold k, Py.len; rewrite ?length_insert; lia.
      * eexists. split; [done|].
        cbn [sample level_lines counts n_kept total_lines gen].
        split_and!; try done.
        split; cbn [sample level_lines counts n_kept total_lines gen];
          unfold k, Py.len; lia.
  - eexists. split; [done|].
    cbn [sample level_lines counts n_kept total_lines gen].
    split_and!; try done; try lia.
    split; cbn [sample level_lines counts n_kept total_lines gen];
      unfold k, Py.len; lia.
Qed.

Lemma Inv1_init g : Inv1 (init g).
Proof. split; cbn; unfold k; try done; lia. Qed.

Lemma qualifying_cons item items :
  qualifying (item :: items) =
    match search LEVEL_RE item.2 with
    | Some m => (item.1, item.2, group1 m) :: qualifying items
    | None => qualifying items
    end.
Proof. unfold qualifying. cbn [omap list_omap]. by destruct (search LEVEL_RE item.2). Qed.

Lemma run_items_spec items : ∀ st,
  Inv1 st →
  ∃ st', run st items = Ok st' ∧ Inv1 st'
    ∧ total_lines st' = total_lines st + Py.len items
    ∧ (sample st', gen st') =
        algorithm_R k (level_lines st) (qualifying items) (sample st, gen st)
    ∧ level_lines st' = level_lines st + Py.len (qualifying items)
    ∧ ∀ lvl, Py.counter_get (counts st') lvl =
        Py.counter_get (counts st) lvl + with_level lvl (qualifying items).
Proof.
  induction items as [|item items IH]; intros st HI; cbn [run].
  - exists st. unfold Py.len, with_level, Py.len. cbn.
    split_and!; try done; intros; lia.
  - destruct (step_total st item HI) as (st1 & -> & HI1 & Ht & Hs & Hl & Hc).
    cbn [rbind].
    destruct (IH st1 HI1) as (st' & -> & HI' & Ht' & Hs' & Hl' & Hc').
    exists st'. split; [done|]. split; [done|].
    rewrite qualifying_cons. revert Hs Hl Hc.
    destruct (search LEVEL_RE item.2) as [m|]; intros Hs Hl Hc.
    + unfold with_level, Py.len in *. cbn [length].
      split_and!; try lia.
      * rewrite Hs'. cbn [algorithm_R]. by rewrite Hs, Hl.
      * intros lvl. rewrite Hc', Hc, counter_get_incr.
        rewrite filter_cons. cbn [snd].
        repeat case_decide; simplify_eq; cbn [length]; try lia; done.
    + rewrite Z.add_0_r in Hl.
      unfold with_level, Py.len in *. cbn [length].
      split_and!; try lia.
      * rewrite Hs'. by rewrite Hs, Hl.
      * intros lvl. by rewrite Hc', Hc.
Qed.

Lemma run_app items1 items2 st :
  run st (items1 ++ items2) = (st' ←! run st items1; run st' items2).
Proof.
  revert st. induction items1 as [|item items1 IH]; intros st; cbn [run app rbind].
  - done.
  - destruct (step st item) as [st1|e]; cbn [rbind]; [apply IH | done].
Qed.

(** The stand-alone sampler, for any capacity. *)
Lemma reservoir_loop_spec kk (predicate : text → bool) items : ∀ smp n g,
  0 ≤ n → Py.len smp = Z.max 0 (Z.min kk n) →
  reservoir_loop kk predicate items smp n g =
    Ok (algorithm_R kk n
          (filter (fun item : Fs.path * text => predicate item.2 = true) items)
          (smp, g)).
Proof.
  induction items as [|[path line] items IH]; intros smp n g Hn Hlen;
    cbn [reservoir_loop]; [done|].
  rewrite filter_cons. cbn [snd].
  destruct (predicate line) eqn:Ep; cbn [negb].
  - case_decide; [|done]. cbn [algorithm_R]. unfold algorithm_R_step. cbn [fst snd].
    unfold Py.len in *.
    destruct (Z.ltb_spec (Z.of_nat (length smp)) kk).
    + destruct (Z.leb_spec (n + 1) kk); [|lia].
      apply IH; [lia|]. unfold Py.len. rewrite length_app. cbn [length]. lia.
    + destruct (Z.leb_spec (n + 1) kk); [lia|].
      pose proof (randint_range 1 (n + 1) g ltac:(lia)) as Hr.
      destruct (randint 1 (n + 1) g) as [j g'] eqn:Ej. cbn [fst] in Hr.
      destruct (Z.leb_spec j kk).
      * rewrite list_setitem_in_range by (unfold Py.len; lia). cbn [rbind].
        apply IH; [lia|]. unfold Py.len. rewrite length_insert. lia.
      * apply IH; [lia|]. unfold Py.len. lia.
  - case_decide; [done|]. by apply IH.
Qed.

(** The pass never raises by itself, and a failure of the walker aborts
    the run. *)
Lemma aggregate_total g items : ∃ st, aggregate g items = Ok st.
Proof.
  destruct (run_items_spec items (init g) (Inv1_init g)) as (st & Hrun & _).
  by exists st.
Qed.

Lemma main_aborts g t t' items e :
  Fs.ensure_extracted t = Ok t' →
  iter_log_lines t' = (items, Some e) →
  main g t = Raise e.
Proof.
  intros He Hw. unfold main. rewrite He. cbn [rbind]. rewrite Hw.
  destruct (aggregate_total g items) as [st ->]. done.
Qed.

End WithUnicode.
End P1Facts.

(** ** The walk over the log files *)

Module WalkFacts.
Import Problem1 Spec.
Local Open Scope Z_scope.

Lemma walk_files_spec dir fs :
  walk_files dir fs = walk_until_failure (List.map (pair dir) fs).
Proof.
  induction fs as [|f fs IH]; cbn [walk_files List.map walk_until_failure]; [done|].
  destruct (Fs.f_fail f); [done|]. rewrite IH.
  by destruct (walk_until_failure _).
Qed.

Lemma walk_until_failure_app fs1 fs2 :
  walk_until_failure (fs1 ++ fs2) =
    match walk_until_failure fs1 with
    | (here, Some e) => (here, Some e)
    | (here, None) =>
        (here ++ (walk_until_failure fs2).1, (walk_until_failure fs2).2)
    end.
Proof.
  induction fs1 as [|[dir f] fs1 IH]; cbn [app walk_until_failure].
  - by destruct (walk_until_failure fs2).
  - destruct (Fs.f_fail f); [done|]. rewrite IH.
    destruct (walk_until_failure fs1) as [here [e|]]; cbn [fst snd]; [done|].
    by rewrite app_assoc.
Qed.

Lemma walk_dirs_spec es :
  walk_dirs es =
    walk_until_failure
      (concat (List.map (fun e => List.map (pair (Fs.e_name e)) (Fs.glob_logs e))
                 (filter (fun e => Fs.e_is_dir e = true) es))).
Proof.
  induction es as [|e es IH]; cbn [walk_dirs]; [done|].
  rewrite filter_cons. destruct (Fs.e_is_dir e) eqn:Ed.
  - rewrite decide_True by done. cbn [List.map concat].
    rewrite walk_until_failure_app, <- walk_files_spec.
    destruct (walk_files _ _) as [here [x|]]; [done|].
    rewrite IH. by destruct (walk_until_failure _).
  - rewrite decide_False by done. apply IH.
Qed.

Lemma iter_log_lines_spec t :
  iter_log_lines t = walk_until_failure (matched_logs t).
Proof. apply walk_dirs_spec. Qed.

(** Nothing of a file after the first failing one is yielded. *)
Lemma walk_until_failure_stops fs1 dir f e fs2 :
  all_readable fs1 →
  Fs.f_fail f = Some e →
  walk_until_failure (fs1 ++ (dir, f) :: fs2) =
    (concat (List.map (fun df : text * Fs.file => yielded df.1 df.2) fs1)
       ++ yielded dir f, Some e).
Proof.
  intros Hok Hf. induction Hok as [|[d0 f0] fs1 H0 Hok IH];
    cbn [app walk_until_failure List.map concat].
  - by rewrite Hf.
  - cbn [snd] in H0. rewrite H0, IH. cbn [fst snd]. by rewrite app_assoc.
Qed.

Lemma walk_until_failure_all fs :
  all_readable fs →
  walk_until_failure fs =
    (concat (List.map (fun df : text * Fs.file => yielded df.1 df.2) fs), None).
Proof.
  intros Hok. induction Hok as [|[d0 f0] fs H0 Hok IH];
    cbn [walk_until_failure List.map concat]; [done|].
  cbn [snd] in H0. by rewrite H0, IH.
Qed.

Lemma ensure_extracted_fatal t :
  Fs.ensure_extracted t = Raise Fs.archive_missing
  ↔ Fs.glob_applications t = [] ∧ Fs.archive t = None.
Proof.
  unfold Fs.ensure_extracted.
  destruct (Fs.glob_applications t); destruct (Fs.archive t); split;
    try done; intros [? ?]; done.
Qed.

Lemma ensure_extracted_only_fatal t e :
  Fs.ensure_extracted t = Raise e → e = Fs.archive_missing.
Proof.
  unfold Fs.ensure_extracted.
  destruct (Fs.glob_applications t); [|done]. destruct (Fs.archive t); [done|].
  by intros [= <-].
Qed.
End WalkFacts.

(** ** The percentage formatter *)

Module PctFacts.
Import Problem1.
Local Open Scope Z_scope.
Section WithFloat.
Context {F : FloatOps}.

Lemma pct_zero x : pct x 0 = Ok (str "0.00%").
Proof. reflexivity. Qed.

Lemma pct_unfold x d :
  pct x d =
    if d =? 0 then Ok (str "0.00%")
    else match int_truediv x d with
         | Some q => Ok (format_2f (float_mul q (float_of_int 100)) ++ str "%")
         | None => Raise OverflowError
         end.
Proof.
  unfold pct, truediv. destruct (d =? 0); [done|].
  by destruct (int_truediv x d).
Qed.

Lemma pct_no_zero_division x d : pct x d ≠ Raise ZeroDivisionError.
Proof.
  rewrite pct_unfold. destruct (d =? 0); [done|]. by destruct (int_truediv x d).
Qed.

(** A count out of a total that is at least as large has a percentage. *)
Lemma pct_of_count x d : 0 ≤ x ≤ d → ∃ p, pct x d = Ok p.
Proof.
  intros Hx. rewrite pct_unfold. destruct (Z.eqb_spec d 0); [by eexists|].
  destruct (int_truediv_fraction x d) as [q ->]; [done | lia | by eexists].
Qed.

Lemma distribution_lines_defined {R : RandomSource} (st : state) lvls :
  (∀ lvl, 0 ≤ Py.counter_get (counts st) lvl ≤ level_lines st) →
  ∃ lines, distribution_lines st lvls = Ok lines.
Proof.
  intros Hc. induction lvls as [|lvl lvls [lines IH]]; cbn [distribution_lines];
    [by eexists|].
  unfold distribution_line.
  destruct (pct_of_count _ _ (Hc lvl)) as [p ->]. cbn [rbind].
  rewrite IH. cbn [rbind]. by eexists.
Qed.
End WithFloat.
End PctFacts.

(** ** The time-range report *)

Module P2Parse.
Import Re ReFacts Datetime DtFacts Problem2 Spec.
Local Open Scope Z_scope.
Section WithUnicode.
Context {U : UnicodeDB}.

Lemma digits_bound v1 v2 :
  (v1 < 10)%N → (v2 < 10)%N → 0 ≤ 10 * Z.of_N v1 + Z.of_N v2 ≤ 99.
Proof. lia. Qed.

Lemma parse_ts_year ts dt :
  parse_ts ts = Ok dt →
  ∃ d1 d2 rest v1 v2, ts = d1 :: d2 :: rest
    ∧ Char.decimal_value d1 = Some v1 ∧ Char.decimal_value d2 = Some v2
    ∧ year dt = 2000 + (10 * Z.of_N v1 + Z.of_N v2)
    ∧ 2000 ≤ year dt < 2100.
Proof.
  unfold parse_ts. destruct (strptime ts) as [dt0|] eqn:E; [|done].
  cbn [rbind].
  apply strptime_year in E
    as (d1 & d2 & rest & v1 & v2 & -> & H1 & H2 & m & d & H & M & S & Hm).
  pose proof (digits_bound _ _ (decimal_value_lt _ _ H1) (decimal_value_lt _ _ H2))
    as Hy.
  apply make_inv in Hm as (-> & _). cbn [year month day hour minute second].
  unfold pivot in *.
  intros Hp.
  assert (year dt = 2000 + (10 * Z.of_N v1 + Z.of_N v2)) as Hyear.
  { destruct (Z.leb_spec (10 * Z.of_N v1 + Z.of_N v2) 68).
    - destruct (Z.ltb_spec (10 * Z.of_N v1 + Z.of_N v2 + 2000) 2000); [lia|].
      injection Hp as <-. cbn. lia.
    - destruct (Z.ltb_spec (10 * Z.of_N v1 + Z.of_N v2 + 1900) 2000); [|lia].
      unfold replace_year in Hp. apply make_inv in Hp as (-> & _). cbn. lia. }
  exists d1, d2, rest, v1, v2. split_and!; try done; lia.
Qed.

Lemma replace_year_century y m d H M S dt0 :
  make y m d H M S = Ok dt0 → 1969 ≤ y ≤ 1999 →
  replace_year dt0 (y + 100) = Ok (DT (y + 100) m d H M S).
Proof.
  intros Hm Hy. apply make_inv in Hm as (-> & Hr1 & Hr2 & Hr3 & Hr4 & Hr5 & Hr6).
  unfold replace_year. cbn [year month day hour minute second].
  apply make_complete; try done.
  - unfold in_range. apply andb_true_iff; split; apply Z.leb_le; lia.
  - unfold days_in_month in *. by rewrite is_leap_next_century.
Qed.

Lemma pivot_range y :
  0 ≤ y ≤ 99 → 1969 ≤ pivot y ≤ 2068.
Proof. unfold pivot. destruct (Z.leb_spec y 68); lia. Qed.

(** The century correction never fails: [parse_ts] returns a datetime
    exactly when [strptime] does. *)
Lemma parse_ts_defined ts :
  (∃ dt, parse_ts ts = Ok dt) ↔ (∃ dt0, strptime ts = Ok dt0).
Proof.
  unfold parse_ts. split.
  - intros [dt H]. destruct (strptime ts) as [dt0|]; [by exists dt0 | done].
  - intros [dt0 E]. rewrite E. cbn [rbind].
    apply strptime_year in E
      as (d1 & d2 & rest & v1 & v2 & _ & H1 & H2 & m & d & H & M & S & Hm).
    pose proof (pivot_range _
      (digits_bound _ _ (decimal_value_lt _ _ H1) (decimal_value_lt _ _ H2))) as Hy.
    revert Hm Hy. generalize (pivot (10 * Z.of_N v1 + Z.of_N v2)). intros y Hm Hy.
    pose proof (make_inv _ _ _ _ _ _ _ Hm) as (Hdt & _).
    assert (year dt0 = y) as -> by (by rewrite Hdt).
    destruct (Z.ltb_spec y 2000) as [Hlt|Hge]; [|by eexists].
    eexists. eapply replace_year_century; [done | lia].
Qed.

Lemma all_years_check :
  forallb year_checks (List.map Z.of_nat (seq 0 100)) = true.
Proof. by vm_compute. Qed.

(** Every two-digit year has a timestamp that the pattern matches and the
    parser maps to that year of the 2000s. *)
Lemma two_digit_years_covered yy :
  0 ≤ yy ≤ 99 →
  ∃ ts m dt, match_ Problem2.TS_RE ts = Some m ∧ group 1 m = Some ts
    ∧ Problem2.parse_ts ts = Ok dt ∧ Datetime.year dt = 2000 + yy.
Proof.
  intros Hy. pose proof all_years_check as H.
  rewrite forallb_forall in H. specialize (H yy).
  assert (In yy (List.map Z.of_nat (seq 0 100))) as Hin.
  { apply in_map_iff. exists (Z.to_nat yy). split; [lia|]. apply in_seq. lia. }
  apply H in Hin. unfold year_checks in Hin.
  destruct (match_ _ _) as [m|] eqn:Em; [|done].
  destruct (Problem2.parse_ts _) as [dt|] eqn:Ep; [|done].
  apply andb_true_iff in Hin as [H1 H2].
  apply bool_decide_eq_true in H1. apply Z.eqb_eq in H2.
  by exists (new_year yy), m, dt.
Qed.
End WithUnicode.
End P2Parse.

Module AppDirFacts.
Import Re Spec ReFacts Problem2.
Section WithUnicode.
Context {U : UnicodeDB}.

Lemma skip_cons y w b p s :
  skip (y :: w) (Cursor b p (y :: s)) = skip w (Cursor (Some y) (S p) s).
Proof.
  change (y :: w) with ([y] ++ w). by rewrite skip_app, skip_one.
Qed.

Lemma rep_inv {A} cs s : ∀ lo hi b p g (k : cursor → groups → option A) x,
  rep cs lo hi b p s g k = Some x →
  ∃ w s', s = w ++ s' ∧ Forall (fun c => in_cset cs c = true) w
    ∧ (lo ≤ length w)%nat
    ∧ (∀ h, hi = Some h → (length w ≤ h)%nat)
    ∧ k (skip w (Cursor b p s)) g = Some x.
Proof.
  induction s as [|y s IH]; intros lo hi b p g k x; cbn [rep].
  - destruct lo; [|done]. intros H. exists [], []. rewrite skip_nil.
    split_and!; try done. intros h _. cbn. lia.
  - assert (match lo with O => k (Cursor b p (y :: s)) g | S _ => None end = Some x →
            ∃ w s', y :: s = w ++ s' ∧ Forall (fun c => in_cset cs c = true) w
              ∧ (lo ≤ length w)%nat
              ∧ (∀ h, hi = Some h → (length w ≤ h)%nat)
              ∧ k (skip w (Cursor b p (y :: s))) g = Some x) as Hstop.
    { destruct lo; [|done]. intros H. exists [], (y :: s). rewrite skip_nil.
      split_and!; try done. intros h _. cbn. lia. }
    destruct (in_cset cs y) eqn:Ey; cbn [andb]; [|done].
    destruct (hi_allows hi) eqn:Eh; [|done].
    destruct (rep cs (Nat.pred lo) (hi_pred hi) (Some y) (S p) s g k) as [x'|] eqn:E;
      [|done].
    intros [= ->]. apply IH in E as (w & s' & -> & Hw & Hlo & Hhi & Hk).
    exists (y :: w), s'. split_and!.
    + done.
    + by constructor.
    + cbn. lia.
    + intros h ->. cbn in *. destruct h; [done|].
      specialize (Hhi h eq_refl). lia.
    + by rewrite skip_cons.
Qed.

Lemma rep_exact {A} cs w : ∀ s' b p g (k : cursor → groups → option A),
  Forall (fun c => in_cset cs c = true) w →
  rep cs (length w) (Some (length w)) b p (w ++ s') g k =
    k (skip w (Cursor b p (w ++ s'))) g.
Proof.
  induction w as [|y w IH]; intros s' b p g k Hw.
  - rewrite skip_nil. cbn [app length]. destruct s' as [|z s']; cbn [rep]; [done|].
    by rewrite andb_false_r.
  - apply Forall_cons in Hw as [Hy Hw]. cbn [app length rep]. rewrite Hy. cbn.
    rewrite IH by done. rewrite skip_cons.
    by destruct (k _ g).
Qed.

Lemma rep_longest {A} cs w : ∀ lo s' b p g (k : cursor → groups → option A) x,
  Forall (fun c => in_cset cs c = true) w →
  (lo ≤ length w)%nat →
  match s' with [] => True | z :: _ => in_cset cs z = false end →
  k (skip w (Cursor b p (w ++ s'))) g = Some x →
  rep cs lo None b p (w ++ s') g k = Some x.
Proof.
  induction w as [|y w IH]; intros lo s' b p g k x Hw Hlo Hs' Hk.
  - rewrite skip_nil in Hk. cbn [app length] in *. assert (lo = 0)%nat as -> by lia.
    destruct s' as [|z s']; cbn [rep]; [done|]. by rewrite Hs'.
  - apply Forall_cons in Hw as [Hy Hw]. cbn [app rep]. rewrite Hy. cbn.
    cbn [app] in Hk. rewrite skip_cons in Hk.
    erewrite IH; [done | done | cbn in Hlo; lia | done | done].
Qed.

Lemma search_from_inv r s : ∀ b p m,
  search_from r b p s = Some m →
  ∃ pre s', s = pre ++ s'
    ∧ exec r (skip pre (Cursor b p s)) [] (accept (p + length pre)) = Some m.
Proof.
  induction s as [|y s IH]; intros b p m; cbn [search_from].
  - destruct (exec _ _ _ _) as [m'|] eqn:E; [|done]. intros [= ->].
    exists [], []. rewrite skip_nil, Nat.add_0_r. done.
  - destruct (exec _ _ _ _) as [m'|] eqn:E.
    + intros [= ->]. exists [], (y :: s). rewrite skip_nil, Nat.add_0_r. done.
    + intros H. apply IH in H as (pre & s' & -> & H).
      exists (y :: pre), s'. split; [done|].
      cbn [app length]. rewrite skip_cons. by rewrite <- Nat.add_succ_comm.
Qed.

Lemma search_from_complete r pre : ∀ s' b p m,
  exec r (skip pre (Cursor b p (pre ++ s'))) [] (accept (p + length pre)) = Some m →
  ∃ m', search_from r b p (pre ++ s') = Some m'.
Proof.
  induction pre as [|y pre IH]; intros s' b p m.
  - rewrite skip_nil, Nat.add_0_r. cbn [app]. intros H.
    exists m. destruct s'; cbn [search_from]; by rewrite H.
  - cbn [length app search_from]. rewrite skip_cons, <- Nat.add_succ_comm.
    intros H. destruct (exec r (Cursor b p _) [] (accept p)) as [m'|]; [by eexists|].
    by eapply IH.
Qed.

Lemma app_dir_re_unfold :
  APP_DIR_RE =
    Cat (lit (str "application_"))
      (Cat (Grp 1 (Rep Digit 13 (Some 13%nat)))
        (Cat (Chr 95%N) (Cat (Grp 2 (Rep Digit 1 None)) Eos))).
Proof. reflexivity. Qed.

Lemma pos_skip w c : pos (skip w c) = (pos c + length w)%nat.
Proof. done. Qed.

Lemma take_skip w c s' :
  rest c = w ++ s' → take (pos (skip w c) - pos c) (rest c) = w.
Proof.
  intros ->. rewrite pos_skip.
  replace (pos c + length w - pos c)%nat with (length w) by lia.
  by rewrite take_app_length.
Qed.

Lemma exec_Eos {A} c g (k : cursor → groups → option A) :
  exec Eos c g k = if decide (rest c = [] ∨ rest c = [10%N]) then k c g else None.
Proof.
  cbn [exec]. destruct (rest c) as [|y [|z s]].
  - by rewrite decide_True by (by left).
  - destruct (decide (y = 10%N)) as [->|Hne].
    + by rewrite decide_True by (by right).
    + rewrite decide_False by (intros [?|[=]]; done).
      revert Hne. by repeat case_match.
  - rewrite decide_False by (intros [?|?]; done).
    by repeat case_match.
Qed.

Lemma exec_Cat {A} r1 r2 c g (k : cursor → groups → option A) :
  exec (Cat r1 r2) c g k = exec r1 c g (fun c' g' => exec r2 c' g' k).
Proof. done. Qed.

Lemma exec_Grp {A} i r c g (k : cursor → groups → option A) :
  exec (Grp i r) c g k =
    exec r c g (fun c' g' => k c' (set_group i (take (pos c' - pos c) (rest c)) g')).
Proof. done. Qed.

Lemma exec_Rep {A} cs lo hi c g (k : cursor → groups → option A) :
  exec (Rep cs lo hi) c g k = rep cs lo hi (before c) (pos c) (rest c) g k.
Proof. done. Qed.

Lemma exec_Chr {A} x c g (k : cursor → groups → option A) :
  exec (Chr x) c g k =
    match rest c with
    | y :: s' => if (x =? y)%N then k (Cursor (Some y) (S (pos c)) s') g else None
    | [] => None
    end.
Proof. done. Qed.

Lemma rep_inv_cursor {A} cs lo hi c g (k : cursor → groups → option A) x :
  rep cs lo hi (before c) (pos c) (rest c) g k = Some x →
  ∃ w s', rest c = w ++ s' ∧ Forall (fun c => in_cset cs c = true) w
    ∧ (lo ≤ length w)%nat
    ∧ (∀ h, hi = Some h → (length w ≤ h)%nat)
    ∧ k (skip w c) g = Some x.
Proof. destruct c as [b p s]. apply rep_inv. Qed.

Lemma exec_APP_DIR_RE_inv b p s m :
  exec APP_DIR_RE (Cursor b p s) [] (accept p) = Some m →
  ∃ d13 dn tail, app_shape s d13 dn tail ∧ (tail = [] ∨ tail = [10%N])
    ∧ group 1 m = Some d13 ∧ group 2 m = Some dn.
Proof.
  rewrite app_dir_re_unfold, exec_Cat, exec_lit. cbn [rest].
  destruct (Fs.starts_with _ s) eqn:Ea; [|done].
  apply starts_with_spec in Ea as [s1 ->].
  remember (skip (str "application_") _) as c1 eqn:Hc1.
  assert (rest c1 = s1) as Hr1 by (subst c1; by apply rest_skip).
  clear Hc1. rewrite exec_Cat, exec_Grp, exec_Rep.
  intros H. apply rep_inv_cursor in H as (w1 & s2 & Hs1 & Hw1 & Hlo1 & Hhi1 & H).
  specialize (Hhi1 _ eq_refl).
  rewrite (take_skip w1 c1 s2 Hs1) in H.
  remember (skip w1 c1) as c2 eqn:Hc2.
  assert (rest c2 = s2) as Hr2 by (subst c2; by apply rest_skip).
  clear Hc2. rewrite exec_Cat, exec_Chr, Hr2 in H.
  destruct s2 as [|y s3]; [done|].
  destruct (N.eqb_spec 95 y) as [<-|]; [|done].
  rewrite exec_Cat, exec_Grp, exec_Rep in H.
  apply rep_inv_cursor in H as (w2 & s4 & Hs3 & Hw2 & Hlo2 & _ & H).
  rewrite (take_skip w2 _ s4 Hs3) in H.
  rewrite exec_Eos, (rest_skip w2 _ s4 Hs3) in H.
  case_decide as Htail; [|done].
  unfold accept in H. injection H as <-.
  cbn [rest] in Hs3. subst s3. rewrite <- Hr1, Hs1.
  exists w1, w2, s4. split_and!; try done.
  split_and!; try done; [lia|]. intros ->. cbn in Hlo2. lia.
Qed.

Lemma rep_exact_cursor {A} cs w s' c g (k : cursor → groups → option A) :
  rest c = w ++ s' → Forall (fun c => in_cset cs c = true) w →
  rep cs (length w) (Some (length w)) (before c) (pos c) (rest c) g k = k (skip w c) g.
Proof.
  destruct c as [b p s]. cbn [before pos rest]. intros -> Hw. by apply rep_exact.
Qed.

Lemma rep_longest_cursor {A} cs w lo s' c g (k : cursor → groups → option A) x :
  rest c = w ++ s' → Forall (fun c => in_cset cs c = true) w →
  (lo ≤ length w)%nat →
  match s' with [] => True | z :: _ => in_cset cs z = false end →
  k (skip w c) g = Some x →
  rep cs lo None (before c) (pos c) (rest c) g k = Some x.
Proof.
  destruct c as [b p s]. cbn [before pos rest]. intros -> Hw Hlo Hs' Hk.
  by apply rep_longest.
Qed.

Lemma line_feed_not_digit : Char.is_digit 10%N = false.
Proof. done. Qed.

Lemma exec_APP_DIR_RE_complete b p s d13 dn tail :
  app_shape s d13 dn tail → (tail = [] ∨ tail = [10%N]) →
  ∃ m, exec APP_DIR_RE (Cursor b p s) [] (accept p) = Some m.
Proof.
  intros (-> & Hlen & Hd13 & Hne & Hdn) Htail.
  rewrite app_dir_re_unfold, exec_Cat, exec_lit. cbn [rest].
  assert (Fs.starts_with (str "application_")
            (str "application_" ++ d13 ++ [95%N] ++ dn ++ tail) = true) as ->.
  { apply starts_with_spec. by eexists. }
  remember (skip (str "application_") _) as c1 eqn:Hc1.
  assert (rest c1 = d13 ++ [95%N] ++ dn ++ tail) as Hr1
    by (subst c1; by apply rest_skip).
  clear Hc1. rewrite exec_Cat, exec_Grp, exec_Rep.
  replace 13%nat with (length d13).
  rewrite (rep_exact_cursor _ d13 _ c1 _ _ Hr1) by done.
  remember (skip d13 c1) as c2 eqn:Hc2.
  assert (rest c2 = [95%N] ++ dn ++ tail) as Hr2 by (subst c2; by apply rest_skip).
  clear Hc2. rewrite exec_Cat, exec_Chr, Hr2. cbn [app]. rewrite N.eqb_refl.
  rewrite exec_Cat, exec_Grp, exec_Rep.
  eexists. eapply (rep_longest_cursor _ dn _ tail); [done | done | | |].
  - destruct dn; [done | cbn; lia].
  - destruct Htail as [->| ->]; [done | apply line_feed_not_digit].
  - rewrite exec_Eos. rewrite (rest_skip dn _ tail) by done.
    rewrite decide_True by done. done.
Qed.

(** The pattern finds a match exactly in the accepted names, and what it
    captures are the two components of such a name. *)
Lemma search_APP_DIR_RE_Some name m :
  search APP_DIR_RE name = Some m →
  ∃ pre d13 dn tail,
    name = pre ++ str "application_" ++ d13 ++ [95%N] ++ dn ++ tail
    ∧ length d13 = 13%nat ∧ Forall (fun c => Char.is_digit c = true) d13
    ∧ dn ≠ [] ∧ Forall (fun c => Char.is_digit c = true) dn
    ∧ (tail = [] ∨ tail = [10%N])
    ∧ group 1 m = Some d13 ∧ group 2 m = Some dn.
Proof.
  unfold search. intros H.
  apply search_from_inv in H as (pre & s' & -> & H).
  remember (skip pre _) as c eqn:Hc.
  assert (rest c = s') as Hr by (subst c; by apply rest_skip).
  assert (pos c = (0 + length pre)%nat) as Hp by (by subst c).
  destruct c as [b p s]. cbn [rest pos] in Hr, Hp. subst s. rewrite <- Hp in H.
  apply exec_APP_DIR_RE_inv in H
    as (d13 & dn & tail & (-> & ? & ? & ? & ?) & ? & ? & ?).
  exists pre, d13, dn, tail. split_and!; done.
Qed.

Lemma search_APP_DIR_RE_accepted name :
  accepted name ↔ ∃ m, search APP_DIR_RE name = Some m.
Proof.
  split.
  - intros (pre & d13 & dn & tail & -> & Hlen & Hd & Hne & Hdn & Htail).
    unfold search.
    remember (skip pre (Cursor None 0
                (pre ++ str "application_" ++ d13 ++ [95%N] ++ dn ++ tail))) as c eqn:Hc.
    assert (rest c = str "application_" ++ d13 ++ [95%N] ++ dn ++ tail) as Hr
      by (subst c; by apply rest_skip).
    assert (pos c = (0 + length pre)%nat) as Hp by (by subst c).
    destruct (exec_APP_DIR_RE_complete (before c) (pos c) (rest c) d13 dn tail)
      as [m Hm]; [by rewrite Hr | done |].
    eapply (search_from_complete _ pre _ None 0%nat m).
    rewrite <- Hc, <- Hp. by destruct c.
  - intros [m H]. apply search_APP_DIR_RE_Some in H
      as (pre & d13 & dn & tail & ? & ? & ? & ? & ? & ? & _).
    by exists pre, d13, dn, tail.
Qed.
Lemma accepted_iff name :
  accepted name ↔
    ends_in_identifier name
    ∨ (∃ name', name = name' ++ [10%N] ∧ ends_in_identifier name').
Proof.
  split.
  - intros (pre & d13 & dn & tail & -> & ? & ? & ? & ? & [->| ->]).
    + left. exists pre, d13, dn. by rewrite app_nil_r.
    + right. exists (pre ++ str "application_" ++ d13 ++ [95%N] ++ dn). split.
      * by rewrite <- !app_assoc.
      * by exists pre, d13, dn.
  - intros [(pre & d13 & dn & -> & ? & ? & ? & ?)
           | (name' & -> & pre & d13 & dn & -> & ? & ? & ? & ?)].
    + exists pre, d13, dn, []. rewrite app_nil_r. split_and!; try done. by left.
    + exists pre, d13, dn, [10%N]. rewrite <- !app_assoc. split_and!; try done. by right.
Qed.

Lemma ends_in_identifier_last name :
  ends_in_identifier name → ∃ c, last name = Some c ∧ Char.is_digit c = true.
Proof.
  intros (pre & d13 & dn & -> & _ & _ & Hne & Hdn).
  rewrite !app_assoc, last_app.
  destruct (last_is_Some dn) as [_ [c Hc]]; [exact Hne|].
  rewrite Hc. exists c. split; [done|].
  apply last_Some in Hc as [dn' ->]. apply Forall_app in Hdn as [_ Hc].
  by inversion Hc.
Qed.

Lemma scan_app_times_rejects d :
  ¬ accepted (Fs.e_name d) → scan_app_times d = Raise (invalid_name (Fs.e_name d)).
Proof.
  intros Hn. unfold scan_app_times.
  destruct (search APP_DIR_RE (Fs.e_name d)) as [m|] eqn:E; [|done].
  destruct Hn. apply search_APP_DIR_RE_accepted. by exists m.
Qed.

Lemma scan_app_times_accepts d :
  accepted (Fs.e_name d) →
  ∃ pre d13 dn tail,
    Fs.e_name d = pre ++ str "application_" ++ d13 ++ [95%N] ++ dn ++ tail
    ∧ length d13 = 13%nat ∧ Forall (fun c => Char.is_digit c = true) d13
    ∧ dn ≠ [] ∧ Forall (fun c => Char.is_digit c = true) dn
    ∧ (tail = [] ∨ tail = [10%N])
    ∧ scan_app_times d =
        (r ←! scan_files (None, None) (Fs.glob_logs d);
         Ok (d13, str "application_" ++ d13 ++ str "_" ++ dn, dn, r.1, r.2)).
Proof.
  intros Ha. apply search_APP_DIR_RE_accepted in Ha as [m Hm].
  unfold scan_app_times. rewrite Hm.
  apply search_APP_DIR_RE_Some in Hm
    as (pre & d13 & dn & tail & ? & ? & ? & ? & ? & ? & -> & ->).
  exists pre, d13, dn, tail. split_and!; done.
Qed.
End WithUnicode.
End AppDirFacts.

Module P2Facts.
Import Re Datetime DtOrder PyFacts Problem2 Spec.
Local Open Scope Z_scope.
Section WithUnicode.
Context {U : UnicodeDB}.

Lemma scan_line_ok r line r' :
  range_ok r → scan_line r line = Ok r' → range_ok r'.
Proof.
  unfold scan_line. destruct (match_ TS_RE line) as [mt|]; [|by intros ? [= <-]].
  destruct (parse_ts _) as [dt|]; [|done]. cbn [rbind].
  destruct r as [[s|] [e|]]; cbn [fst snd range_ok]; try done.
  - intros Hse [= <-]. cbn [range_ok].
    destruct (lt dt s) eqn:E1, (gt dt e) eqn:E2.
    + apply le_refl.
    + by apply gt_false_le.
    + by apply lt_false_le.
    + done.
  - intros _ [= <-]. apply le_refl.
Qed.

Lemma scan_lines_ok lines : ∀ r r',
  range_ok r → scan_lines r lines = Ok r' → range_ok r'.
Proof.
  induction lines as [|l ls IH]; intros r r' Hr; cbn [scan_lines].
  - by intros [= <-].
  - destruct (scan_line r l) as [r1|] eqn:E; [|done]. cbn [rbind].
    apply IH. by eapply scan_line_ok.
Qed.

Lemma scan_files_ok fs : ∀ r r',
  range_ok r → scan_files r fs = Ok r' → range_ok r'.
Proof.
  induction fs as [|f fs IH]; intros r r' Hr; cbn [scan_files].
  - by intros [= <-].
  - destruct (scan_lines r (Fs.f_lines f)) as [r1|] eqn:E; [|done]. cbn [rbind].
    destruct (Fs.f_fail f); [done|]. apply IH. by eapply scan_lines_ok.
Qed.

Lemma scan_app_times_ok d cid aid num s e :
  scan_app_times d = Ok (cid, aid, num, s, e) → range_ok (s, e).
Proof.
  unfold scan_app_times. destruct (search APP_DIR_RE _); [|done].
  destruct (scan_files _ _) as [r|] eqn:E; [|done]. cbn [rbind].
  intros [= <- <- <- <- <-]. apply (scan_files_ok _ (None, None) _ I) in E.
  by destruct r.
Qed.

Lemma Inv2_init : Inv2 init.
Proof.
  intros cid. right. unfold init; cbn.
  split; [apply not_elem_of_nil|]. by rewrite !lookup_empty.
Qed.

Lemma step_spec st d st' :
  Inv2 st → step st d = Ok st' →
  Inv2 st'
  ∧ (timeline_rows st' = timeline_rows st
     ∨ (∃ row, timeline_rows st' = timeline_rows st ++ [row] ∧ row_from row d)).
Proof.
  intros HI. unfold step.
  destruct (scan_app_times d) as [[[[[cid aid] num] s] e]|] eqn:E; [|done].
  cbn [rbind]. pose proof (scan_app_times_ok _ _ _ _ _ _ E) as Hr.
  destruct s as [s|], e as [e|]; cbn [range_ok] in Hr; try done;
    [|intros [= <-]; split; [done | by left]].
  intros [= <-]. cbn [timeline_rows cluster_counts cluster_first cluster_last].
  split; [|right; eexists; split; [done|]; by exists s, e].
  intros x. cbn [timeline_rows cluster_counts cluster_first cluster_last].
  destruct (decide (x = cid)) as [->|Hne].
  - left. rewrite counter_keys_incr, counter_get_incr. rewrite decide_True by done.
    split; [by left|].
    destruct (HI cid) as [(Hin & Hc & f & l & Hf & Hl & Hfl) | (Hnin & Hf & Hl)].
    + split; [lia|]. rewrite Hf, Hl.
      destruct (lt s f) eqn:E1, (gt e l) eqn:E2; rewrite ?lookup_insert_eq.
      * by exists s, e.
      * exists s, l. split_and!; try done.
        eapply le_trans; [exact Hr|]. by apply gt_false_le.
      * exists f, e. split_and!; try done.
        eapply le_trans; [|exact Hr]. by apply lt_false_le.
      * by exists f, l.
    + rewrite (counter_get_absent _ _ Hnin). split; [lia|].
      rewrite Hf, Hl, !lookup_insert_eq. by exists s, e.
  - assert (match cluster_first st !! cid with
            | Some f => if lt s f then <[cid:=s]> (cluster_first st)
                        else cluster_first st
            | None => <[cid:=s]> (cluster_first st)
            end !! x = cluster_first st !! x) as Hf'.
    { destruct (cluster_first st !! cid) as [f|]; [destruct (lt s f)|];
        by rewrite ?lookup_insert_ne. }
    rewrite Hf'.
    assert (match cluster_last st !! cid with
            | Some l => if gt e l then <[cid:=e]> (cluster_last st)
                        else cluster_last st
            | None => <[cid:=e]> (cluster_last st)
            end !! x = cluster_last st !! x) as Hl'.
    { destruct (cluster_last st !! cid) as [l|]; [destruct (gt e l)|];
        by rewrite ?lookup_insert_ne. }
    rewrite Hl'. rewrite counter_keys_incr, counter_get_incr.
    rewrite decide_False by done. rewrite Z.add_0_r.
    destruct (HI x) as [(Hin & Hc & Hfl) | (Hnin & Hf & Hl)].
    + left. split_and!; [by right | done | done].
    + right. split_and!; [|done..]. intros [?|?]; done.
Qed.

Lemma run_dirs_spec dirs : ∀ st st',
  Inv2 st → run st dirs = Ok st' →
  Inv2 st'
  ∧ ∃ rows ds, timeline_rows st' = timeline_rows st ++ rows
      ∧ sublist ds dirs ∧ Forall2 row_from rows ds.
Proof.
  induction dirs as [|d dirs IH]; intros st st' HI; cbn [run].
  - intros [= <-]. split; [done|]. exists [], []. by rewrite app_nil_r.
  - destruct (step st d) as [st1|] eqn:E; [|done]. cbn [rbind].
    intros Hrun. apply (step_spec _ _ _ HI) in E as [HI1 Hrows].
    apply (IH _ _ HI1) in Hrun as (HI' & rows & ds & Heq & Hsub & Hf).
    split; [done|]. destruct Hrows as [Hsame | (row & Hrow & Hfrom)].
    + exists rows, ds. rewrite Heq, Hsame. split_and!; try done.
      by apply sublist_cons.
    + exists (row :: rows), (d :: ds). rewrite Heq, Hrow, <- app_assoc.
      split_and!; try done; [by apply sublist_skip | by constructor].
Qed.

(** A file that fails makes the scan of its directory raise. *)
Lemma scan_files_unreadable fs f : ∀ r,
  f ∈ fs → Fs.f_fail f ≠ None → ∃ e, scan_files r fs = Raise e.
Proof.
  induction fs as [|f0 fs IH]; intros r Hin Hf; [by apply elem_of_nil in Hin|].
  cbn [scan_files].
  destruct (scan_lines r (Fs.f_lines f0)) as [r1|e1]; [|by eexists].
  cbn [rbind]. destruct (Fs.f_fail f0) as [e0|] eqn:E0; [by eexists|].
  apply elem_of_cons in Hin as [->|Hin]; [done|]. by apply IH.
Qed.

Lemma scan_app_times_unreadable d f e :
  f ∈ Fs.glob_logs d → Fs.f_fail f = Some e → ∃ e', scan_app_times d = Raise e'.
Proof.
  intros Hin Hf. unfold scan_app_times.
  destruct (search APP_DIR_RE _); [|by eexists].
  destruct (scan_files_unreadable _ f (None, None) Hin) as [e' ->]; [by rewrite Hf|].
  by eexists.
Qed.

Lemma with_int_keys_spec l : ∀ kl,
  with_int_keys l = Ok kl →
  List.map snd kl = l ∧ Forall (fun p : Z * text => Py.int p.2 = Ok p.1) kl.
Proof.
  induction l as [|x l IH]; intros kl; cbn [with_int_keys].
  - by intros [= <-].
  - destruct (Py.int x) as [n|] eqn:E; [|done]. cbn [rbind].
    destruct (with_int_keys l) as [kl'|]; [|done]. cbn [rbind].
    intros [= <-]. destruct (IH kl' eq_refl) as [<- Hall].
    split; [done|]. by constructor.
Qed.

Lemma key_sorted kl :
  StronglySorted Z.le (List.map fst (Py.sorted key_lt kl)).
Proof.
  pose proof (sorted_StronglySorted key_lt) as H.
  assert (StronglySorted (not_after key_lt) (Py.sorted key_lt kl)) as Hs.
  { apply H; unfold key_lt; intros a b; [|intros c]; rewrite ?Z.ltb_lt, ?Z.ltb_ge; lia. }
  induction Hs as [|a l Hs IH Ha]; cbn; constructor; [done|].
  apply Forall_map. eapply Forall_impl; [exact Ha|].
  intros b. unfold not_after, key_lt. rewrite Z.ltb_ge. done.
Qed.

Lemma sorted_by_int_spec l cids :
  sorted_by_int l = Ok cids →
  cids ≡ₚ l
  ∧ ∃ ns, Forall2 (fun cid n => Py.int cid = Ok n) cids ns ∧ StronglySorted Z.le ns.
Proof.
  unfold sorted_by_int. destruct (with_int_keys l) as [kl|] eqn:E; [|done].
  cbn [rbind]. intros [= <-]. apply with_int_keys_spec in E as [<- Hall].
  fold key_lt. split.
  - apply Permutation_map. apply sorted_Permutation.
  - exists (List.map fst (Py.sorted key_lt kl)). split; [|apply key_sorted].
    assert (Forall (fun p : Z * text => Py.int p.2 = Ok p.1) (Py.sorted key_lt kl))
      as Hall'.
    { by rewrite sorted_Permutation. }
    induction Hall'; cbn; constructor; done.
Qed.

Lemma summary_loop_spec st cids : ∀ rows,
  summary_loop st cids = Ok rows →
  Forall2 (fun (row : summary_row) cid =>
             ∃ f l, cluster_first st !! cid = Some f
               ∧ cluster_last st !! cid = Some l
               ∧ row = (cid, Py.str_of_int (Py.counter_get (cluster_counts st) cid),
                        format_dt f, format_dt l)) rows cids.
Proof.
  induction cids as [|cid cids IH]; intros rows; cbn [summary_loop].
  - intros [= <-]. constructor.
  - unfold dict_get.
    destruct (cluster_first st !! cid) as [f|] eqn:Ef; [|done]. cbn [rbind].
    destruct (cluster_last st !! cid) as [l|] eqn:El; [|done]. cbn [rbind].
    destruct (summary_loop st cids) as [rows'|]; [|done]. cbn [rbind].
    intros [= <-]. constructor; [by exists f, l | by apply IH].
Qed.

Lemma main_inv t timeline summary :
  main t = Ok (timeline, summary) →
  ∃ t' st, Fs.ensure_extracted t = Ok t'
    ∧ run init (iter_app_dirs t') = Ok st ∧ Inv2 st
    ∧ timeline = timeline_rows st
    ∧ cluster_summary_rows st = Ok summary.
Proof.
  unfold main. destruct (Fs.ensure_extracted t) as [t'|]; [|done]. cbn [rbind].
  destruct (run init (iter_app_dirs t')) as [st|] eqn:E; [|done]. cbn [rbind].
  destruct (cluster_summary_rows st) as [rows|] eqn:Es; [|done]. cbn [rbind].
  intros [= <- <-]. exists t', st. split_and!; try done.
  by apply (run_dirs_spec _ _ _ Inv2_init) in E as [? _].
Qed.
End WithUnicode.
End P2Facts.

(** The summary is always written *)

Module P2Defined.
Import Re Spec ReFacts PyFacts DtFacts Datetime Problem2 AppDirFacts P2Facts.
Local Open Scope Z_scope.
Section WithUnicode.
Context {U : UnicodeDB}.

Lemma is_digit_not_space c : Char.is_digit c = true → Char.is_space c = false.
Proof.
  unfold Char.is_digit. destruct (Char.decimal_value c) as [v|] eqn:E; [|done].
  intros _. by eapply digit_not_space.
Qed.

Lemma strip_left_digit c s :
  Char.is_digit c = true → Py.strip_left (c :: s) = c :: s.
Proof. intros H. cbn. by rewrite (is_digit_not_space _ H). Qed.

Lemma digits_value_defined ds : ∀ acc,
  Forall (fun c => Char.is_digit c = true) ds → ∃ n, Py.digits_value acc ds = Some n.
Proof.
  induction ds as [|c ds IH]; intros acc Hd; cbn [Py.digits_value]; [by eexists|].
  apply Forall_cons in Hd as [Hc Hd]. unfold Char.is_digit in Hc.
  destruct (Char.decimal_value c); [|done]. by apply IH.
Qed.

Lemma strip_digits ds :
  Forall (fun c => Char.is_digit c = true) ds → Py.strip ds = ds.
Proof.
  intros Hd. unfold Py.strip. destruct ds as [|c ds]; [done|].
  rewrite strip_left_digit by (by inversion Hd).
  destruct (rev (c :: ds)) as [|z zs] eqn:Er.
  { by apply (f_equal length) in Er; rewrite length_rev in Er. }
  rewrite strip_left_digit.
  - by rewrite <- Er, rev_involutive.
  - rewrite Forall_forall in Hd. apply Hd. apply list_elem_of_In, in_rev.
    rewrite Er. by left.
Qed.

(** [int] accepts every non-empty run of digits. *)
Lemma int_digits ds :
  ds ≠ [] → Forall (fun c => Char.is_digit c = true) ds → ∃ n, Py.int ds = Ok n.
Proof.
  intros Hne Hd. unfold Py.int. rewrite strip_digits by done.
  destruct ds as [|c ds]; [done|].
  destruct (digits_value_defined (c :: ds) 0 Hd) as [n ->]. by eexists.
Qed.

Lemma scan_app_times_cluster d cid aid num s e :
  scan_app_times d = Ok (cid, aid, num, s, e) → ∃ n, Py.int cid = Ok n.
Proof.
  unfold scan_app_times.
  destruct (search APP_DIR_RE (Fs.e_name d)) as [m|] eqn:E; [|done].
  apply search_APP_DIR_RE_Some in E
    as (pre & d13 & dn & tail & _ & Hlen & Hd & _ & _ & _ & -> & _).
  destruct (scan_files _ _); [|done]. cbn [rbind]. intros [= <- _ _ _ _].
  apply int_digits; [|done]. intros ->. done.
Qed.

Lemma step_keys st d st' :
  keys_numeric st → step st d = Ok st' → keys_numeric st'.
Proof.
  unfold keys_numeric. intros Hk. unfold step.
  destruct (scan_app_times d) as [[[[[cid aid] num] s] e]|] eqn:E; [|done].
  cbn [rbind]. destruct s as [s|], e as [e|]; try (by intros [= <-]).
  intros [= <-]. cbn [cluster_counts]. apply Forall_forall. intros x Hx.
  apply counter_keys_incr in Hx as [->|Hx].
  - by eapply scan_app_times_cluster.
  - rewrite Forall_forall in Hk. by apply Hk.
Qed.

Lemma run_keys dirs : ∀ st st',
  keys_numeric st → run st dirs = Ok st' → keys_numeric st'.
Proof.
  induction dirs as [|d dirs IH]; intros st st' Hk; cbn [run].
  - by intros [= <-].
  - destruct (step st d) as [st1|] eqn:E; [|done]. cbn [rbind].
    apply IH. by eapply step_keys.
Qed.

Lemma with_int_keys_defined l :
  Forall (fun cid => ∃ n, Py.int cid = Ok n) l → ∃ kl, with_int_keys l = Ok kl.
Proof.
  induction 1 as [|x l [n Hn] _ [kl IH]]; cbn [with_int_keys]; [by eexists|].
  rewrite Hn, IH. cbn [rbind]. by eexists.
Qed.

Lemma summary_loop_defined st cids :
  Inv2 st →
  Forall (fun cid => cid ∈ Py.counter_keys (cluster_counts st)) cids →
  ∃ rows, summary_loop st cids = Ok rows.
Proof.
  intros HI. induction 1 as [|cid cids Hin _ [rows IH]]; cbn [summary_loop];
    [by eexists|].
  destruct (HI cid) as [(_ & _ & f & l & Hf & Hl & _) | (Hnot & _)]; [|done].
  unfold dict_get. rewrite Hf, Hl, IH. cbn [rbind]. by eexists.
Qed.

(** Once the loop over the directories has ended, the summary is written
    without an error. *)
Lemma cluster_summary_rows_defined st :
  Inv2 st → keys_numeric st → ∃ rows, cluster_summary_rows st = Ok rows.
Proof.
  intros HI Hk. unfold cluster_summary_rows.
  destruct (with_int_keys_defined _ Hk) as [kl Hkl].
  destruct (sorted_by_int (Py.counter_keys (cluster_counts st))) as [cids|] eqn:E.
  - cbn [rbind]. apply summary_loop_defined; [done|].
    apply sorted_by_int_spec in E as [Hperm _].
    apply Forall_forall. intros cid Hc. by rewrite <- Hperm.
  - unfold sorted_by_int in E. by rewrite Hkl in E.
Qed.

Lemma main_defined t :
  (∃ out, main t = Ok out)
  ↔ ∃ t' st, Fs.ensure_extracted t = Ok t' ∧ run init (iter_app_dirs t') = Ok st.
Proof.
  split.
  - intros [[timeline summary] H]. apply main_inv in H as (t' & st & ? & ? & _).
    by exists t', st.
  - intros (t' & st & He & Hr). unfold main. rewrite He. cbn [rbind]. rewrite Hr.
    cbn [rbind].
    destruct (cluster_summary_rows_defined st) as [rows ->].
    + by apply (run_dirs_spec _ _ _ Inv2_init) in Hr as [? _].
    + eapply run_keys; [|exact Hr]. constructor.
    + by eexists.
Qed.
End WithUnicode.
End P2Defined.

(** ** Counters, sums and sorted lists *)

Module BuiltinFacts.
Import Spec PyFacts.
Local Open Scope Z_scope.

Lemma fold_left_add l : ∀ a, fold_left Z.add l a = a + fold_left Z.add l 0.
Proof.
  induction l as [|y l IH]; intros a; cbn [fold_left]; [lia|].
  rewrite (IH (a + y)), (IH (0 + y)). lia.
Qed.

Lemma sum_cons x l : Py.sum (x :: l) = x + Py.sum l.
Proof. unfold Py.sum. cbn [fold_left]. by rewrite fold_left_add. Qed.

Lemma sum_values_incr (c : Py.Counter text) k :
  Py.sum (Py.counter_values (Py.counter_incr c k)) = Py.sum (Py.counter_values c) + 1.
Proof.
  unfold Py.counter_values.
  induction c as [|[k0 v] c IH]; cbn [Py.counter_incr List.map snd]; [done|].
  case_decide; cbn [List.map snd]; rewrite !sum_cons; [lia|]. rewrite IH. lia.
Qed.

Lemma NoDup_keys_incr (c : Py.Counter text) k :
  NoDup (Py.counter_keys c) → NoDup (Py.counter_keys (Py.counter_incr c k)).
Proof.
  unfold Py.counter_keys. induction c as [|[k0 v] c IH]; cbn [Py.counter_incr List.map fst].
  - intros _. apply NoDup_singleton.
  - intros [Hk0 Hc]%NoDup_cons. case_decide; cbn [List.map fst].
    + by apply NoDup_cons.
    + apply NoDup_cons. split; [|by apply IH].
      intros Hin. apply (counter_keys_incr c k k0) in Hin as [?|?]; [congruence | done].
Qed.

Lemma sorted_nil_inv {A} (lt : A → A → bool) l : Py.sorted lt l = [] → l = [].
Proof.
  destruct l as [|x l]; [done|]. unfold Py.sorted. cbn [foldr].
  destruct (foldr _ _ _) as [|y r]; cbn [Py.insort]; [done|]. by destruct (lt y x).
Qed.

Lemma counter_get_elem (c : Py.Counter text) k v :
  NoDup (Py.counter_keys c) → (k, v) ∈ c → Py.counter_get c k = v.
Proof.
  unfold Py.counter_keys. induction c as [|[k0 v0] c IH]; cbn [List.map fst Py.counter_get].
  - intros _ Hin. by apply elem_of_nil in Hin.
  - intros [Hk0 Hc]%NoDup_cons Hin. apply elem_of_cons in Hin as [[= -> ->]|Hin].
    + by rewrite decide_True.
    + rewrite decide_False; [by apply IH|]. intros ->. apply Hk0.
      apply list_elem_of_fmap. by exists (k0, v).
Qed.

Lemma StronglySorted_weaken {A} (R R' : A → A → Prop) l :
  (∀ a b, R a b → R' a b) → StronglySorted R l → StronglySorted R' l.
Proof.
  intros HR. induction 1 as [|a l _ IH Ha]; constructor; [done|].
  eapply Forall_impl; [exact Ha|]. intros b. apply HR.
Qed.

Lemma positive_incr (c : Py.Counter text) k :
  Forall (fun v => 0 < v) (Py.counter_values c) →
  Forall (fun v => 0 < v) (Py.counter_values (Py.counter_incr c k)).
Proof.
  unfold Py.counter_values.
  induction c as [|[k0 v] c IH]; cbn [Py.counter_incr List.map snd].
  - intros _. repeat constructor.
  - intros [Hv Hc]%Forall_cons. case_decide; cbn [List.map snd].
    + constructor; [lia | done].
    + constructor; [done | by apply IH].
Qed.

Lemma sum_ones (l : list Z) : Py.sum (List.map (fun _ : Z => 1) l) = Py.len l.
Proof.
  unfold Py.sum, Py.len.
  assert (∀ a, fold_left Z.add (List.map (fun _ : Z => 1) l) a = a + Z.of_nat (length l))
    as H; [|by rewrite H].
  induction l as [|x l IH]; intros a; cbn [List.map fold_left length]; [lia|].
  rewrite IH. lia.
Qed.

Lemma counter_get_pos (c : Py.Counter text) k :
  Forall (fun v => 0 < v) (Py.counter_values c) →
  (0 < Py.counter_get c k ↔ k ∈ Py.counter_keys c).
Proof.
  unfold Py.counter_values, Py.counter_keys. intros Hp.
  induction c as [|[k0 v] c IH]; cbn [Py.counter_get List.map fst].
  - split; [lia | by intros ?%elem_of_nil].
  - apply Forall_cons in Hp as [Hv Hp]. cbn [snd] in Hv. case_decide.
    + subst. split; [intros _; apply list_elem_of_here | done].
    + rewrite (IH Hp), elem_of_cons. split; [by right|]. by intros [?|?].
Qed.

Lemma filter_all {A} (P : A → Prop) `{∀ x, Decision (P x)} l :
  Forall P l → filter P l = l.
Proof.
  induction 1 as [|x l Hx _ IH]; [done|]. by rewrite filter_cons, decide_True, IH.
Qed.

Lemma map_eq_through {A B C} (f : A → B) (h : A → C) :
  (∀ a b, f a = f b → h a = h b) →
  ∀ l1 l2, List.map f l1 = List.map f l2 → List.map h l1 = List.map h l2.
Proof.
  intros Hf. induction l1 as [|a l1 IH]; intros [|b l2]; cbn [List.map]; try done.
  intros H. injection H as H Hs. f_equal; [by apply Hf | by apply IH].
Qed.

End BuiltinFacts.

(** ** Timestamps of the logs through the two patterns *)

Module StampFacts.
Import Re Spec Tactics ReFacts Datetime DtFacts Problem2 AppDirFacts.
Local Open Scope Z_scope.
Section WithUnicode.
Context {U : UnicodeDB}.

Local Abbreviation year_re := (Grp 1 (cat [In_ Digit; In_ Digit])).
Local Abbreviation month_re :=
  (Grp 2 (alt [ cat [Chr (c "1"); one "0" "2"];
                cat [Chr (c "0"); one "1" "9"];
                one "1" "9" ])).
Local Abbreviation day_re :=
  (Grp 3 (alt [ cat [Chr (c "3"); one "0" "1"];
                cat [one "1" "2"; In_ Digit];
                cat [Chr (c "0"); one "1" "9"];
                one "1" "9";
                cat [Chr (c " "); one "1" "9"] ])).
Local Abbreviation hour_re :=
  (Grp 4 (alt [ cat [Chr (c "2"); one "0" "3"];
                cat [one "0" "1"; In_ Digit];
                In_ Digit ])).
Local Abbreviation minute_re :=
  (Grp 5 (alt [ cat [one "0" "5"; In_ Digit];
                In_ Digit ])).
Local Abbreviation second_re :=
  (Grp 6 (alt [ cat [Chr (c "6"); one "0" "1"];
                cat [one "0" "5"; In_ Digit];
                In_ Digit ])).

Lemma strptime_re_unfold :
  STRPTIME_RE =
    Cat year_re (Cat (Chr 47%N) (Cat month_re (Cat (Chr 47%N)
      (Cat day_re (Cat (Rep Space 1 None) (Cat hour_re (Cat (Chr 58%N)
        (Cat minute_re (Cat (Chr 58%N) second_re))))))))).
Proof. reflexivity. Qed.

Lemma exec_Cat_assoc {A} r1 r2 r3 cu g (K : cursor → groups → option A) :
  exec (Cat r1 (Cat r2 r3)) cu g K =
    exec (Cat r1 r2) cu g (fun c' g' => exec r3 c' g' K).
Proof. reflexivity. Qed.

Lemma exec_year {A} n s g (K : cursor → groups → option A) :
  0 ≤ n ≤ 99 →
  exec (Cat year_re (Chr 47%N)) (Cursor None 0 (two_digits n ++ 47%N :: s)) g K =
    K (Cursor (Some 47%N) 3 s) (set_group 1 (two_digits n) g).
Proof. intros Hn. hundred n ltac:(by_cases K). Qed.

Lemma exec_month {A} n b s g (K : cursor → groups → option A) :
  0 ≤ n ≤ 99 →
  exec (Cat month_re (Chr 47%N)) (Cursor b 3 (two_digits n ++ 47%N :: s)) g K =
    if (1 <=? n) && (n <=? 12)
    then K (Cursor (Some 47%N) 6 s) (set_group 2 (two_digits n) g)
    else None.
Proof. intros Hn. hundred n ltac:(by_cases K). Qed.

Lemma exec_hour {A} n b s g (K : cursor → groups → option A) :
  0 ≤ n ≤ 99 →
  exec (Cat hour_re (Chr 58%N)) (Cursor b 9 (two_digits n ++ 58%N :: s)) g K =
    if n <=? 23
    then K (Cursor (Some 58%N) 12 s) (set_group 4 (two_digits n) g)
    else None.
Proof. intros Hn. hundred n ltac:(by_cases K). Qed.

Lemma exec_minute {A} n b s g (K : cursor → groups → option A) :
  0 ≤ n ≤ 99 →
  exec (Cat minute_re (Chr 58%N)) (Cursor b 12 (two_digits n ++ 58%N :: s)) g K =
    if n <=? 59
    then K (Cursor (Some 58%N) 15 s) (set_group 5 (two_digits n) g)
    else None.
Proof. intros Hn. hundred n ltac:(by_cases K). Qed.

Lemma exec_second n b g :
  0 ≤ n ≤ 99 →
  exec second_re (Cursor b 15 (two_digits n)) g (accept 0) =
    if n <=? 61
    then Some (MObj 0 17 (set_group 6 (two_digits n) g))
    else Some (MObj 0 16 (set_group 6 (take 1 (two_digits n)) g)).
Proof. intros Hn. hundred n ltac:(vm_compute; reflexivity). Qed.

(** The day is followed by white space, which stops at the first digit
    of the hour. *)
Lemma exec_day {A} n v b s g (K : cursor → groups → option A) :
  0 ≤ n ≤ 99 → 0 ≤ v ≤ 9 →
  exec (Cat day_re (Rep Space 1 None))
    (Cursor b 6 (two_digits n ++ 32%N :: Z.to_N (48 + v) :: s)) g K =
    if (1 <=? n) && (n <=? 31)
    then K (Cursor (Some 32%N) 9 (Z.to_N (48 + v) :: s)) (set_group 3 (two_digits n) g)
    else None.
Proof.
  intros Hn Hv.
  assert (v = 0 ∨ v = 1 ∨ v = 2 ∨ v = 3 ∨ v = 4 ∨ v = 5 ∨ v = 6 ∨ v = 7 ∨ v = 8 ∨ v = 9)
    as Hc by lia.
  destruct Hc as [-> | [-> | [-> | [-> | [-> | [-> | [-> | [-> | [-> | ->]]]]]]]]];
    hundred n ltac:(by_cases K).
Qed.

Lemma stamp_unfold yy mm dd HH MM SS :
  stamp yy mm dd HH MM SS =
    two_digits yy ++ 47%N :: two_digits mm ++ 47%N :: two_digits dd ++ 32%N ::
    Z.to_N (48 + HH / 10) :: Z.to_N (48 + HH mod 10) :: 58%N :: two_digits MM ++ 58%N :: two_digits SS.
Proof. reflexivity. Qed.

Lemma match_STRPTIME_RE_stamp yy mm dd HH MM SS :
  0 ≤ yy ≤ 99 → 0 ≤ mm ≤ 99 → 0 ≤ dd ≤ 99 → 0 ≤ HH ≤ 99 → 0 ≤ MM ≤ 99 → 0 ≤ SS ≤ 99 →
  match_ STRPTIME_RE (stamp yy mm dd HH MM SS) =
    if (1 <=? mm) && (mm <=? 12) && (1 <=? dd) && (dd <=? 31) && (HH <=? 23) && (MM <=? 59)
    then Some (MObj 0 (if SS <=? 61 then 17 else 16)
                 [(6%nat, if SS <=? 61 then two_digits SS else take 1 (two_digits SS));
                  (5%nat, two_digits MM); (4%nat, two_digits HH); (3%nat, two_digits dd);
                  (2%nat, two_digits mm); (1%nat, two_digits yy)])
    else None.
Proof.
  intros Hy Hm Hd HH' HM HS.
  unfold match_. rewrite strptime_re_unfold, stamp_unfold.
  rewrite exec_Cat_assoc, exec_year by done.
  rewrite exec_Cat_assoc, exec_month by done.
  destruct ((1 <=? mm) && (mm <=? 12)); [|done]. cbn [andb].
  rewrite exec_Cat_assoc, exec_day by (try done; Z.div_mod_to_equations; lia).
  destruct ((1 <=? dd) && (dd <=? 31)); [|done]. cbn [andb].
  change (Z.to_N (48 + HH / 10) :: Z.to_N (48 + HH mod 10) :: 58%N :: two_digits MM ++ 58%N :: two_digits SS)
    with (two_digits HH ++ 58%N :: two_digits MM ++ 58%N :: two_digits SS).
  rewrite exec_Cat_assoc, exec_hour by done.
  destruct (HH <=? 23); [|done]. cbn [andb].
  rewrite exec_Cat_assoc, exec_minute by done.
  destruct (MM <=? 59); [|done].
  rewrite exec_second by done.
  unfold set_group. by destruct (SS <=? 61).
Qed.
Lemma length_stamp yy mm dd HH MM SS : length (stamp yy mm dd HH MM SS) = 17%nat.
Proof. reflexivity. Qed.

Lemma int_two_digits_value n : 0 ≤ n ≤ 99 → Py.int (two_digits n) = Ok n.
Proof. intros Hn. hundred n ltac:(vm_compute; reflexivity). Qed.

Lemma make_raises y m d H M S e :
  make y m d H M S = Raise e → ∃ msg, e = ValueError msg.
Proof.
  unfold make. repeat (destruct (negb _); [intros [= <-]; by eexists|]). done.
Qed.

(** What the library parser returns for a timestamp of the logs. *)
Lemma strptime_stamp yy mm dd HH MM SS :
  0 ≤ yy ≤ 99 → 0 ≤ mm ≤ 99 → 0 ≤ dd ≤ 99 → 0 ≤ HH ≤ 99 → 0 ≤ MM ≤ 99 → 0 ≤ SS ≤ 99 →
  strptime (stamp yy mm dd HH MM SS) =
    if (1 <=? mm) && (mm <=? 12) && (1 <=? dd) && (dd <=? 31) && (HH <=? 23) && (MM <=? 59)
    then if SS <=? 61 then make (pivot yy) mm dd HH MM SS
         else Raise (ValueError (str "unconverted data remains"))
    else Raise (ValueError (str "time data does not match format")).
Proof.
  intros Hy Hm Hd HH' HM HS. unfold strptime.
  rewrite match_STRPTIME_RE_stamp by done.
  destruct (_ && _); [|done]. rewrite length_stamp. cbn [m_end].
  destruct (SS <=? 61); [|done]. cbn [Nat.eqb negb].
  unfold field, group. cbn [m_groups get_group Nat.eqb default].
  unfold id. rewrite !int_two_digits_value by done. cbn [rbind]. done.
Qed.

Lemma days_in_month_pivot yy mm :
  0 ≤ yy ≤ 99 → days_in_month (pivot yy) mm = days_in_month (2000 + yy) mm.
Proof.
  intros Hy. unfold pivot. destruct (Z.leb_spec yy 68).
  - by rewrite Z.add_comm.
  - unfold days_in_month.
    replace (2000 + yy) with ((yy + 1900) + 100) by lia.
    rewrite is_leap_next_century by lia. done.
Qed.

Lemma parse_ts_stamp yy mm dd HH MM SS :
  0 ≤ yy ≤ 99 → 0 ≤ mm ≤ 99 → 0 ≤ dd ≤ 99 → 0 ≤ HH ≤ 99 → 0 ≤ MM ≤ 99 → 0 ≤ SS ≤ 99 →
  if civil yy mm dd HH MM SS
  then parse_ts (stamp yy mm dd HH MM SS) = Ok (DT (2000 + yy) mm dd HH MM SS)
  else ∃ msg, parse_ts (stamp yy mm dd HH MM SS) = Raise (ValueError msg).
Proof.
  intros Hy Hm Hd HH' HM HS. unfold parse_ts. rewrite strptime_stamp by done.
  unfold civil.
  assert (days_in_month (2000 + yy) mm ≤ 31) as Hdim.
  { unfold days_in_month. repeat case_match; lia. }
  destruct (Z.leb_spec 1 mm), (Z.leb_spec mm 12); cbn [andb]; try (by eexists).
  destruct (Z.leb_spec 1 dd); cbn [andb]; [|by eexists].
  destruct (Z.leb_spec dd 31); cbn [andb].
  2:{ destruct (Z.leb_spec dd (days_in_month (2000 + yy) mm)); [lia|]. by eexists. }
  destruct (Z.leb_spec HH 23); cbn [andb].
  2:{ rewrite andb_false_r. by eexists. }
  destruct (Z.leb_spec MM 59); cbn [andb].
  2:{ rewrite andb_false_r. by eexists. }
  destruct (Z.leb_spec SS 61).
  2:{ destruct (Z.leb_spec SS 59); [lia|]. rewrite andb_false_r. by eexists. }
  pose proof (pivot_ok := P2Parse.pivot_range yy Hy).
  destruct (Z.leb_spec dd (days_in_month (2000 + yy) mm)) as [Hdd|Hdd]; cbn [andb].
  2:{ destruct (make _ _ _ _ _ _) as [dt0|e] eqn:Em.
      - apply make_inv in Em as (_ & _ & _ & Hr & _).
        rewrite days_in_month_pivot in Hr by done.
        unfold in_range in Hr. apply andb_true_iff in Hr as [_ Hr%Z.leb_le]. lia.
      - apply make_raises in Em as [msg ->]. by eexists. }
  destruct (Z.leb_spec SS 59) as [Hs|Hs].
  2:{ destruct (make _ _ _ _ _ _) as [dt0|e] eqn:Em.
      - apply make_inv in Em as (_ & _ & _ & _ & _ & _ & Hr).
        unfold in_range in Hr. apply andb_true_iff in Hr as [_ Hr%Z.leb_le]. lia.
      - apply make_raises in Em as [msg ->]. by eexists. }
  assert (make (pivot yy) mm dd HH MM SS = Ok (DT (pivot yy) mm dd HH MM SS)) as Hmk.
  { apply make_complete; unfold in_range; rewrite ?days_in_month_pivot by done;
      apply andb_true_iff; split; apply Z.leb_le; lia. }
  rewrite Hmk. cbn [rbind year].
  unfold pivot in *. destruct (Z.leb_spec yy 68).
  - destruct (Z.ltb_spec (yy + 2000) 2000); [lia|]. by rewrite Z.add_comm.
  - destruct (Z.ltb_spec (yy + 1900) 2000); [|lia].
    rewrite (P2Parse.replace_year_century _ _ _ _ _ _ _ Hmk) by lia.
    do 2 f_equal. lia.
Qed.
Local Abbreviation dd_re := (Rep Digit 2 (Some 2%nat)).

Lemma ts_re_unfold :
  TS_RE =
    Cat Bos (Grp 1
      (Cat dd_re (Cat (Chr 47%N) (Cat dd_re (Cat (Chr 47%N) (Cat dd_re
        (Cat (Rep Space 1 None) (Cat dd_re (Cat (Chr 58%N) (Cat dd_re
          (Cat (Chr 58%N) dd_re))))))))))).
Proof. reflexivity. Qed.

Local Abbreviation hi n := (Z.to_N (48 + n / 10)).
Local Abbreviation lo n := (Z.to_N (48 + n mod 10)).

Lemma exec_pair_slash {A} n b p s g (K : cursor → groups → option A) :
  0 ≤ n ≤ 99 →
  exec (Cat dd_re (Chr 47%N)) (Cursor b p (hi n :: lo n :: 47%N :: s)) g K =
    K (Cursor (Some 47%N) (S (S (S p))) s) g.
Proof. intros Hn. hundred n ltac:(by_cases K). Qed.

Lemma exec_pair_colon {A} n b p s g (K : cursor → groups → option A) :
  0 ≤ n ≤ 99 →
  exec (Cat dd_re (Chr 58%N)) (Cursor b p (hi n :: lo n :: 58%N :: s)) g K =
    K (Cursor (Some 58%N) (S (S (S p))) s) g.
Proof. intros Hn. hundred n ltac:(by_cases K). Qed.

Lemma exec_pair_space {A} n v b p s g (K : cursor → groups → option A) :
  0 ≤ n ≤ 99 → 0 ≤ v ≤ 9 →
  exec (Cat dd_re (Rep Space 1 None))
    (Cursor b p (hi n :: lo n :: 32%N :: Z.to_N (48 + v) :: s)) g K =
    K (Cursor (Some 32%N) (S (S (S p))) (Z.to_N (48 + v) :: s)) g.
Proof.
  intros Hn Hv.
  assert (v = 0 ∨ v = 1 ∨ v = 2 ∨ v = 3 ∨ v = 4 ∨ v = 5 ∨ v = 6 ∨ v = 7 ∨ v = 8 ∨ v = 9)
    as Hc by lia.
  destruct Hc as [-> | [-> | [-> | [-> | [-> | [-> | [-> | [-> | [-> | ->]]]]]]]]];
    hundred n ltac:(by_cases K).
Qed.

Lemma two_digits_digits n :
  0 ≤ n ≤ 99 → Forall (fun x => in_cset Digit x = true) (two_digits n).
Proof. intros Hn. hundred n ltac:(repeat constructor). Qed.

Lemma exec_Bos_start {A} r b s g (K : cursor → groups → option A) :
  exec (Cat Bos r) (Cursor b 0 s) g K = exec r (Cursor b 0 s) g K.
Proof. reflexivity. Qed.

(** The timestamp pattern captures a timestamp at the head of a line,
    whatever follows it. *)
Lemma match_TS_RE_stamp yy mm dd HH MM SS tail :
  0 ≤ yy ≤ 99 → 0 ≤ mm ≤ 99 → 0 ≤ dd ≤ 99 → 0 ≤ HH ≤ 99 → 0 ≤ MM ≤ 99 → 0 ≤ SS ≤ 99 →
  match_ TS_RE (stamp yy mm dd HH MM SS ++ tail) =
    Some (MObj 0 17 [(1%nat, stamp yy mm dd HH MM SS)]).
Proof.
  intros Hy Hm Hd HH' HM HS. unfold match_.
  rewrite ts_re_unfold, exec_Bos_start, exec_Grp. cbn [pos rest].
  set (whole := stamp yy mm dd HH MM SS ++ tail) at 2.
  change (stamp yy mm dd HH MM SS ++ tail)
    with (hi yy :: lo yy :: 47%N :: hi mm :: lo mm :: 47%N :: hi dd :: lo dd :: 32%N
          :: hi HH :: lo HH :: 58%N :: hi MM :: lo MM :: 58%N :: two_digits SS ++ tail).
  rewrite exec_Cat_assoc, exec_pair_slash by done.
  rewrite exec_Cat_assoc, exec_pair_slash by done.
  rewrite exec_Cat_assoc, exec_pair_space by (try done; Z.div_mod_to_equations; lia).
  rewrite exec_Cat_assoc, exec_pair_colon by done.
  rewrite exec_Cat_assoc, exec_pair_colon by done.
  rewrite exec_Rep.
  change 2%nat with (length (two_digits SS)) at 1 2.
  rewrite (rep_exact_cursor Digit (two_digits SS) tail) by (try done; by apply two_digits_digits).
  unfold accept, skip. cbn [pos length Nat.add]. unfold set_group.
  subst whole. reflexivity.
Qed.
End WithUnicode.
End StampFacts.

(** ** The scan of an application directory and the counts of the clusters *)

Module ScanFacts.
Import Re Datetime DtOrder PyFacts BuiltinFacts Problem2 Spec P2Facts.
Local Open Scope Z_scope.
Section WithUnicode.
Context {U : UnicodeDB}.

Lemma scan_line_inv r line r' :
  scan_line r line = Ok r' →
  (match_ TS_RE line = None ∧ r' = r)
  ∨ (∃ dt, line_time line dt ∧ covers r' dt
       ∧ (∀ x, covers r x → covers r' x)
       ∧ (∀ s, r'.1 = Some s → r.1 = Some s ∨ s = dt)
       ∧ (∀ e, r'.2 = Some e → r.2 = Some e ∨ e = dt)).
Proof.
  unfold scan_line. destruct (match_ TS_RE line) as [mt|] eqn:Em.
  2:{ intros [= <-]. by left. }
  destruct (parse_ts _) as [dt|] eqn:Ep; [|done]. cbn [rbind].
  intros [= <-]. right. exists dt. split; [by exists mt|].
  destruct r as [s0 e0]. cbn [fst snd].
  assert (∃ s1, match s0 with
                | Some s => if lt dt s then Some dt else Some s
                | None => Some dt
                end = Some s1 ∧ le s1 dt = true
                ∧ (∀ s, s0 = Some s → le s1 s = true)
                ∧ (s0 = Some s1 ∨ s1 = dt)) as (s1 & -> & Hs1 & Hs1' & Hs1'').
  { destruct s0 as [s|].
    - destruct (lt dt s) eqn:E.
      + exists dt. split_and!; [done | apply le_refl | | by right].
        intros ? [= <-]. by apply lt_true_le.
      + exists s. split_and!; [done | by apply lt_false_le | | by left].
        intros ? [= <-]. apply le_refl.
    - exists dt. split_and!; [done | apply le_refl | done | by right]. }
  assert (∃ e1, match e0 with
                | Some e => if gt dt e then Some dt else Some e
                | None => Some dt
                end = Some e1 ∧ le dt e1 = true
                ∧ (∀ e, e0 = Some e → le e e1 = true)
                ∧ (e0 = Some e1 ∨ e1 = dt)) as (e1 & -> & He1 & He1' & He1'').
  { destruct e0 as [e|].
    - destruct (gt dt e) eqn:E.
      + exists dt. split_and!; [done | apply le_refl | | by right].
        intros ? [= <-]. by apply gt_true_le.
      + exists e. split_and!; [done | by apply gt_false_le | | by left].
        intros ? [= <-]. apply le_refl.
    - exists dt. split_and!; [done | apply le_refl | done | by right]. }
  split_and!.
  - by exists s1, e1.
  - intros x (s & e & [= -> ->] & Hsx & Hxe). exists s1, e1. split_and!; [done| |].
    + eapply le_trans; [|exact Hsx]. by apply Hs1'.
    + eapply le_trans; [exact Hxe|]. by apply He1'.
  - intros s [= <-]. destruct Hs1'' as [-> | ->]; [by left | by right].
  - intros e [= <-]. destruct He1'' as [-> | ->]; [by left | by right].
Qed.

Lemma scan_lines_inv lines : ∀ r r',
  scan_lines r lines = Ok r' →
  (∀ x, covers r x → covers r' x)
  ∧ (∀ x, among lines x → covers r' x)
  ∧ (∀ s, r'.1 = Some s → r.1 = Some s ∨ among lines s)
  ∧ (∀ e, r'.2 = Some e → r.2 = Some e ∨ among lines e).
Proof.
  induction lines as [|l ls IH]; intros r r'; cbn [scan_lines].
  - intros [= <-]. split_and!; try tauto.
    intros x (line & Hin & _). by apply elem_of_nil in Hin.
  - destruct (scan_line r l) as [r1|] eqn:E; [|done]. cbn [rbind]. intros Hr.
    apply IH in Hr as (H1 & H2 & H3 & H4).
    apply scan_line_inv in E as [[Hno ->] | (dt & Hdt & Hc & Hk & Hs & He)].
    + split_and!; [done | | |].
      * intros x (line & Hin & mt & Hm & Hp). apply elem_of_cons in Hin as [->|Hin].
        -- congruence.
        -- apply H2. by exists line; split; [|exists mt].
      * intros s Hs. destruct (H3 s Hs) as [?|(line & ? & ?)]; [by left|].
        right. exists line. split; [by right | done].
      * intros e He. destruct (H4 e He) as [?|(line & ? & ?)]; [by left|].
        right. exists line. split; [by right | done].
    + split_and!.
      * intros x Hx. by apply H1, Hk.
      * intros x (line & Hin & Ht). apply elem_of_cons in Hin as [->|Hin].
        -- destruct Hdt as (mt & Hm & Hp), Ht as (mt' & Hm' & Hp').
           assert (x = dt) as -> by congruence. by apply H1.
        -- apply H2. by exists line.
      * intros s Hs'. destruct (H3 s Hs') as [Hr1|(line & ? & ?)].
        -- destruct (Hs s Hr1) as [? | ->]; [by left|]. right. exists l. split; [by left | done].
        -- right. exists line. split; [by right | done].
      * intros e He'. destruct (H4 e He') as [Hr1|(line & ? & ?)].
        -- destruct (He e Hr1) as [? | ->]; [by left|]. right. exists l. split; [by left | done].
        -- right. exists line. split; [by right | done].
Qed.

Lemma scan_files_inv fs : ∀ r r',
  scan_files r fs = Ok r' →
  (∀ x, covers r x → covers r' x)
  ∧ (∀ x, seen fs x → covers r' x)
  ∧ (∀ s, r'.1 = Some s → r.1 = Some s ∨ seen fs s)
  ∧ (∀ e, r'.2 = Some e → r.2 = Some e ∨ seen fs e)
  ∧ Forall (fun f => Fs.f_fail f = None) fs.
Proof.
  induction fs as [|f fs IH]; intros r r'; cbn [scan_files].
  - intros [= <-]. split_and!; try tauto; [|constructor].
    intros x (f & line & Hin & _). by apply elem_of_nil in Hin.
  - destruct (scan_lines r (Fs.f_lines f)) as [r1|] eqn:E; [|done]. cbn [rbind].
    destruct (Fs.f_fail f) eqn:Ef; [done|]. intros Hr.
    apply IH in Hr as (H1 & H2 & H3 & H4 & H5).
    apply scan_lines_inv in E as (G1 & G2 & G3 & G4).
    split_and!.
    + intros x Hx. by apply H1, G1.
    + intros x (f' & line & Hin & Hl & Ht). apply elem_of_cons in Hin as [->|Hin].
      * apply H1, G2. by exists line.
      * apply H2. by exists f', line.
    + intros s Hs. destruct (H3 s Hs) as [Hr1|(f' & line & ? & ? & ?)].
      * destruct (G3 s Hr1) as [?|(line & ? & ?)]; [by left|].
        right. exists f, line. split_and!; [by left | done | done].
      * right. exists f', line. split_and!; [by right | done | done].
    + intros e He. destruct (H4 e He) as [Hr1|(f' & line & ? & ? & ?)].
      * destruct (G4 e Hr1) as [?|(line & ? & ?)]; [by left|].
        right. exists f, line. split_and!; [by left | done | done].
      * right. exists f', line. split_and!; [by right | done | done].
    + by constructor.
Qed.

Lemma scan_app_times_extremes d cid aid num s e :
  scan_app_times d = Ok (cid, aid, num, s, e) →
  (∀ dt, seen (Fs.glob_logs d) dt →
     ∃ s' e', s = Some s' ∧ e = Some e' ∧ le s' dt = true ∧ le dt e' = true)
  ∧ (∀ s', s = Some s' → seen (Fs.glob_logs d) s')
  ∧ (∀ e', e = Some e' → seen (Fs.glob_logs d) e').
Proof.
  unfold scan_app_times. destruct (search APP_DIR_RE _); [|done].
  destruct (scan_files _ _) as [r|] eqn:E; [|done]. cbn [rbind].
  intros [= <- <- <- <- <-]. apply scan_files_inv in E as (_ & H2 & H3 & H4 & _).
  split_and!.
  - intros dt Hdt. destruct (H2 dt Hdt) as (s' & e' & -> & ? & ?). by exists s', e'.
  - intros s' Hs. by destruct (H3 s' Hs).
  - intros e' He. by destruct (H4 e' He).
Qed.

Lemma scan_app_times_none d cid aid num s e :
  scan_app_times d = Ok (cid, aid, num, s, e) →
  (s = None ↔ ∀ dt, ¬ seen (Fs.glob_logs d) dt) ∧ (s = None ↔ e = None).
Proof.
  intros H. pose proof (scan_app_times_ok _ _ _ _ _ _ H) as Hr.
  apply scan_app_times_extremes in H as (H1 & H2 & H3). split.
  - split.
    + intros -> dt Hdt. by destruct (H1 dt Hdt) as (? & ? & ? & _).
    + intros Hno. destruct s as [s'|]; [|done]. destruct (Hno s'). by apply H2.
  - destruct s, e; done.
Qed.

(** What one iteration over an application directory does. *)
Lemma step_inv st d st' :
  step st d = Ok st' →
  (∃ cid aid num, scan_app_times d = Ok (cid, aid, num, None, None) ∧ st' = st)
  ∨ (∃ cid aid num s e, scan_app_times d = Ok (cid, aid, num, Some s, Some e)
       ∧ timeline_rows st' =
           timeline_rows st ++ [(cid, aid, num, format_dt s, format_dt e)]
       ∧ cluster_counts st' = Py.counter_incr (cluster_counts st) cid
       ∧ (∀ x, x ≠ cid → cluster_first st' !! x = cluster_first st !! x
                         ∧ cluster_last st' !! x = cluster_last st !! x)
       ∧ (∃ f, cluster_first st' !! cid = Some f ∧ le f s = true
            ∧ (f = s ∨ cluster_first st !! cid = Some f)
            ∧ (∀ f0, cluster_first st !! cid = Some f0 → le f f0 = true))
       ∧ (∃ l, cluster_last st' !! cid = Some l ∧ le e l = true
            ∧ (l = e ∨ cluster_last st !! cid = Some l)
            ∧ (∀ l0, cluster_last st !! cid = Some l0 → le l0 l = true))).
Proof.
  unfold step.
  destruct (scan_app_times d) as [[[[[cid aid] num] s] e]|] eqn:E; [|done].
  cbn [rbind]. pose proof (scan_app_times_ok _ _ _ _ _ _ E) as Hr.
  destruct s as [s|], e as [e|]; cbn [range_ok] in Hr; try done.
  2:{ intros [= <-]. left. by exists cid, aid, num. }
  intros [= <-]. right. exists cid, aid, num, s, e.
  cbn [timeline_rows cluster_counts cluster_first cluster_last].
  split_and!; try done.
  - intros x Hx. split.
    + destruct (cluster_first st !! cid) as [f|]; [destruct (lt s f)|];
        by rewrite ?lookup_insert_ne.
    + destruct (cluster_last st !! cid) as [l|]; [destruct (gt e l)|];
        by rewrite ?lookup_insert_ne.
  - destruct (cluster_first st !! cid) as [f|] eqn:Ef.
    + destruct (lt s f) eqn:El.
      * exists s. rewrite lookup_insert_eq. split_and!; [done | apply le_refl | by left |].
        intros ? [= <-]. by apply lt_true_le.
      * exists f. split_and!; [done | by apply lt_false_le | by right |].
        intros ? [= <-]. apply le_refl.
    + exists s. rewrite lookup_insert_eq. split_and!; [done | apply le_refl | by left | done].
  - destruct (cluster_last st !! cid) as [l|] eqn:El.
    + destruct (gt e l) eqn:Eg.
      * exists e. rewrite lookup_insert_eq. split_and!; [done | apply le_refl | by left |].
        intros ? [= <-]. by apply gt_true_le.
      * exists l. split_and!; [done | by apply gt_false_le | by right |].
        intros ? [= <-]. apply le_refl.
    + exists e. rewrite lookup_insert_eq. split_and!; [done | apply le_refl | by left | done].
Qed.

Lemma extremes_init : extremes init [].
Proof.
  split_and!.
  - intros ???? Hin. by apply elem_of_nil in Hin.
  - intros ??. unfold init; cbn. by rewrite lookup_empty.
  - intros ??. unfold init; cbn. by rewrite lookup_empty.
Qed.

Lemma step_extremes st d st' ds :
  extremes st ds → step st d = Ok st' → extremes st' (ds ++ [d]).
Proof.
  intros (H1 & H2 & H3) Hstep.
  apply step_inv in Hstep
    as [(cid & aid & num & E & ->)
       | (cid & aid & num & s & e & E & _ & _ & Hne & (f & Hf & Hfs & Hf' & Hfmin)
            & (l & Hl & Hel & Hl' & Hlmax))].
  - split_and!.
    + intros c d0 s e Hin Ha. apply elem_of_app in Hin as [Hin|Hin]; [by eapply H1|].
      apply list_elem_of_singleton in Hin as ->.
      destruct Ha as (aid' & num' & Ha). congruence.
    + intros c f Hf. destruct (H2 c f Hf) as (d0 & e & ? & ?).
      exists d0, e. split; [apply elem_of_app; by left | done].
    + intros c l Hl. destruct (H3 c l Hl) as (d0 & s & ? & ?).
      exists d0, s. split; [apply elem_of_app; by left | done].
  - split_and!.
    + intros c d0 s0 e0 Hin Ha.
      destruct (decide (c = cid)) as [->|Hc].
      * exists f, l. split_and!; try done.
        -- apply elem_of_app in Hin as [Hin|Hin].
           ++ destruct (H1 _ _ _ _ Hin Ha) as (f0 & l0 & Hf0 & _ & Hle & _).
              eapply le_trans; [by apply Hfmin | done].
           ++ apply list_elem_of_singleton in Hin as ->.
              destruct Ha as (aid' & num' & Ha). congruence.
        -- apply elem_of_app in Hin as [Hin|Hin].
           ++ destruct (H1 _ _ _ _ Hin Ha) as (f0 & l0 & _ & Hl0 & _ & Hle).
              eapply le_trans; [done | by apply Hlmax].
           ++ apply list_elem_of_singleton in Hin as ->.
              destruct Ha as (aid' & num' & Ha). congruence.
      * destruct (Hne c Hc) as [-> ->].
        apply elem_of_app in Hin as [Hin|Hin]; [by eapply H1|].
        apply list_elem_of_singleton in Hin as ->.
        destruct Ha as (aid' & num' & Ha). congruence.
    + intros c f0 Hf0. destruct (decide (c = cid)) as [->|Hc].
      * assert (f0 = f) as -> by congruence.
        destruct Hf' as [-> | Hold].
        -- exists d, e. split; [apply elem_of_app; right; by apply list_elem_of_singleton|].
           by exists aid, num.
        -- destruct (H2 _ _ Hold) as (d0 & e0 & ? & ?).
           exists d0, e0. split; [apply elem_of_app; by left | done].
      * destruct (Hne c Hc) as [Hx _]. rewrite Hx in Hf0.
        destruct (H2 _ _ Hf0) as (d0 & e0 & ? & ?).
        exists d0, e0. split; [apply elem_of_app; by left | done].
    + intros c l0 Hl0. destruct (decide (c = cid)) as [->|Hc].
      * assert (l0 = l) as -> by congruence.
        destruct Hl' as [-> | Hold].
        -- exists d, s. split; [apply elem_of_app; right; by apply list_elem_of_singleton|].
           by exists aid, num.
        -- destruct (H3 _ _ Hold) as (d0 & s0 & ? & ?).
           exists d0, s0. split; [apply elem_of_app; by left | done].
      * destruct (Hne c Hc) as [_ Hx]. rewrite Hx in Hl0.
        destruct (H3 _ _ Hl0) as (d0 & s0 & ? & ?).
        exists d0, s0. split; [apply elem_of_app; by left | done].
Qed.

Lemma run_extremes dirs : ∀ st st' ds,
  extremes st ds → run st dirs = Ok st' → extremes st' (ds ++ dirs).
Proof.
  induction dirs as [|d dirs IH]; intros st st' ds HI; cbn [run].
  - intros [= <-]. by rewrite app_nil_r.
  - destruct (step st d) as [st1|] eqn:E; [|done]. cbn [rbind]. intros Hrun.
    replace (ds ++ d :: dirs) with ((ds ++ [d]) ++ dirs) by (by rewrite <- app_assoc).
    eapply IH; [|exact Hrun]. by eapply step_extremes.
Qed.
Lemma counted_init : counted init.
Proof. split_and!; [constructor | done | done]. Qed.

Lemma step_counted st d st' :
  counted st → step st d = Ok st' → counted st'.
Proof.
  intros (Hnd & Hget & Hsum) Hstep.
  apply step_inv in Hstep
    as [(cid & aid & num & E & ->)
       | (cid & aid & num & s & e & E & Hrows & Hcnt & _)]; [done|].
  unfold counted, num_apps. rewrite Hrows, Hcnt. split_and!.
  - by apply NoDup_keys_incr.
  - intros x. rewrite counter_get_incr, Hget, filter_app. unfold Py.len.
    rewrite length_app, filter_cons, filter_nil. unfold cluster_of at 2. cbn [fst].
    destruct (decide (cid = x)) as [->|Hne].
    + rewrite !decide_True by done. cbn [length]. by rewrite Nat2Z.inj_add.
    + rewrite !decide_False by (unfold cluster_of; cbn; congruence). cbn [length].
      by rewrite Nat.add_0_r, Z.add_0_r.
  - rewrite sum_values_incr. unfold num_apps in Hsum. rewrite Hsum. unfold Py.len.
    rewrite length_app. cbn [length]. lia.
Qed.

Lemma run_counted dirs : ∀ st st',
  counted st → run st dirs = Ok st' → counted st'.
Proof.
  induction dirs as [|d dirs IH]; intros st st' HI; cbn [run].
  - by intros [= <-].
  - destruct (step st d) as [st1|] eqn:E; [|done]. cbn [rbind].
    apply IH. by eapply step_counted.
Qed.

(** The clusters by falling count *)

(** The head of the clusters sorted by falling count is the first of the
    clusters that have the largest count. *)
Lemma head_by_count (l : list (text * Z)) x rest :
  Py.sorted by_count l = x :: rest →
  ∃ pre post, l = pre ++ x :: post
    ∧ Forall (fun y : text * Z => y.2 < x.2) pre
    ∧ Forall (fun y : text * Z => y.2 ≤ x.2) post.
Proof.
  revert x rest. induction l as [|a l IH]; intros x rest; [done|].
  unfold Py.sorted. cbn [foldr]. fold (Py.sorted by_count l).
  destruct (Py.sorted by_count l) as [|y r] eqn:E.
  - apply sorted_nil_inv in E as ->. cbn [Py.insort]. intros [= <- <-].
    by exists [], [].
  - destruct (IH y r eq_refl) as (pre & post & -> & Hpre & Hpost).
    cbn [Py.insort]. unfold by_count at 1.
    destruct (Z.ltb_spec a.2 y.2) as [Hlt|Hge].
    + intros [= <- <-]. exists (a :: pre), post. split_and!; [done | by constructor | done].
    + intros [= <- <-]. exists [], (pre ++ y :: post). split_and!; [done | constructor |].
      apply Forall_app. split.
      * eapply Forall_impl; [exact Hpre|]. intros z Hz. cbn in Hz. lia.
      * constructor; [done|]. eapply Forall_impl; [exact Hpost|]. intros z Hz.
        cbn in Hz. lia.
Qed.

Lemma top_items_spec st :
  top_items st ≡ₚ cluster_counts st
  ∧ StronglySorted (fun a b : text * Z => b.2 ≤ a.2) (top_items st).
Proof.
  unfold top_items. fold by_count. split.
  - apply sorted_Permutation.
  - pose proof (sorted_StronglySorted by_count) as H.
    eapply (StronglySorted_weaken (not_after by_count)).
    + intros a b. unfold not_after, by_count. by rewrite Z.ltb_ge.
    + apply H; unfold by_count; intros a b; [|intros c']; rewrite ?Z.ltb_lt, ?Z.ltb_ge; lia.
Qed.
End WithUnicode.
End ScanFacts.

(** ** The sampler, the tables of the level report and the lines of the walk *)

Module SamplerFacts.
Import Re ReFacts PyFacts BuiltinFacts Problem1 Spec P1Facts.
Local Open Scope Z_scope.
Section WithInterfaces.
Context {U : UnicodeDB} {R : RandomSource}.

Section AlgorithmR.
Context {A : Type}.
Implicit Types (recs smp : list A) (g : rng).

Lemma algorithm_R_length K recs : ∀ seen smp g,
  0 ≤ seen → Py.len smp = Z.max 0 (Z.min K seen) →
  Py.len (algorithm_R K seen recs (smp, g)).1 = Z.max 0 (Z.min K (seen + Py.len recs)).
Proof.
  unfold Py.len.
  induction recs as [|rec recs IH]; intros seen smp g Hs Hl; cbn [algorithm_R length fst].
  - rewrite Hl. f_equal. f_equal. lia.
  - unfold algorithm_R_step. cbn [fst snd].
    destruct (Z.leb_spec (seen + 1) K).
    + rewrite IH; [f_equal; f_equal; lia | lia |].
      rewrite length_app. cbn [length]. lia.
    + destruct (randint 1 (seen + 1) g) as [j g'].
      destruct (j <=? K).
      * rewrite IH; [f_equal; f_equal; lia | lia |]. rewrite length_insert. lia.
      * rewrite IH; [f_equal; f_equal; lia | lia |]. lia.
Qed.

Lemma algorithm_R_members (P : A → Prop) K recs : ∀ seen smp g,
  Forall P smp → Forall P recs → Forall P (algorithm_R K seen recs (smp, g)).1.
Proof.
  induction recs as [|rec recs IH]; intros seen smp g Hs Hr; cbn [algorithm_R]; [done|].
  apply Forall_cons in Hr as [Hrec Hr].
  unfold algorithm_R_step. cbn [fst snd].
  destruct (seen + 1 <=? K).
  - apply IH; [|done]. apply Forall_app. split; [done | by constructor].
  - destruct (randint 1 (seen + 1) g) as [j g'].
    destruct (j <=? K); apply IH; try done. by apply Forall_insert.
Qed.

Lemma algorithm_R_few K recs : ∀ seen smp g,
  seen + Py.len recs ≤ K →
  algorithm_R K seen recs (smp, g) = (smp ++ recs, g).
Proof.
  unfold Py.len.
  induction recs as [|rec recs IH]; intros seen smp g Hk; cbn [algorithm_R].
  - by rewrite app_nil_r.
  - unfold algorithm_R_step. cbn [fst snd length] in *.
    destruct (Z.leb_spec (seen + 1) K); [|lia].
    rewrite IH by lia. by rewrite <- app_assoc.
Qed.

Lemma algorithm_R_fmap {B} (f : A → B) K recs : ∀ seen smp g,
  algorithm_R K seen (f <$> recs) (f <$> smp, g) =
    (f <$> (algorithm_R K seen recs (smp, g)).1, (algorithm_R K seen recs (smp, g)).2).
Proof.
  induction recs as [|rec recs IH]; intros seen smp g; cbn [algorithm_R fmap list_fmap].
  - done.
  - unfold algorithm_R_step. cbn [fst snd].
    destruct (seen + 1 <=? K).
    + rewrite <- IH. by rewrite fmap_app.
    + destruct (randint 1 (seen + 1) g) as [j g'].
      destruct (j <=? K); rewrite <- IH; [|done]. by rewrite list_fmap_insert.
Qed.
End AlgorithmR.

(** The lines with a level are the qualifying records without their
    level. *)
Lemma qualifying_fst items :
  fst <$> qualifying items =
    filter (fun item : Fs.path * text => has_level item.2 = true) items.
Proof.
  induction items as [|[path line] items IH]; [done|].
  rewrite qualifying_cons, filter_cons. cbn [fst snd].
  destruct (search LEVEL_RE line) as [m|] eqn:E.
  - rewrite decide_True by (unfold has_level; by rewrite E).
    cbn [fmap list_fmap]. by rewrite <- IH.
  - rewrite decide_False by (unfold has_level; by rewrite E). done.
Qed.

Lemma qualifying_elem r items :
  r ∈ qualifying items ↔
    ∃ m, r.1 ∈ items ∧ search LEVEL_RE r.1.2 = Some m ∧ r.2 = group1 m.
Proof.
  unfold qualifying. rewrite list_elem_of_omap. split.
  - intros ([path line] & Hin & Hr). cbn [fst snd] in Hr.
    destruct (search LEVEL_RE line) as [m|] eqn:E; [|done].
    injection Hr as <-. by exists m.
  - intros (m & Hin & Hs & Hg). exists r.1. split; [done|].
    rewrite Hs. destruct r as [[p l] lv]. cbn in *. by rewrite Hg.
Qed.

(** The counter after a pass *)

Lemma step_tidy st item st' :
  tidy (counts st) → step st item = Ok st' → tidy (counts st').
Proof.
  intros (H1 & H2 & H3). destruct item as [path line]. unfold step.
  destruct (search LEVEL_RE line) as [m|] eqn:E.
  2:{ by intros [= <-]. }
  assert (tidy (Py.counter_incr (counts st) (group1 m))) as Ht.
  { split_and!; [by apply NoDup_keys_incr | | by apply positive_incr].
    apply Forall_forall. intros x [->|Hx]%counter_keys_incr.
    - by eapply search_level_group.
    - rewrite Forall_forall in H2. by apply H2. }
  destruct (Py.len (sample st) <? k); [by intros [= <-]|].
  destruct (randint _ _ _) as [j g']. destruct (j <=? k); [|by intros [= <-]].
  destruct (Py.list_setitem _ _ _); [|done]. cbn [rbind]. by intros [= <-].
Qed.

Lemma run_tidy items : ∀ st st',
  tidy (counts st) → run st items = Ok st' → tidy (counts st').
Proof.
  induction items as [|item items IH]; intros st st' Ht; cbn [run].
  - by intros [= <-].
  - destruct (step st item) as [st1|] eqn:E; [|done]. cbn [rbind].
    apply IH. by eapply step_tidy.
Qed.

Lemma NoDup_LEVELS : NoDup LEVELS.
Proof.
  rewrite levels_codes. repeat (apply NoDup_cons; split); try apply NoDup_nil_2;
    rewrite ?not_elem_of_cons; split_and?; try discriminate; apply not_elem_of_nil.
Qed.

Lemma counts_rows_filter (st : state) :
  counts_rows st =
    List.map (fun lvl => lvl ++ str "," ++ Py.str_of_int (Py.counter_get (counts st) lvl)
                         ++ [10%N])
      (filter (fun lvl => 0 < Py.counter_get (counts st) lvl) LEVELS).
Proof.
  unfold counts_rows. induction LEVELS as [|lvl lvls IH]; [done|].
  cbn [List.map concat]. rewrite filter_cons, IH.
  destruct (Z.ltb_spec 0 (Py.counter_get (counts st) lvl)).
  - by rewrite decide_True.
  - by rewrite decide_False by lia.
Qed.

(** The rows of the counts table are as many as the summary announces. *)
Lemma unique_levels_rows (st : state) :
  tidy (counts st) → unique_levels st = Py.len (counts_rows st).
Proof.
  intros (Hnd & Hin & Hpos).
  rewrite counts_rows_filter. unfold unique_levels, Py.len.
  rewrite sum_ones. unfold Py.len. rewrite length_map. f_equal.
  rewrite filter_all by done.
  unfold Py.counter_values. rewrite length_map.
  rewrite <- (length_map fst (counts st)). fold (Py.counter_keys (counts st)).
  apply Permutation_length. apply NoDup_Permutation; [done | |].
  - apply NoDup_filter, NoDup_LEVELS.
  - intros x. rewrite list_elem_of_filter, (counter_get_pos _ _ Hpos).
    split; [|tauto]. intros Hx. split; [done|]. rewrite Forall_forall in Hin. by apply Hin.
Qed.

(** Quoting *)

Lemma replace_char_cons old new x s :
  Py.replace_char old new (x :: s) =
    (if (x =? old)%N then new else [x]) ++ Py.replace_char old new s.
Proof. reflexivity. Qed.

(** A quoted field is read back in one way only: what follows the closing
    quote is not a quote. *)
Lemma quoted_inj l1 : ∀ l2 x y r1 r2,
  x ≠ 34%N → y ≠ 34%N →
  Py.replace_char 34%N [34%N; 34%N] l1 ++ 34%N :: x :: r1 =
    Py.replace_char 34%N [34%N; 34%N] l2 ++ 34%N :: y :: r2 →
  l1 = l2 ∧ x :: r1 = y :: r2.
Proof.
  induction l1 as [|a l1 IH]; intros [|b l2] x y r1 r2 Hx Hy;
    rewrite ?replace_char_cons.
  - cbn [Py.replace_char List.map concat app]. by intros [= -> ->].
  - cbn [Py.replace_char List.map concat app].
    destruct (N.eqb_spec b 34); cbn [app]; intros [= ? ?]; congruence.
  - change (Py.replace_char 34%N [34%N; 34%N] []) with (@nil N).
    destruct (N.eqb_spec a 34); cbn [app]; intros [= ? ?]; congruence.
  - destruct (N.eqb_spec a 34) as [->|Ha], (N.eqb_spec b 34) as [->|Hb]; cbn [app].
    + intros [= H]. apply IH in H as [-> ?]; done.
    + intros [= ? ?]. congruence.
    + intros [= ? ?]. congruence.
    + intros [= -> H]. apply IH in H as [-> ?]; done.
Qed.

Lemma sample_row_inj (line1 lvl1 line2 lvl2 : text) :
  ([34%N] ++ Py.replace_char 34%N [34%N; 34%N] line1 ++ [34%N]) ++ str "," ++ lvl1 ++ [10%N]
  = ([34%N] ++ Py.replace_char 34%N [34%N; 34%N] line2 ++ [34%N]) ++ str "," ++ lvl2 ++ [10%N]
  → line1 = line2 ∧ lvl1 = lvl2.
Proof.
  rewrite <- !app_assoc. cbn [app]. change (str ",") with [44%N]. cbn [app].
  intros [= H]. apply quoted_inj in H as [-> H]; [|done..].
  injection H as H. by apply app_inv_tail in H.
Qed.

Lemma sample_rows_inj (st1 st2 : state) :
  sample_rows st1 = sample_rows st2 →
  List.map (fun r : record => (r.1.2, r.2)) (sample st1) =
    List.map (fun r : record => (r.1.2, r.2)) (sample st2).
Proof.
  unfold sample_rows. apply map_eq_through.
  intros [[p1 l1] v1] [[p2 l2] v2] H. cbn [fst snd].
  by apply sample_row_inj in H as [-> ->].
Qed.
End WithInterfaces.
End SamplerFacts.

Module LineFacts.
Import Problem1 Spec WalkFacts P1Facts.
Local Open Scope Z_scope.

Lemma rstrip_spec c s :
  ∃ n, s = Py.rstrip c s ++ replicate n c ∧ last (Py.rstrip c s) ≠ Some c.
Proof.
  induction s as [|x s (n & Hs & Hl)]; [by exists 0%nat|].
  cbn [Py.rstrip]. destruct (Py.rstrip c s) as [|y t] eqn:E.
  - cbn [app] in Hs. destruct (N.eqb_spec x c) as [->|Hne].
    + exists (S n). split; [cbn; by f_equal | done].
    + exists n. split; [cbn; by f_equal|]. cbn. congruence.
  - exists n. split; [cbn [app]; by f_equal|]. done.
Qed.

Lemma walk_until_failure_elem fs item :
  item ∈ (walk_until_failure fs).1 →
  ∃ dir f, (dir, f) ∈ fs ∧ item ∈ yielded dir f.
Proof.
  induction fs as [|[dir f] fs IH]; cbn [walk_until_failure].
  - by intros ?%elem_of_nil.
  - destruct (Fs.f_fail f); cbn [fst].
    + intros Hin. exists dir, f. split; [apply list_elem_of_here | done].
    + intros [Hin|Hin]%elem_of_app.
      * exists dir, f. split; [apply list_elem_of_here | done].
      * destruct (IH Hin) as (dir' & f' & ? & ?). exists dir', f'.
        split; [by apply list_elem_of_further | done].
Qed.

Lemma walk_until_failure_None fs :
  (walk_until_failure fs).2 = None ↔ all_readable fs.
Proof.
  unfold all_readable. induction fs as [|[dir f] fs IH]; cbn [walk_until_failure].
  - split; [constructor | done].
  - destruct (Fs.f_fail f) eqn:E; cbn [snd].
    + split; [done|]. intros [H _]%Forall_cons. cbn in H. congruence.
    + rewrite IH. split; [by constructor | by intros [_ ?]%Forall_cons].
Qed.

Lemma length_yielded dir f : length (yielded dir f) = length (Fs.f_lines f).
Proof. unfold yielded. by rewrite length_map. Qed.

Lemma length_yielded_all (fs : list (text * Fs.file)) :
  length (concat (List.map (fun df : text * Fs.file => yielded df.1 df.2) fs)) =
    length (concat (List.map (fun df : text * Fs.file => Fs.f_lines df.2) fs)).
Proof.
  induction fs as [|[dir f] fs IH]; [done|].
  cbn [List.map concat fst snd]. by rewrite !length_app, IH, length_yielded.
Qed.

Section WithInterfaces.
Context {U : UnicodeDB} {R : RandomSource}.

Lemma main_inv1 g t st :
  main g t = Ok st →
  ∃ t', Fs.ensure_extracted t = Ok t' ∧ all_readable (matched_logs t')
    ∧ aggregate g (concat (List.map (fun df : text * Fs.file => yielded df.1 df.2)
                             (matched_logs t'))) = Ok st.
Proof.
  unfold main. destruct (Fs.ensure_extracted t) as [t'|]; [|done]. cbn [rbind].
  rewrite iter_log_lines_spec.
  destruct (walk_until_failure (matched_logs t')) as [items failure] eqn:Ew.
  destruct (aggregate g items) as [st0|] eqn:Ea; [|done]. cbn [rbind].
  destruct failure; [done|]. intros [= <-].
  assert (all_readable (matched_logs t')) as Hok.
  { apply walk_until_failure_None. by rewrite Ew. }
  exists t'. split_and!; [done | done |].
  rewrite (walk_until_failure_all _ Hok) in Ew. by injection Ew as <-.
Qed.

Lemma main_readable g t t' :
  Fs.ensure_extracted t = Ok t' → all_readable (matched_logs t') →
  main g t =
    aggregate g (concat (List.map (fun df : text * Fs.file => yielded df.1 df.2)
                           (matched_logs t'))).
Proof.
  intros He Hok. unfold main. rewrite He. cbn [rbind].
  rewrite iter_log_lines_spec, (walk_until_failure_all _ Hok).
  by destruct (aggregate _ _).
Qed.
End WithInterfaces.
End LineFacts.

(** ** Formatted times and the failures of the scan *)

Module RenderFacts.
Import Re Spec Tactics ReFacts Datetime DtFacts Problem2 StampFacts ScanFacts P2Facts.
Local Open Scope Z_scope.

Lemma zfill_two n : 0 ≤ n ≤ 99 → Py.zfill 2 (Py.str_of_int n) = two_digits n.
Proof. intros Hn. hundred n ltac:(vm_compute; reflexivity). Qed.

Lemma zfill_year yy :
  0 ≤ yy ≤ 99 → Py.zfill 4 (Py.str_of_int (2000 + yy)) = str "20" ++ two_digits yy.
Proof. intros Hn. hundred yy ltac:(vm_compute; reflexivity). Qed.

Lemma strftime_rendered yy mm dd HH MM SS :
  0 ≤ yy ≤ 99 → 0 ≤ mm ≤ 99 → 0 ≤ dd ≤ 99 → 0 ≤ HH ≤ 99 → 0 ≤ MM ≤ 99 → 0 ≤ SS ≤ 99 →
  strftime (DT (2000 + yy) mm dd HH MM SS) = rendered yy mm dd HH MM SS.
Proof.
  intros. unfold strftime, rendered. cbn [year month day hour minute second].
  rewrite zfill_year, !zfill_two by done. by rewrite <- !app_assoc.
Qed.

Section WithUnicode.
Context {U : UnicodeDB}.

(** The fields of a parsed timestamp. *)
Lemma parse_ts_fields ts dt :
  parse_ts ts = Ok dt →
  2000 ≤ year dt ≤ 2099 ∧ 0 ≤ month dt ≤ 99 ∧ 0 ≤ day dt ≤ 99
  ∧ 0 ≤ hour dt ≤ 99 ∧ 0 ≤ minute dt ≤ 99 ∧ 0 ≤ second dt ≤ 99
  ∧ civil (year dt - 2000) (month dt) (day dt) (hour dt) (minute dt) (second dt) = true.
Proof.
  intros Hp.
  pose proof (P2Parse.parse_ts_year _ _ Hp) as (d1 & d2 & rest & v1 & v2 & _ & _ & _ & _ & Hy).
  assert (∃ y m d H M S, make y m d H M S = Ok dt) as (y & m & d & H & M & S & Hm).
  { unfold parse_ts in Hp. destruct (strptime ts) as [dt0|] eqn:E; [|done].
    cbn [rbind] in Hp.
    apply strptime_year in E as (? & ? & ? & ? & ? & _ & _ & _ & m & d & H & M & S & Hm).
    destruct (year dt0 <? 2000).
    - unfold replace_year in Hp. by eexists _, _, _, _, _, _.
    - injection Hp as <-. by eexists _, _, _, _, _, _. }
  apply make_inv in Hm as (-> & _ & Hr2 & Hr3 & Hr4 & Hr5 & Hr6).
  cbn [year month day hour minute second] in *.
  assert (days_in_month y m ≤ 31) as Hdim.
  { unfold days_in_month. repeat case_match; lia. }
  unfold in_range in *.
  repeat match goal with
  | H : _ && _ = true |- _ => apply andb_true_iff in H as [?%Z.leb_le ?%Z.leb_le]
  end.
  split_and!; try lia. unfold civil.
  replace (2000 + (y - 2000)) with y by lia.
  repeat (apply andb_true_iff; split); apply Z.leb_le; lia.
Qed.

Lemma format_dt_parsed ts dt :
  parse_ts ts = Ok dt →
  format_dt dt =
    rendered (year dt - 2000) (month dt) (day dt) (hour dt) (minute dt) (second dt).
Proof.
  intros Hp. apply parse_ts_fields in Hp. unfold format_dt.
  rewrite <- strftime_rendered by lia.
  destruct dt as [y m d H M S]. cbn [year month day hour minute second].
  do 2 f_equal. lia.
Qed.
(** A line that makes the parser raise ends the scan, the loop and the
    run. *)
Lemma scan_lines_raises lines line :
  line ∈ lines → (∀ r, ∃ e, scan_line r line = Raise e) →
  ∀ r, ∃ e, scan_lines r lines = Raise e.
Proof.
  intros Hin Hl. induction lines as [|l ls IH]; intros r; [by apply elem_of_nil in Hin|].
  cbn [scan_lines]. apply elem_of_cons in Hin as [<-|Hin].
  - destruct (Hl r) as [e ->]. by exists e.
  - destruct (scan_line r l) as [r1|e1]; [|by exists e1]. cbn [rbind]. by apply IH.
Qed.

Lemma scan_files_raises fs f line :
  f ∈ fs → line ∈ Fs.f_lines f → (∀ r, ∃ e, scan_line r line = Raise e) →
  ∀ r, ∃ e, scan_files r fs = Raise e.
Proof.
  intros Hin Hline Hl. induction fs as [|f0 fs IH]; intros r; [by apply elem_of_nil in Hin|].
  cbn [scan_files]. apply elem_of_cons in Hin as [<-|Hin].
  - destruct (scan_lines_raises _ _ Hline Hl r) as [e ->]. by exists e.
  - destruct (scan_lines r (Fs.f_lines f0)) as [r1|e1]; [|by exists e1]. cbn [rbind].
    destruct (Fs.f_fail f0) as [e0|]; [by exists e0|]. by apply IH.
Qed.

Lemma scan_app_times_raises d f line :
  f ∈ Fs.glob_logs d → line ∈ Fs.f_lines f → (∀ r, ∃ e, scan_line r line = Raise e) →
  ∃ e, scan_app_times d = Raise e.
Proof.
  intros Hin Hline Hl. unfold scan_app_times.
  destruct (search APP_DIR_RE _); [|by eexists].
  destruct (scan_files_raises _ _ _ Hin Hline Hl (None, None)) as [e ->]. by exists e.
Qed.

Lemma run_raises dirs d :
  d ∈ dirs → (∃ e, scan_app_times d = Raise e) → ∀ st, ∃ e, run st dirs = Raise e.
Proof.
  intros Hin [e He]. induction dirs as [|d0 dirs IH]; intros st; [by apply elem_of_nil in Hin|].
  cbn [run]. apply elem_of_cons in Hin as [<-|Hin].
  - unfold step. rewrite He. by exists e.
  - destruct (step st d0) as [st1|e1]; [|by exists e1]. cbn [rbind]. by apply IH.
Qed.

Lemma main_raises t t' d :
  Fs.ensure_extracted t = Ok t' → d ∈ iter_app_dirs t' →
  (∃ e, scan_app_times d = Raise e) → ∃ e, main t = Raise e.
Proof.
  intros He Hin Hd. unfold main. rewrite He. cbn [rbind].
  destruct (run_raises _ _ Hin Hd init) as [e ->]. by exists e.
Qed.

(** A line headed by a timestamp: the range is widened by its instant
    when it is one, and the scan raises otherwise. *)
Lemma scan_line_stamp r yy mm dd HH MM SS tail :
  0 ≤ yy ≤ 99 → 0 ≤ mm ≤ 99 → 0 ≤ dd ≤ 99 → 0 ≤ HH ≤ 99 → 0 ≤ MM ≤ 99 → 0 ≤ SS ≤ 99 →
  if civil yy mm dd HH MM SS
  then line_time (stamp yy mm dd HH MM SS ++ tail) (DT (2000 + yy) mm dd HH MM SS)
       ∧ ∃ r', scan_line r (stamp yy mm dd HH MM SS ++ tail) = Ok r'
  else ∃ msg, scan_line r (stamp yy mm dd HH MM SS ++ tail) = Raise (ValueError msg).
Proof.
  intros Hy Hm Hd HH' HM HS.
  pose proof (parse_ts_stamp yy mm dd HH MM SS Hy Hm Hd HH' HM HS) as Hp.
  pose proof (match_TS_RE_stamp yy mm dd HH MM SS tail Hy Hm Hd HH' HM HS) as Hmt.
  unfold scan_line, line_time. rewrite Hmt. unfold group. cbn [m_groups get_group Nat.eqb default from_option id].
  destruct (civil yy mm dd HH MM SS).
  - rewrite Hp. cbn [rbind]. split; [|by eexists].
    eexists. split; [done|]. done.
  - destruct Hp as [msg ->]. by exists msg.
Qed.
End WithUnicode.
End RenderFacts.

(** ** The shape of the rows *)

Module TableFacts.
Import Re Spec ReFacts Datetime DtFacts Problem2 StampFacts ScanFacts P2Facts RenderFacts.
Import Tactics AppDirFacts.
Local Open Scope Z_scope.

(** Decimal numerals *)

Lemma str_String a s : str (String a s) = N_of_ascii a :: str s.
Proof. reflexivity. Qed.

Lemma string_of_uint_digits u :
  Forall (fun c => (48 ≤ c ≤ 57)%N) (str (NilEmpty.string_of_uint u)).
Proof.
  induction u; cbn [NilEmpty.string_of_uint]; rewrite ?str_String;
    [constructor | constructor; [by vm_compute | done]..].
Qed.

Lemma str_of_int_digits n :
  0 ≤ n → Forall (fun c => (48 ≤ c ≤ 57)%N) (Py.str_of_int n).
Proof.
  intros Hn. unfold Py.str_of_int. destruct n as [|p|p]; [|clear Hn|lia].
  - repeat constructor; by vm_compute.
  - cbn [Z.to_int NilZero.string_of_int]. unfold NilZero.string_of_uint.
    destruct (Pos.to_uint p) eqn:E; try (rewrite <- E; apply string_of_uint_digits).
    repeat constructor; by vm_compute.
Qed.

(** Texts without a separator *)

Lemma occurrences_app c s t :
  occurrences c (s ++ t) = (occurrences c s + occurrences c t)%nat.
Proof. unfold occurrences. by rewrite filter_app, length_app. Qed.

Lemma occurrences_none c s : Forall (fun x => x ≠ c) s → occurrences c s = 0%nat.
Proof.
  unfold occurrences. induction 1 as [|x s Hx _ IH]; [done|].
  by rewrite filter_cons, decide_False.
Qed.

Lemma two_digits_range n :
  0 ≤ n ≤ 99 → Forall (fun c => (48 ≤ c ≤ 57)%N) (two_digits n).
Proof.
  intros Hn. unfold two_digits. repeat constructor; Z.div_mod_to_equations; lia.
Qed.

Lemma civil_range yy mm dd HH MM SS :
  civil yy mm dd HH MM SS = true → 0 ≤ HH → 0 ≤ MM → 0 ≤ SS →
  0 ≤ mm ≤ 99 ∧ 0 ≤ dd ≤ 99 ∧ 0 ≤ HH ≤ 99 ∧ 0 ≤ MM ≤ 99 ∧ 0 ≤ SS ≤ 99.
Proof.
  unfold civil. intros Hc ? ? ?.
  assert (days_in_month (2000 + yy) mm ≤ 31) as Hdim.
  { unfold days_in_month. repeat case_match; lia. }
  repeat match goal with
  | H : _ && _ = true |- _ => apply andb_true_iff in H as [H ?%Z.leb_le]
  end. apply Z.leb_le in Hc. lia.
Qed.

Lemma two_digits_plain n :
  0 ≤ n ≤ 99 → Forall (fun c => c ≠ 44%N ∧ c ≠ 10%N) (two_digits n).
Proof.
  intros Hn. eapply Forall_impl; [by apply two_digits_range|].
  intros c Hc. cbn in Hc. lia.
Qed.

(** A time holds neither a comma nor a line feed. *)
Lemma time_text_plain s : time_text s → Forall (fun c => c ≠ 44%N ∧ c ≠ 10%N) s.
Proof.
  intros (yy & mm & dd & HH & MM & SS & Hy & Hc & ? & ? & ? & ->).
  apply civil_range in Hc as (? & ? & ? & ? & ?); [|done..].
  unfold rendered.
  repeat (apply Forall_app; split); try (by apply two_digits_plain);
    by repeat constructor.
Qed.

Section WithUnicode.
Context {U : UnicodeDB}.

Lemma digit_char c :
  Char.is_digit c = true → c ≠ 44%N ∧ c ≠ 10%N ∧ c ≠ 95%N ∧ c ≠ 34%N.
Proof. intros H. split_and!; intros ->; by vm_compute in H. Qed.

(** The rows *)

Lemma time_text_parsed ts dt : parse_ts ts = Ok dt → time_text (format_dt dt).
Proof.
  intros Hp. rewrite (format_dt_parsed _ _ Hp).
  apply parse_ts_fields in Hp as (? & ? & ? & ? & ? & ? & Hc).
  eexists _, _, _, _, _, _. split_and!; [| |exact Hc| | | |reflexivity]; lia.
Qed.

Lemma seen_time_text fs dt : seen fs dt → time_text (format_dt dt).
Proof. intros (f & line & _ & _ & mt & _ & Hp). by eapply time_text_parsed. Qed.

Lemma scan_app_times_shape d cid aid num s e :
  scan_app_times d = Ok (cid, aid, num, Some s, Some e) →
  timeline_shape (cid, aid, num, format_dt s, format_dt e).
Proof.
  intros H. pose proof (scan_app_times_extremes _ _ _ _ _ _ H) as (_ & Hs & He).
  specialize (Hs s eq_refl). specialize (He e eq_refl).
  unfold scan_app_times in H.
  destruct (search APP_DIR_RE (Fs.e_name d)) as [m|] eqn:E; [|done].
  apply search_APP_DIR_RE_Some in E
    as (pre & d13 & dn & tail & _ & Hlen & Hd & Hne & Hdn & _ & Hg1 & Hg2).
  rewrite Hg1, Hg2 in H. cbn [default from_option id] in H.
  destruct (scan_files _ _) as [r|]; [|done]. cbn [rbind] in H.
  injection H as <- <- <- _ _.
  exists d13, dn, (format_dt s), (format_dt e).
  split_and!; try done; by eapply seen_time_text.
Qed.

Lemma row_from_shape row d : row_from row d → timeline_shape row.
Proof.
  intros (s & e & H & Hs & He). apply scan_app_times_shape in H.
  destruct row as [[[[cid aid] num] st] en]. cbn [fst snd] in *. by subst.
Qed.
End WithUnicode.
End TableFacts.

(** ** The tables and the statistics of the time-range report *)

Module ReportFacts.
Import Re Spec ReFacts Datetime DtFacts PyFacts Problem2 StampFacts ScanFacts P2Facts RenderFacts.
Import BuiltinFacts AppDirFacts TableFacts.
Local Open Scope Z_scope.
Section WithUnicode.
Context {U : UnicodeDB}.

(** The state from which the tables are written. *)
Lemma main_state t timeline summary :
  main t = Ok (timeline, summary) →
  ∃ t' st, Fs.ensure_extracted t = Ok t'
    ∧ run init (iter_app_dirs t') = Ok st
    ∧ Inv2 st ∧ extremes st (iter_app_dirs t') ∧ counted st
    ∧ timeline = timeline_rows st
    ∧ Forall timeline_shape timeline
    ∧ ∃ cids, cids ≡ₚ Py.counter_keys (cluster_counts st)
        ∧ Forall2 (fun (row : summary_row) cid =>
             ∃ f l, cluster_first st !! cid = Some f
               ∧ cluster_last st !! cid = Some l
               ∧ row = (cid, Py.str_of_int (Py.counter_get (cluster_counts st) cid),
                        format_dt f, format_dt l)) summary cids.
Proof.
  intros Hm. apply main_inv in Hm as (t' & st & He & Hrun & HI & -> & Hs).
  exists t', st. split_and!; try done.
  - apply (run_extremes _ _ _ [] extremes_init Hrun).
  - apply (run_counted _ _ _ counted_init Hrun).
  - apply (run_dirs_spec _ _ _ Inv2_init) in Hrun as (_ & rows & ds & Hrows & _ & Hfrom).
    cbn in Hrows. rewrite Hrows. clear Hrows.
    induction Hfrom as [|row d rows ds Hr _ IH]; constructor; [|done].
    by eapply row_from_shape.
  - unfold cluster_summary_rows in Hs.
    destruct (sorted_by_int _) as [cids|] eqn:Ec; [|done]. cbn [rbind] in Hs.
    apply sorted_by_int_spec in Ec as [Hperm _].
    exists cids. split; [done|]. by apply summary_loop_spec.
Qed.

Lemma shapes t timeline summary :
  main t = Ok (timeline, summary) →
  Forall timeline_shape timeline ∧ Forall summary_shape summary.
Proof.
  intros Hm.
  apply main_state in Hm
    as (t' & st & _ & _ & HI & (_ & Hf & Hl) & _ & _ & Hshape & cids & _ & Hrows).
  split; [done|]. clear Hshape.
  induction Hrows as [|row cid rows cids (f & l & Hfc & Hlc & ->) _ IH]; constructor;
    [|done].
  destruct (Hf _ _ Hfc) as (d1 & e1 & _ & aid1 & num1 & H1).
  destruct (Hl _ _ Hlc) as (d2 & s2 & _ & aid2 & num2 & H2).
  pose proof (scan_app_times_shape _ _ _ _ _ _ H1)
    as (d13 & dn & st1 & en1 & [= -> _ _ Hst _] & Hlen & Hd & _ & _ & Ht1 & _).
  pose proof (scan_app_times_shape _ _ _ _ _ _ H2)
    as (d13' & dn' & st2 & en2 & [= _ _ _ _ Hen] & _ & _ & _ & _ & _ & Ht2).
  exists d13, (Py.counter_get (cluster_counts st) d13), (format_dt f), (format_dt l).
  split_and!; try done.
  - destruct (HI d13) as [(_ & Hn & _) | (_ & Hno & _)]; [done | congruence].
  - by rewrite Hst.
  - by rewrite Hen.
Qed.
(** Lines of the tables *)

Lemma digits_plain s : digits s → Forall (fun c => c ≠ 44%N ∧ c ≠ 10%N) s.
Proof.
  intros H. eapply Forall_impl; [exact H|]. intros c Hc. cbn in Hc.
  apply digit_char in Hc. tauto.
Qed.

Lemma plain_occurrences s :
  Forall (fun c => c ≠ 44%N ∧ c ≠ 10%N) s →
  occurrences 44 s = 0%nat ∧ occurrences 10 s = 0%nat.
Proof.
  intros H. split; apply occurrences_none; eapply Forall_impl; try exact H;
    intros c Hc; cbn in Hc; tauto.
Qed.

Lemma timeline_line row :
  timeline_shape row →
  occurrences 44 (Py.join (str ",") (timeline_fields row)) = 4%nat
  ∧ occurrences 10 (Py.join (str ",") (timeline_fields row)) = 0%nat.
Proof.
  intros (d13 & dn & st & en & -> & _ & Hd & _ & Hdn & Hst & Hen).
  cbn [timeline_fields Py.join].
  apply digits_plain, plain_occurrences in Hd as [Hd1 Hd2], Hdn as [Hn1 Hn2].
  apply time_text_plain, plain_occurrences in Hst as [Hs1 Hs2], Hen as [He1 He2].
  rewrite !occurrences_app, Hd1, Hd2, Hn1, Hn2, Hs1, Hs2, He1, He2. done.
Qed.

Lemma summary_line row :
  summary_shape row →
  occurrences 44 (Py.join (str ",") (summary_fields row)) = 3%nat
  ∧ occurrences 10 (Py.join (str ",") (summary_fields row)) = 0%nat.
Proof.
  intros (d13 & n & f & l & -> & _ & Hd & Hn & Hf & Hl).
  cbn [summary_fields Py.join].
  assert (Forall (fun c => c ≠ 44%N ∧ c ≠ 10%N) (Py.str_of_int n)) as Hnum.
  { eapply Forall_impl; [apply str_of_int_digits; lia|]. intros c Hc. cbn in Hc. lia. }
  apply digits_plain, plain_occurrences in Hd as [Hd1 Hd2].
  apply plain_occurrences in Hnum as [Hn1 Hn2].
  apply time_text_plain, plain_occurrences in Hf as [Hs1 Hs2], Hl as [He1 He2].
  rewrite !occurrences_app, Hd1, Hd2, Hn1, Hn2, Hs1, Hs2, He1, He2. done.
Qed.

(** Counts *)

Lemma fmap_cid_rows (summary : list summary_row) cids (P : summary_row → text → Prop) :
  Forall2 P summary cids → (∀ row cid, P row cid → row.1.1.1 = cid) →
  (fun row : summary_row => row.1.1.1) <$> summary = cids.
Proof.
  intros H HP. induction H as [|row cid rows cids Hr _ IH]; [done|].
  cbn [fmap list_fmap]. f_equal; [by apply HP | done].
Qed.

Lemma summary_counts t timeline summary :
  main t = Ok (timeline, summary) →
  NoDup ((fun row : summary_row => row.1.1.1) <$> summary)
  ∧ (∀ cid, cid ∈ (fun row : summary_row => row.1.1.1) <$> summary
            ↔ cid ∈ cluster_of <$> timeline)
  ∧ Forall (fun row : summary_row =>
              row.1.1.2 =
                Py.str_of_int
                  (Py.len (filter (fun r => cluster_of r = row.1.1.1) timeline)))
      summary.
Proof.
  intros Hm.
  apply main_state in Hm
    as (t' & st & _ & _ & HI & _ & (Hnd & Hget & _) & -> & _ & cids & Hperm & Hrows).
  assert ((fun row : summary_row => row.1.1.1) <$> summary = cids) as Hc.
  { eapply fmap_cid_rows; [exact Hrows|]. by intros row cid (f & l & _ & _ & ->). }
  rewrite Hc. split_and!.
  - by rewrite Hperm.
  - intros cid. rewrite Hperm. split.
    + intros Hin. destruct (HI cid) as [(_ & Hn & _) | (Hno & _)]; [|done].
      rewrite Hget in Hn. unfold Py.len in Hn.
      destruct (filter _ _) as [|row rows] eqn:Ef; [cbn in Hn; lia|].
      assert (row ∈ filter (fun row => cluster_of row = cid) (timeline_rows st)) as Hr
        by (rewrite Ef; apply list_elem_of_here).
      apply list_elem_of_filter in Hr as [<- Hr]. apply list_elem_of_fmap. by exists row.
    + intros (row & -> & Hr)%list_elem_of_fmap.
      destruct (HI (cluster_of row)) as [(Hin & _) | (Hno & _)]; [done|].
      apply counter_get_absent in Hno. rewrite Hget in Hno. unfold Py.len in Hno.
      assert (row ∈ filter (fun r => cluster_of r = cluster_of row) (timeline_rows st))
        as Hf by (by apply list_elem_of_filter).
      destruct (filter _ _); [by apply elem_of_nil in Hf | cbn in Hno; lia].
  - clear Hc Hperm. induction Hrows as [|row cid rows cids (f & l & _ & _ & ->) _ IH];
      constructor; [|done].
    cbn [fst snd]. by rewrite Hget.
Qed.

(** First and last times *)

Lemma summary_extremes t timeline summary :
  main t = Ok (timeline, summary) →
  ∃ t', Fs.ensure_extracted t = Ok t'
    ∧ Forall (fun row : summary_row =>
        ∃ f l, row.1.2 = format_dt f ∧ row.2 = format_dt l
          ∧ (∀ d s e, d ∈ iter_app_dirs t' → app_of row.1.1.1 d s e →
               le f s = true ∧ le e l = true)
          ∧ (∃ d e, d ∈ iter_app_dirs t' ∧ app_of row.1.1.1 d f e)
          ∧ (∃ d s, d ∈ iter_app_dirs t' ∧ app_of row.1.1.1 d s l)) summary.
Proof.
  intros Hm.
  apply main_state in Hm
    as (t' & st & He & _ & _ & (Hall & Hf & Hl) & _ & _ & _ & cids & _ & Hrows).
  exists t'. split; [done|].
  induction Hrows as [|row cid rows cids (f & l & Hfc & Hlc & ->) _ IH]; constructor;
    [|done].
  exists f, l. cbn [fst snd]. split_and!; try done.
  - intros d s e Hd Ha. destruct (Hall _ _ _ _ Hd Ha) as (f' & l' & Hf' & Hl' & ? & ?).
    rewrite Hfc in Hf'. rewrite Hlc in Hl'. by injection Hf' as <-; injection Hl' as <-.
  - by apply Hf.
  - by apply Hl.
Qed.
(** Figures of the statistics *)

Lemma run_state dirs st :
  run init dirs = Ok st → Inv2 st ∧ counted st.
Proof.
  intros Hrun. split.
  - by apply (run_dirs_spec _ _ _ Inv2_init) in Hrun as [? _].
  - by apply (run_counted _ _ _ counted_init Hrun).
Qed.

Lemma counter_elem_key (c : Py.Counter text) k v : (k, v) ∈ c → k ∈ Py.counter_keys c.
Proof. intros H. apply list_elem_of_fmap. by exists (k, v). Qed.

Lemma counts_positive st :
  Inv2 st → counted st → Forall (fun kv : text * Z => 1 ≤ kv.2) (cluster_counts st).
Proof.
  intros HI (Hnd & _ & _). apply Forall_forall. intros [k v] Hin. cbn [snd].
  rewrite <- (counter_get_elem _ _ _ Hnd Hin).
  destruct (HI k) as [(_ & Hn & _) | (Hno & _)]; [done|].
  destruct Hno. by eapply counter_elem_key.
Qed.

Lemma sum_at_least (c : Py.Counter text) :
  Forall (fun kv : text * Z => 1 ≤ kv.2) c → Py.len c ≤ Py.sum (Py.counter_values c).
Proof.
  unfold Py.len, Py.counter_values. induction 1 as [|[k v] c Hv _ IH]; [done|].
  cbn [List.map snd length]. rewrite sum_cons. cbn [snd] in Hv. lia.
Qed.

Lemma rows_nil_counts st :
  Inv2 st → counted st → (timeline_rows st = [] ↔ cluster_counts st = []).
Proof.
  intros HI Hc. pose proof (counts_positive _ HI Hc) as Hpos.
  destruct Hc as (_ & Hget & Hsum). unfold num_apps in Hsum. split.
  - intros Hr. rewrite Hr in Hsum. apply sum_at_least in Hpos.
    unfold Py.len in *. cbn [length] in Hsum.
    destruct (cluster_counts st); [done | cbn [length] in Hpos; lia].
  - intros Hk. rewrite Hk in Hsum. cbn in Hsum. unfold Py.len in Hsum.
    destruct (timeline_rows st); [done | cbn [length] in Hsum; lia].
Qed.

Lemma length_summary st summary :
  cluster_summary_rows st = Ok summary → Py.len summary = num_clusters st.
Proof.
  unfold cluster_summary_rows, num_clusters, Py.len.
  destruct (sorted_by_int _) as [cids|] eqn:Ec; [|done]. cbn [rbind]. intros Hs.
  apply sorted_by_int_spec in Ec as [Hperm _]. apply summary_loop_spec in Hs.
  apply Forall2_length in Hs. rewrite Hs, Hperm. unfold Py.counter_keys.
  by rewrite length_map.
Qed.

Lemma largest_spec st cid :
  Inv2 st → counted st → largest_cluster st = Some cid →
  (∀ cid', Py.counter_get (cluster_counts st) cid'
           ≤ Py.counter_get (cluster_counts st) cid)
  ∧ ∃ pre post,
      cluster_counts st = pre ++ (cid, Py.counter_get (cluster_counts st) cid) :: post
      ∧ Forall (fun kv : text * Z => kv.2 < Py.counter_get (cluster_counts st) cid) pre.
Proof.
  intros HI Hc. pose proof (counts_positive _ HI Hc) as Hpos.
  destruct Hc as (Hnd & _ & _).
  unfold largest_cluster, top_items. fold by_count.
  destruct (Py.sorted by_count (cluster_counts st)) as [|[k v] rest] eqn:E; [done|].
  intros [= <-]. apply head_by_count in E as (pre & post & Heq & Hpre & Hpost).
  cbn [fst snd] in *.
  assert (Py.counter_get (cluster_counts st) k = v) as Hv.
  { apply counter_get_elem; [done|]. rewrite Heq. apply elem_of_app. right.
    apply list_elem_of_here. }
  rewrite Hv. split; [|by exists pre, post].
  intros k'. destruct (decide (k' ∈ Py.counter_keys (cluster_counts st))) as [Hin|Hno].
  - apply list_elem_of_fmap in Hin as ([k'' v'] & -> & Hin). cbn [fst].
    rewrite (counter_get_elem _ _ _ Hnd Hin).
    rewrite Heq in Hin. apply elem_of_app in Hin as [Hin|Hin].
    + rewrite Forall_forall in Hpre. specialize (Hpre _ Hin). cbn in Hpre. lia.
    + apply elem_of_cons in Hin as [[= _ ->]|Hin]; [lia|].
      rewrite Forall_forall in Hpost. by specialize (Hpost _ Hin).
  - rewrite (counter_get_absent _ _ Hno).
    rewrite Forall_forall in Hpos. rewrite Heq in Hpos.
    specialize (Hpos (k, v)). cbn [snd] in Hpos.
    assert (1 ≤ v); [|lia]. apply Hpos. apply elem_of_app. right. apply list_elem_of_here.
Qed.

Lemma largest_none st : largest_cluster st = None ↔ cluster_counts st = [].
Proof.
  unfold largest_cluster, top_items.
  destruct (Py.sorted _ (cluster_counts st)) as [|x rest] eqn:E.
  - apply sorted_nil_inv in E. by rewrite E.
  - split; [done|]. intros Hk. rewrite Hk in E. done.
Qed.

Context {F : FloatOps}.

Lemma avg_no_zero_division st : avg_apps_per_cluster st ≠ Raise ZeroDivisionError.
Proof.
  unfold avg_apps_per_cluster, Problem1.truediv.
  destruct (num_clusters st =? 0); [done|]. by destruct (int_truediv _ _).
Qed.

End WithUnicode.
End ReportFacts.

(** ** The order of formatted times *)

Module OrderFacts.
Import Re Spec ReFacts Datetime DtFacts PyFacts Problem2 StampFacts ScanFacts P2Facts RenderFacts.
Local Open Scope Z_scope.

(** Two digits compare as the numbers they write. *)
Lemma text_lt_two_digits a b s t :
  0 ≤ a ≤ 99 → 0 ≤ b ≤ 99 →
  Py.text_lt (two_digits a ++ s) (two_digits b ++ t) =
    (a <? b) || ((a =? b) && Py.text_lt s t).
Proof.
  intros Ha Hb. unfold two_digits. cbn [app Py.text_lt].
  destruct (N.ltb_spec (Z.to_N (48 + a / 10)) (Z.to_N (48 + b / 10))),
    (N.eqb_spec (Z.to_N (48 + a / 10)) (Z.to_N (48 + b / 10))),
    (N.ltb_spec (Z.to_N (48 + a mod 10)) (Z.to_N (48 + b mod 10))),
    (N.eqb_spec (Z.to_N (48 + a mod 10)) (Z.to_N (48 + b mod 10))),
    (Z.ltb_spec a b), (Z.eqb_spec a b); cbn [orb andb]; try reflexivity;
    exfalso; Z.div_mod_to_equations; lia.
Qed.

Lemma text_lt_same x s t : Py.text_lt (x :: s) (x :: t) = Py.text_lt s t.
Proof. cbn [Py.text_lt]. by rewrite N.ltb_irrefl, N.eqb_refl. Qed.

Lemma cmp_lt_cons x a y b :
  match cmp (x :: a) (y :: b) with Lt => true | _ => false end =
    (x <? y) || ((x =? y) && match cmp a b with Lt => true | _ => false end).
Proof.
  cbn [cmp]. destruct (Z.compare_spec x y), (Z.ltb_spec x y), (Z.eqb_spec x y);
    try lia; done.
Qed.

(** The times of the tables compare as texts the way their instants
    compare. *)
Lemma rendered_order y1 m1 d1 H1 M1 S1 y2 m2 d2 H2 M2 S2 :
  0 ≤ y1 ≤ 99 → 0 ≤ m1 ≤ 99 → 0 ≤ d1 ≤ 99 → 0 ≤ H1 ≤ 99 → 0 ≤ M1 ≤ 99 → 0 ≤ S1 ≤ 99 →
  0 ≤ y2 ≤ 99 → 0 ≤ m2 ≤ 99 → 0 ≤ d2 ≤ 99 → 0 ≤ H2 ≤ 99 → 0 ≤ M2 ≤ 99 → 0 ≤ S2 ≤ 99 →
  Py.text_lt (rendered y1 m1 d1 H1 M1 S1) (rendered y2 m2 d2 H2 M2 S2) =
    lt (DT (2000 + y1) m1 d1 H1 M1 S1) (DT (2000 + y2) m2 d2 H2 M2 S2).
Proof.
  intros. unfold lt, fields, rendered. cbn [year month day hour minute second].
  rewrite !cmp_lt_cons. cbn [cmp].
  change (str "20") with [50%N; 48%N]. change (str "-") with [45%N].
  change (str " ") with [32%N]. change (str ":") with [58%N].
  cbn [app]. rewrite !text_lt_same.
  repeat (rewrite text_lt_two_digits by done; rewrite ?text_lt_same).
  rewrite <- (app_nil_r (two_digits S1)), <- (app_nil_r (two_digits S2)).
  rewrite text_lt_two_digits by done. cbn [Py.text_lt].
  replace (2000 + y1 <? 2000 + y2) with (y1 <? y2)
    by (destruct (Z.ltb_spec y1 y2), (Z.ltb_spec (2000 + y1) (2000 + y2)); lia).
  replace (2000 + y1 =? 2000 + y2) with (y1 =? y2)
    by (destruct (Z.eqb_spec y1 y2), (Z.eqb_spec (2000 + y1) (2000 + y2)); lia).
  reflexivity.
Qed.

Section WithUnicode.
Context {U : UnicodeDB}.

Lemma format_dt_order ts1 dt1 ts2 dt2 :
  parse_ts ts1 = Ok dt1 → parse_ts ts2 = Ok dt2 →
  Py.text_lt (format_dt dt1) (format_dt dt2) = lt dt1 dt2.
Proof.
  intros H1 H2. rewrite (format_dt_parsed _ _ H1), (format_dt_parsed _ _ H2).
  apply parse_ts_fields in H1 as (? & ? & ? & ? & ? & ? & _).
  apply parse_ts_fields in H2 as (? & ? & ? & ? & ? & ? & _).
  rewrite rendered_order by lia.
  destruct dt1, dt2. cbn [year month day hour minute second].
  by rewrite !Zplus_minus.
Qed.
End WithUnicode.
End OrderFacts.

(** ** Durations *)

Module DurationFacts.
Import Re Spec ReFacts Datetime DtFacts DtOrder PyFacts Problem2 StampFacts ScanFacts P2Facts RenderFacts.
Local Open Scope Z_scope.

Lemma days_before_year_succ y :
  days_before_year (y + 1) = days_before_year y + (if is_leap y then 366 else 365).
Proof.
  unfold days_before_year, is_leap. cbn zeta.
  replace (y + 1 - 1) with y by lia.
  destruct (Z.eqb_spec (y mod 4) 0), (Z.eqb_spec (y mod 100) 0),
    (Z.eqb_spec (y mod 400) 0); cbn [andb orb negb];
    Z.div_mod_to_equations; lia.
Qed.

Lemma days_before_year_mono y1 y2 :
  y1 ≤ y2 → days_before_year y1 ≤ days_before_year y2.
Proof. unfold days_before_year. cbn zeta. intros H. Z.div_mod_to_equations. lia. Qed.

Lemma month_cases m :
  1 ≤ m ≤ 12 →
  m = 1 ∨ m = 2 ∨ m = 3 ∨ m = 4 ∨ m = 5 ∨ m = 6 ∨ m = 7 ∨ m = 8 ∨ m = 9 ∨ m = 10
  ∨ m = 11 ∨ m = 12.
Proof. lia. Qed.

Lemma days_before_month_mono y m1 m2 :
  1 ≤ m1 → m1 < m2 → m2 ≤ 12 →
  days_before_month y m1 + days_in_month y m1 ≤ days_before_month y m2.
Proof.
  intros H1 H12 H2. assert (1 ≤ m1 ≤ 12) as Hm1 by lia. assert (1 ≤ m2 ≤ 12) as Hm2 by lia.
  destruct (month_cases m1 Hm1) as [-> | [-> | [-> | [-> | [-> | [-> | [-> | [-> | [-> | [-> | [-> | ->]]]]]]]]]]];
  destruct (month_cases m2 Hm2) as [-> | [-> | [-> | [-> | [-> | [-> | [-> | [-> | [-> | [-> | [-> | ->]]]]]]]]]]];
    try lia;
    unfold days_before_month, days_in_month; destruct (is_leap y); by vm_compute.
Qed.

Lemma days_before_month_bounds y m :
  1 ≤ m ≤ 12 →
  0 ≤ days_before_month y m
  ∧ days_before_month y m + days_in_month y m ≤ (if is_leap y then 366 else 365).
Proof.
  intros Hm.
  destruct (month_cases m Hm) as [-> | [-> | [-> | [-> | [-> | [-> | [-> | [-> | [-> | [-> | [-> | ->]]]]]]]]]]];
    unfold days_before_month, days_in_month; destruct (is_leap y); split; by vm_compute.
Qed.

(** The seconds since the start of the calendar. *)
Lemma total_seconds_split a b :
  total_seconds a b =
    (toordinal a * 86400 + (second a + minute a * 60 + hour a * 3600))
    - (toordinal b * 86400 + (second b + minute b * 60 + hour b * 3600)).
Proof. unfold total_seconds. lia. Qed.

(** The difference of two datetimes has the sign of their comparison. *)
Lemma total_seconds_cmp a b :
  wellformed a → wellformed b →
  match cmp (fields a) (fields b) with
  | Lt => total_seconds a b < 0
  | Eq => total_seconds a b = 0 ∧ a = b
  | Gt => 0 < total_seconds a b
  end.
Proof.
  destruct a as [y1 m1 d1 H1 M1 S1], b as [y2 m2 d2 H2 M2 S2].
  unfold wellformed, fields. cbn [year month day hour minute second].
  intros (Hy1 & Hm1 & Hd1 & HH1 & HM1 & HS1) (Hy2 & Hm2 & Hd2 & HH2 & HM2 & HS2).
  rewrite total_seconds_split. unfold toordinal.
  cbn [year month day hour minute second cmp].
  pose proof (days_before_month_bounds y1 m1 Hm1) as [Hb1 Hb1'].
  pose proof (days_before_month_bounds y2 m2 Hm2) as [Hb2 Hb2'].
  destruct (Z.compare_spec y1 y2) as [->|Hy|Hy].
  - destruct (Z.compare_spec m1 m2) as [->|Hm|Hm].
    + destruct (Z.compare_spec d1 d2) as [->|Hd|Hd]; [|lia..].
      destruct (Z.compare_spec H1 H2) as [->|Hh|Hh]; [|lia..].
      destruct (Z.compare_spec M1 M2) as [->|Hmi|Hmi]; [|lia..].
      destruct (Z.compare_spec S1 S2) as [->|Hs|Hs]; [|lia..].
      split; [lia | done].
    + pose proof (days_before_month_mono y2 m1 m2 ltac:(lia) Hm ltac:(lia)). lia.
    + pose proof (days_before_month_mono y2 m2 m1 ltac:(lia) Hm ltac:(lia)). lia.
  - pose proof (days_before_year_succ y1) as Hs.
    pose proof (days_before_year_mono (y1 + 1) y2 ltac:(lia)).
    destruct (is_leap y1); lia.
  - pose proof (days_before_year_succ y2) as Hs.
    pose proof (days_before_year_mono (y2 + 1) y1 ltac:(lia)).
    destruct (is_leap y2); lia.
Qed.

Lemma total_seconds_le a b :
  wellformed a → wellformed b → le a b = true →
  0 ≤ total_seconds b a ∧ (total_seconds b a = 0 ↔ a = b).
Proof.
  intros Ha Hb. unfold le. pose proof (total_seconds_cmp b a Hb Ha) as H.
  rewrite (cmp_opp (fields a) (fields b)) in H.
  destruct (cmp (fields a) (fields b)); cbn [CompOpp] in H; [| |done]; intros _.
  - destruct H as [H0 ->]. split; [lia | done].
  - split; [lia|]. split; [lia|]. intros ->.
    pose proof (total_seconds_cmp b b Hb Hb) as H'. rewrite cmp_refl in H'. lia.
Qed.
Section WithUnicode.
Context {U : UnicodeDB}.

Lemma parse_ts_wellformed ts dt : parse_ts ts = Ok dt → wellformed dt.
Proof.
  intros Hp.
  assert (∃ y m d H M S, make y m d H M S = Ok dt) as (y & m & d & H & M & S & Hm).
  { unfold parse_ts in Hp. destruct (strptime ts) as [dt0|] eqn:E; [|done].
    cbn [rbind] in Hp.
    apply strptime_year in E as (? & ? & ? & ? & ? & _ & _ & _ & m & d & H & M & S & Hm).
    destruct (year dt0 <? 2000).
    - unfold replace_year in Hp. by eexists _, _, _, _, _, _.
    - injection Hp as <-. by eexists _, _, _, _, _, _. }
  apply make_inv in Hm as (-> & Hr1 & Hr2 & Hr3 & Hr4 & Hr5 & Hr6).
  unfold wellformed, in_range in *. cbn [year month day hour minute second].
  repeat match goal with
  | H : _ && _ = true |- _ => apply andb_true_iff in H as [?%Z.leb_le ?%Z.leb_le]
  end. lia.
Qed.

Lemma seen_wellformed fs dt : seen fs dt → wellformed dt.
Proof. intros (f & line & _ & _ & mt & _ & Hp). by eapply parse_ts_wellformed. Qed.

(** The duration of an application is not negative, and it is zero only
    when its logs hold a single instant. *)
Lemma scan_app_times_duration d cid aid num s e :
  scan_app_times d = Ok (cid, aid, num, Some s, Some e) →
  0 ≤ total_seconds e s ∧ (total_seconds e s = 0 ↔ s = e).
Proof.
  intros H. pose proof (scan_app_times_ok _ _ _ _ _ _ H) as Hr. cbn in Hr.
  apply scan_app_times_extremes in H as (_ & Hs & He).
  apply total_seconds_le; [| |done]; eapply seen_wellformed; eauto.
Qed.

Lemma note_duration_inv durations d durations' :
  note_duration durations d = Ok durations' →
  (∃ cid aid num, scan_app_times d = Ok (cid, aid, num, None, None)
     ∧ durations' = durations)
  ∨ (∃ cid aid num s e, scan_app_times d = Ok (cid, aid, num, Some s, Some e)
       ∧ durations' = <[cid := default [] (durations !! cid)
                               ++ [total_seconds e s]]> durations).
Proof.
  unfold note_duration.
  destruct (scan_app_times d) as [[[[[cid aid] num] s] e]|] eqn:E; [|done].
  cbn [rbind]. pose proof (scan_app_times_ok _ _ _ _ _ _ E) as Hr.
  destruct s as [s|], e as [e|]; cbn [range_ok] in Hr; try done; intros [= <-].
  - right. by exists cid, aid, num, s, e.
  - left. by exists cid, aid, num.
Qed.

Lemma timed_init : timed ∅ init.
Proof. split; [intros ?? H; by rewrite lookup_empty in H | intros cid; by rewrite lookup_empty]. Qed.

Lemma step_timed durations st d durations' st' :
  timed durations st →
  note_duration durations d = Ok durations' → step st d = Ok st' →
  timed durations' st'.
Proof.
  intros [H1 H2] Hn Hs.
  apply note_duration_inv in Hn
    as [(cid & aid & num & E & ->) | (cid & aid & num & s & e & E & ->)];
    apply step_inv in Hs
      as [(cid' & aid' & num' & E' & ->)
         | (cid' & aid' & num' & s' & e' & E' & _ & Hc & _)];
    try congruence; [done|].
  assert (cid' = cid) as -> by congruence.
  pose proof (scan_app_times_duration _ _ _ _ _ _ E) as [Hpos _].
  split.
  - intros x ds. destruct (decide (x = cid)) as [->|Hne].
    + rewrite lookup_insert_eq. intros [= <-]. apply Forall_app. split; [|by repeat constructor].
      destruct (durations !! cid) as [ds0|] eqn:E0; [by eapply H1 | constructor].
    + rewrite lookup_insert_ne by done. apply H1.
  - intros x. rewrite Hc, counter_get_incr. destruct (decide (x = cid)) as [->|Hne].
    + rewrite lookup_insert_eq. cbn [default from_option id].
      unfold Py.len in *. rewrite length_app, <- H2. cbn [length]. lia.
    + rewrite lookup_insert_ne by done. rewrite H2. lia.
Qed.

Lemma run_timed dirs : ∀ durations st durations' st',
  timed durations st →
  durations_by_cluster durations dirs = Ok durations' → run st dirs = Ok st' →
  timed durations' st'.
Proof.
  induction dirs as [|d dirs IH]; intros durations st durations' st' HI;
    cbn [durations_by_cluster run].
  - by intros [= <-] [= <-].
  - destruct (note_duration durations d) as [d1|] eqn:En; [|done].
    destruct (step st d) as [st1|] eqn:Es; [|done]. cbn [rbind].
    apply IH. by eapply step_timed.
Qed.

(** The lists of durations are built exactly when the loop succeeds. *)
Lemma durations_defined dirs : ∀ durations st,
  (∃ durations', durations_by_cluster durations dirs = Ok durations')
  ↔ (∃ st', run st dirs = Ok st').
Proof.
  induction dirs as [|d dirs IH]; intros durations st; cbn [durations_by_cluster run].
  - split; intros _; by eexists.
  - unfold note_duration at 1, step at 1.
    destruct (scan_app_times d) as [[[[[cid aid] num] s] e]|] eqn:E; cbn [rbind].
    2:{ split; intros [? ?]; done. }
    destruct s as [s|], e as [e|]; cbn [rbind]; apply IH.
Qed.
End WithUnicode.
End DurationFacts.

(** ** Skipped directories and written files *)

Module OutputFacts.
Import Re Spec ReFacts Datetime DtFacts PyFacts Problem2 StampFacts ScanFacts P2Facts RenderFacts.
Import BuiltinFacts AppDirFacts TableFacts ReportFacts.
Local Open Scope Z_scope.
Section WithUnicode.
Context {U : UnicodeDB}.

(** Logs without a timestamp *)

Lemma scan_lines_plain lines r :
  Forall (fun line => match_ TS_RE line = None) lines → scan_lines r lines = Ok r.
Proof.
  induction 1 as [|l ls Hl _ IH]; cbn [scan_lines]; [done|].
  unfold scan_line. rewrite Hl. cbn [rbind]. done.
Qed.

Lemma scan_files_plain fs r :
  Forall (fun f => Fs.f_fail f = None
                   ∧ Forall (fun line => match_ TS_RE line = None) (Fs.f_lines f)) fs →
  scan_files r fs = Ok r.
Proof.
  induction 1 as [|f fs [Hf Hl] _ IH]; cbn [scan_files]; [done|].
  rewrite scan_lines_plain by done. cbn [rbind]. by rewrite Hf.
Qed.

Lemma step_plain st d :
  accepted (Fs.e_name d) →
  Forall (fun f => Fs.f_fail f = None
                   ∧ Forall (fun line => match_ TS_RE line = None) (Fs.f_lines f))
    (Fs.glob_logs d) →
  step st d = Ok st.
Proof.
  intros Ha Hf. unfold step.
  apply scan_app_times_accepts in Ha as (pre & d13 & dn & tail & _ & _ & _ & _ & _ & _ & ->).
  rewrite scan_files_plain by done. done.
Qed.

(** The files *)

Lemma occurrences_concat c (ls : list text) :
  occurrences c (concat ls) = foldr (fun l n => (occurrences c l + n)%nat) 0%nat ls.
Proof.
  induction ls as [|l ls IH]; [done|]. cbn [concat foldr].
  by rewrite occurrences_app, IH.
Qed.

Lemma write_csv_lines header (rows : list (list text)) :
  occurrences 10 header = 0%nat →
  Forall (fun r => occurrences 10 (Py.join (str ",") r) = 0%nat) rows →
  occurrences 10 (write_csv header rows) = S (length rows).
Proof.
  intros Hh Hr. unfold write_csv. rewrite !occurrences_app, Hh, occurrences_concat.
  cbn [Nat.add]. change (occurrences 10 [10%N]) with 1%nat. cbn [Nat.add]. f_equal.
  induction Hr as [|r rows Hr0 _ IH]; [done|].
  cbn [List.map foldr length]. rewrite occurrences_app, Hr0, IH. done.
Qed.

(** The walk over the directories *)

Lemma iter_app_dirs_Permutation t :
  iter_app_dirs t ≡ₚ filter (fun d => Fs.e_is_dir d = true) (Fs.glob_applications t).
Proof. unfold iter_app_dirs. by rewrite sorted_Permutation. Qed.

End WithUnicode.

(** Percentages with binary64 floats *)

Lemma pct_of_zero d :
  0 < d → Problem1.pct (F := Binary64.ops) 0 d = Ok (str "0.00%").
Proof.
  intros Hd. rewrite PctFacts.pct_unfold.
  destruct (Z.eqb_spec d 0) as [->|_]; [lia|].
  cbn [int_truediv Binary64.ops]. unfold Binary64.truediv.
  destruct (Z.ltb_spec d 0); [lia|]. cbn [Z.abs Z.eqb xorb Z.ltb Z.compare].
  by vm_compute.
Qed.
End OutputFacts.

(** ** The rows of the timeline and the lines of the statistics *)

Module StatsFacts.
Import Re Spec ReFacts Datetime DtFacts PyFacts Problem2 ScanFacts P2Facts RenderFacts.
Import BuiltinFacts AppDirFacts TableFacts ReportFacts OutputFacts.
Local Open Scope Z_scope.

Lemma Ok_inj {A} (x y : A) : Ok x = Ok y → x = y.
Proof. by intros [= ->]. Qed.

(** Numerals and floats hold no line feed. *)

Lemma str_of_int_plain n : 0 ≤ n → occurrences 10 (Py.str_of_int n) = 0%nat.
Proof.
  intros Hn. apply occurrences_none.
  eapply Forall_impl; [by apply str_of_int_digits|]. intros c Hc. cbn in Hc. lia.
Qed.

Lemma hundredths_nonneg m e : 0 ≤ Binary64.hundredths m e.
Proof.
  unfold Binary64.hundredths. destruct (0 <=? e) eqn:E.
  - apply Z.leb_le in E. pose proof (Z.pow_nonneg 2 e ltac:(lia)). nia.
  - assert (0 < 2 ^ (- e)) as Hd by (apply Z.pow_pos_nonneg; lia).
    pose proof (Z.div_pos (Z.pos m * 100) (2 ^ (- e)) ltac:(lia) Hd).
    destruct (_ || _); lia.
Qed.

Lemma fixed2_plain neg n : 0 ≤ n → occurrences 10 (Binary64.fixed2 neg n) = 0%nat.
Proof.
  intros Hn. unfold Binary64.fixed2. rewrite !occurrences_app.
  rewrite str_of_int_plain by (apply Z.div_pos; lia).
  pose proof (Z.mod_pos_bound n 100 ltac:(lia)) as Hm.
  rewrite zfill_two by lia.
  rewrite (occurrences_none 10 (two_digits _)).
  - by destruct neg.
  - eapply Forall_impl; [apply two_digits_plain; lia|].
    intros c Hc. cbn in Hc. tauto.
Qed.

Lemma render_2f_plain f : occurrences 10 (Binary64.render_2f f) = 0%nat.
Proof.
  destruct f as [neg|neg| |neg m e]; cbn [Binary64.render_2f].
  - by apply fixed2_plain.
  - by destruct neg.
  - done.
  - apply fixed2_plain, hundredths_nonneg.
Qed.

Section WithUnicode.
Context {U : UnicodeDB}.

(** The rows of a pass are those of the directories with times, in the
    order of the pass. *)
Lemma run_rows dirs : ∀ st st',
  run st dirs = Ok st' →
  ∃ rows, timeline_rows st' = timeline_rows st ++ rows
    ∧ Forall2 row_from rows (filter (fun d => has_times d = true) dirs).
Proof.
  induction dirs as [|d dirs IH]; intros st st'; cbn [run].
  - intros [= <-]. exists []. by rewrite app_nil_r.
  - rewrite filter_cons. unfold step at 1.
    destruct (decide (has_times d = true)) as [Ht | Ht]; unfold has_times in Ht;
      destruct (scan_app_times d) as [[[[[cid aid] num] s] e]|] eqn:E; try done;
      cbn [rbind]; destruct s as [s|], e as [e|]; try done; try apply IH.
    cbn [rbind]. intros (rows & Heq & Hf)%IH. cbn [timeline_rows] in Heq.
    exists ((cid, aid, num, format_dt s, format_dt e) :: rows).
    rewrite Heq, <- app_assoc. split; [done|]. constructor; [|done].
    by exists s, e.
Qed.

(** The order of the loop is the order of the names. *)
Lemma iter_app_dirs_sorted t : StronglySorted name_le (iter_app_dirs t).
Proof.
  unfold iter_app_dirs.
  eapply StronglySorted_sublist; [apply sublist_filter|].
  apply (sorted_StronglySorted (fun a b => Py.text_lt (Fs.e_name a) (Fs.e_name b))).
  - intros a b. apply text_lt_asym.
  - intros a b c. apply text_le_trans.
Qed.

(** The keys of the counter are cluster identifiers with a count. *)
Lemma counts_shape dirs st :
  run init dirs = Ok st →
  Forall (fun kv : text * Z => digits kv.1 ∧ 1 ≤ kv.2) (cluster_counts st).
Proof.
  intros Hrun. pose proof (run_state _ _ Hrun) as [HI Hc].
  pose proof (counts_positive _ HI Hc) as Hpos.
  apply run_rows in Hrun as (rows & Heq & Hf). cbn in Heq.
  destruct Hc as (Hnd & Hget & _).
  apply Forall_forall. intros [k v] Hin.
  rewrite Forall_forall in Hpos. specialize (Hpos _ Hin). split; [|done].
  cbn [fst snd] in *.
  rewrite <- (counter_get_elem _ _ _ Hnd Hin), Hget in Hpos.
  destruct (filter (fun row => cluster_of row = k) (timeline_rows st))
    as [|row l] eqn:Ef; [unfold Py.len in Hpos; cbn in Hpos; lia|].
  assert (row ∈ filter (fun row => cluster_of row = k) (timeline_rows st)) as Hrow
    by (rewrite Ef; apply list_elem_of_here).
  apply list_elem_of_filter in Hrow as [<- Hrow]. rewrite Heq in Hrow.
  assert (Forall timeline_shape rows) as Hs.
  { clear -Hf. induction Hf as [|row d rows ds Hrd _ IH]; constructor; [|done].
    by eapply row_from_shape. }
  rewrite Forall_forall in Hs.
  destruct (Hs _ Hrow) as (d13 & dn & s & e & -> & _ & Hd & _). done.
Qed.

(** One line of the statistics for a cluster: one line feed, at its end. *)
Lemma cluster_line_feed (item : text * Z) :
  digits item.1 → 1 ≤ item.2 →
  occurrences 10 (str "  Cluster " ++ item.1 ++ str ": " ++ Py.str_of_int item.2
                  ++ str " applications" ++ [10%N]) = 1%nat.
Proof.
  intros Hd Hn. rewrite !occurrences_app.
  rewrite (proj2 (plain_occurrences _ (digits_plain _ Hd))).
  rewrite str_of_int_plain by lia. reflexivity.
Qed.

Lemma occurrences_opening c (l1 l2 l3 l4 : text) (rest : list text) :
  occurrences c (concat ([l1; l2; l3; l4] ++ rest)) =
    (occurrences c l1 + occurrences c l2 + occurrences c l3 + occurrences c l4
     + occurrences c (concat rest))%nat.
Proof. cbn [app concat]. rewrite !occurrences_app. lia. Qed.

Lemma cluster_lines_feeds (items : list (text * Z)) :
  Forall (fun kv : text * Z => digits kv.1 ∧ 1 ≤ kv.2) items →
  occurrences 10
    (concat (List.map (fun item : text * Z =>
                         str "  Cluster " ++ item.1 ++ str ": " ++ Py.str_of_int item.2
                         ++ str " applications" ++ [10%N]) items)) = length items.
Proof.
  induction 1 as [|item items [Hd Hn] _ IH]; [done|].
  cbn [List.map concat length]. rewrite occurrences_app, IH.
  by rewrite cluster_line_feed.
Qed.

(** The line feeds of the statistics file with binary64 floats. *)
Lemma stats_file_feeds dirs st lines :
  run init dirs = Ok st →
  stats_lines (F := Binary64.ops) st = Ok lines →
  occurrences 10 (concat lines) = (5 + Nat.min 10 (length (cluster_counts st)))%nat.
Proof.
  intros Hrun. pose proof (counts_shape _ _ Hrun) as Hshape.
  pose proof (run_state _ _ Hrun) as [HI Hc].
  unfold stats_lines.
  destruct (avg_apps_per_cluster st) as [avg|]; [|done]. unfold rbind.
  intros <-%Ok_inj. rewrite occurrences_opening, !occurrences_app.
  assert (0 ≤ num_clusters st) as H1 by (unfold num_clusters, Py.len; lia).
  assert (0 ≤ num_apps st) as H2.
  { destruct Hc as (_ & _ & ->). unfold Py.len. lia. }
  rewrite !str_of_int_plain by done.
  change (format_2f avg) with (Binary64.render_2f avg). rewrite render_2f_plain.
  rewrite cluster_lines_feeds.
  - rewrite length_take, (Permutation_length (proj1 (top_items_spec st))).
    change (occurrences 10 (str "Total unique clusters: ")) with 0%nat.
    change (occurrences 10 (str "Total applications: ")) with 0%nat.
    change (occurrences 10 (str "Average applications per cluster: ")) with 0%nat.
    change (occurrences 10 (str "Most heavily used clusters:")) with 0%nat.
    change (occurrences 10 [10%N]) with 1%nat.
    change (occurrences 10 [10%N; 10%N]) with 2%nat.
    lia.
  - apply Forall_take. apply Forall_forall. intros kv Hkv.
    rewrite Forall_forall in Hshape. apply Hshape.
    by rewrite <- (proj1 (top_items_spec st)).
Qed.
End WithUnicode.
End StatsFacts.

(** ** The model at work *)

Module Examples.
Local Open Scope Z_scope.

(** The percentages of some counts with binary64 floats. *)
Example pct_binary64 :
  List.map (fun p : Z * Z => Problem1.pct (F := Binary64.ops) p.1 p.2)
    [(1, 3); (2, 3); (1, 8); (1, 800); (7, 7); (0, 7); (5, 3); (3, 0)]
  = List.map (fun s => Ok (str s))
      ["33.33%"; "66.67%"; "12.50%"; "0.12%"; "100.00%"; "0.00%"; "166.67%"; "0.00%"]%string.
Proof. by vm_compute. Qed.

(** A pass over sixteen lines: the eleventh line with a level replaces the
    tenth record of the sample, the twelfth replaces the fourth. *)
Example sample_of_sixteen :
  Sample.outcome (Problem1.aggregate (R := Lcg.source) 42 Sample.sixteen)
  = Ok (List.map str
          ["INFO line 0"; "INFO line 1"; "INFO line 2"; "INFO line 14"; "INFO line 5";
           "INFO line 6"; "INFO line 8"; "INFO line 9"; "INFO line 10";
           "INFO line 13"]%string,
        16, 12, 1116302264).
Proof. by vm_compute. Qed.

(** The scenario lines of the specification: a level and a timestamp in
    the first, neither in the second. *)
Example scenario_lines :
  Problem1.group1 <$> Re.search Problem1.LEVEL_RE Sample.started = Some (str "INFO")
  ∧ Problem2.scan_line (None, None) Sample.started
      = Ok (Some Sample.started_dt, Some Sample.started_dt)
  ∧ Problem2.format_dt Sample.started_dt = str "2017-03-29 10:04:41"
  ∧ Re.search Problem1.LEVEL_RE Sample.errorish = None
  ∧ Re.match_ Problem2.TS_RE Sample.errorish = None.
Proof. by vm_compute. Qed.

(** A line that opens with digits of the right shape that are no date makes
    the parser, and with it the scan of the line, raise. *)
Example impossible_date_raises :
  (∃ m, Re.match_ Problem2.TS_RE Sample.no_date = Some m)
  ∧ Problem2.scan_line (None, None) Sample.no_date
      = Raise (ValueError (str "time data does not match format")).
Proof. split; [eexists|]; by vm_compute. Qed.

(** Quoting a sampled line doubles its quotes. *)
Example quoted_line :
  Problem1.sample_rows
    (Problem1.State (R := Lcg.source) 1 1 [] [((str "d", str "f"),
       [72; 101; 32; 115; 97; 105; 100; 32; 34; 104; 105; 34]%N, str "INFO")] 1 42)
  = [[34; 72; 101; 32; 115; 97; 105; 100; 32; 34; 34; 104; 105; 34; 34; 34;
      44; 73; 78; 70; 79; 10]%N].
Proof. by vm_compute. Qed.
End Examples.

(** * The claims *)

Import Re Spec.

(** C5. Level extraction returns the leftmost occurrence of one of the
    tokens INFO, WARN, ERROR, DEBUG that stands as a word of its own (a
    word boundary on both sides), and nothing when no such occurrence
    exists; the line [random text ERRORISH] has no level. *)
Theorem C5_level_is_leftmost_standalone_token (U : UnicodeDB) (line : text) :
  match search Problem1.LEVEL_RE line with
  | Some m =>
      ∃ tok, tok ∈ Problem1.LEVELS ∧ group 1 m = Some tok
        ∧ m_end m = (m_start m + length tok)%nat
        ∧ standalone tok line (m_start m)
        ∧ ∀ j t, (j < m_start m)%nat → t ∈ Problem1.LEVELS → ¬ standalone t line j
  | None => ∀ j t, t ∈ Problem1.LEVELS → ¬ standalone t line j
  end
  ∧ search Problem1.LEVEL_RE Sample.errorish = None.
Proof.
  split; [apply P1Facts.search_LEVEL_RE | by vm_compute].
Qed.

(** C1. The sampler of [main] and the function [reservoir_sample] follow
    algorithm R: over every stream, the sample and the generator after
    the pass are those of algorithm R run over the qualifying lines, which
    appends each of the first ten and, for the Nth later one, draws J in
    [1, N] and overwrites slot J - 1 when J <= 10 and discards the record
    otherwise. *)
Theorem C1_reservoir_follows_algorithm_R
    (U : UnicodeDB) (R : RandomSource) (g : rng) (items : list (Fs.path * text)) :
  (∃ st, Problem1.aggregate g items = Ok st
     ∧ (Problem1.sample st, Problem1.gen st) =
         algorithm_R 10 0 (qualifying items) ([], g))
  ∧ Problem1.reservoir_sample items 10 Problem1.has_level g =
      Ok (algorithm_R 10 0
            (filter (fun item : Fs.path * text => Problem1.has_level item.2 = true) items)
            ([], g)).
Proof.
  split.
  - destruct (P1Facts.run_items_spec items (Problem1.init g) (P1Facts.Inv1_init g))
      as (st & Hrun & _ & _ & Hs & _).
    exists st. split; [exact Hrun | exact Hs].
  - apply P1Facts.reservoir_loop_spec; [done|]. by vm_compute.
Qed.

(** C3. At every point of the pass, that is after every prefix of the
    stream, and at its end, the sample holds min(10, level_lines) records,
    level_lines being the number of lines seen so far with a level. *)
Theorem C3_sample_length_is_min_K_level_lines
    (U : UnicodeDB) (R : RandomSource) (g : rng) (items : list (Fs.path * text))
    (n : nat) :
  ∃ st, Problem1.aggregate g (take n items) = Ok st
    ∧ Problem1.aggregate g items = Problem1.run st (drop n items)
    ∧ Problem1.level_lines st = Py.len (qualifying (take n items))
    ∧ Py.len (Problem1.sample st) = Z.min 10 (Problem1.level_lines st).
Proof.
  destruct (P1Facts.run_items_spec (take n items) (Problem1.init g) (P1Facts.Inv1_init g))
    as (st & Hrun & HI & _ & _ & Hl & _).
  exists st. split; [exact Hrun|]. split_and!.
  - unfold Problem1.aggregate in *.
    rewrite <- (take_drop n items) at 1. rewrite P1Facts.run_app, Hrun. done.
  - rewrite Hl. cbn. lia.
  - apply HI.
Qed.

(** C4. After the pass, total_lines counts every line, level_lines counts
    the lines with a level, total_lines >= level_lines, level_lines is the
    sum of the counts of INFO, WARN, ERROR and DEBUG, and the count of a
    level is the number of lines in which that level was detected. *)
Theorem C4_total_level_and_per_level_counts
    (U : UnicodeDB) (R : RandomSource) (g : rng) (items : list (Fs.path * text)) :
  ∃ st, Problem1.aggregate g items = Ok st
    ∧ Problem1.total_lines st = Py.len items
    ∧ (Problem1.level_lines st ≤ Problem1.total_lines st)%Z
    ∧ Problem1.level_lines st =
        (Py.counter_get (Problem1.counts st) (str "INFO")
         + Py.counter_get (Problem1.counts st) (str "WARN")
         + Py.counter_get (Problem1.counts st) (str "ERROR")
         + Py.counter_get (Problem1.counts st) (str "DEBUG"))%Z
    ∧ Problem1.level_lines st = Py.len (qualifying items)
    ∧ ∀ lvl, Py.counter_get (Problem1.counts st) lvl = with_level lvl (qualifying items).
Proof.
  destruct (P1Facts.run_items_spec items (Problem1.init g) (P1Facts.Inv1_init g))
    as (st & Hrun & HI & Ht & _ & Hl & Hc).
  exists st. split; [exact Hrun|]. destruct HI as [_ _ Hn Hsum]. split_and!.
  - rewrite Ht. cbn. lia.
  - lia.
  - rewrite Hsum. unfold level_total. cbn [foldr Problem1.LEVELS]. lia.
  - rewrite Hl. cbn. lia.
  - intros lvl. rewrite Hc. cbn. lia.
Qed.

(** C9. The percentage formatter never divides by zero: with a zero
    denominator it returns [0.00%]; otherwise it returns the quotient times
    100 under the format 0.2f followed by a percent sign (the quotient of
    a count by a total is always a float); so when no line has a level
    every line of the distribution shows [(0.00%)], and after every pass
    the lines of the distribution are defined. *)
Theorem C9_percentage_never_divides_by_zero
    (U : UnicodeDB) (R : RandomSource) (F : FloatOps) (x d : Z)
    (g : rng) (items : list (Fs.path * text)) :
  Problem1.pct x 0 = Ok (str "0.00%")
  ∧ Problem1.pct x d =
      (if (d =? 0)%Z then Ok (str "0.00%")
       else match int_truediv x d with
            | Some q => Ok (format_2f (float_mul q (float_of_int 100)) ++ str "%")
            | None => Raise OverflowError
            end)
  ∧ Problem1.pct x d ≠ Raise ZeroDivisionError
  ∧ ((0 ≤ x ≤ d)%Z → ∃ p, Problem1.pct x d = Ok p)
  ∧ (∀ total cnts smp n g' lvl,
      Problem1.distribution_line (Problem1.State total 0 cnts smp n g') lvl =
        Ok (str "  " ++ Py.ljust 5 lvl ++ str ": "
            ++ Py.rjust 10 (Py.str_of_int (Py.counter_get cnts lvl))
            ++ str " (" ++ str "0.00%" ++ str ")" ++ [10%N]))
  ∧ ∃ st lines, Problem1.aggregate g items = Ok st
      ∧ Problem1.distribution_lines st Problem1.LEVELS = Ok lines.
Proof.
  split_and!.
  - apply PctFacts.pct_zero.
  - apply PctFacts.pct_unfold.
  - apply PctFacts.pct_no_zero_division.
  - apply PctFacts.pct_of_count.
  - done.
  - destruct (P1Facts.run_items_spec items (Problem1.init g) (P1Facts.Inv1_init g))
      as (st & Hrun & _ & _ & _ & Hl & Hc).
    destruct (PctFacts.distribution_lines_defined st Problem1.LEVELS) as [lines Hd].
    + intros lvl. rewrite Hc, Hl. unfold with_level, Py.len. cbn.
      pose proof (length_filter (fun r : Problem1.record => r.2 = lvl) (qualifying items)).
      lia.
    + by exists st, lines.
Qed.



(** C6. Scanning a directory raises the invalid-name error whenever its
    name is not accepted by the pattern, and on an accepted name it
    returns the thirteen digits and the digits after them (once the logs
    are scanned); a name is accepted when it ends in
    application_<13 digits>_<digits> and also when such a name is followed
    by a line feed.  [application_1234567890123_000001] yields
    1234567890123 and 000001; the same name followed by a line feed does
    not end in the identifier and is accepted all the same. *)
Theorem C6_name_followed_by_line_feed_is_accepted (U : UnicodeDB) (d : Fs.entry) :
  (¬ accepted (Fs.e_name d) →
     Problem2.scan_app_times d = Raise (Problem2.invalid_name (Fs.e_name d)))
  ∧ (accepted (Fs.e_name d) →
     ∃ pre d13 dn tail,
       Fs.e_name d = pre ++ str "application_" ++ d13 ++ [95%N] ++ dn ++ tail
       ∧ length d13 = 13%nat ∧ Forall (fun c => Char.is_digit c = true) d13
       ∧ dn ≠ [] ∧ Forall (fun c => Char.is_digit c = true) dn
       ∧ (tail = [] ∨ tail = [10%N])
       ∧ Problem2.scan_app_times d =
           (r ←! Problem2.scan_files (None, None) (Fs.glob_logs d);
            Ok (d13, str "application_" ++ d13 ++ str "_" ++ dn, dn, r.1, r.2)))
  ∧ (accepted (Fs.e_name d) ↔
       ends_in_identifier (Fs.e_name d)
       ∨ (∃ name', Fs.e_name d = name' ++ [10%N] ∧ ends_in_identifier name'))
  ∧ Problem2.scan_app_times (Fs.Entry Sample.app_name true []) =
      Ok (str "1234567890123", Sample.app_name, str "000001", None, None)
  ∧ Problem2.scan_app_times (Fs.Entry Sample.app_name_lf true []) =
      Ok (str "1234567890123", Sample.app_name, str "000001", None, None)
  ∧ ¬ ends_in_identifier Sample.app_name_lf.
Proof.
  split_and!.
  - apply AppDirFacts.scan_app_times_rejects.
  - apply AppDirFacts.scan_app_times_accepts.
  - apply AppDirFacts.accepted_iff.
  - by vm_compute.
  - by vm_compute.
  - intros H. apply AppDirFacts.ends_in_identifier_last in H as (c & Hl & Hc).
    vm_compute in Hl. injection Hl as <-. by vm_compute in Hc.
Qed.

(** C10. Every row of the cluster summary renders a number of
    applications of at least one and a first time that is not after the
    last time. *)
Theorem C10_summary_rows_are_consistent
    (U : UnicodeDB) (t : Fs.tree)
    (timeline : list Problem2.timeline_row) (summary : list Problem2.summary_row) :
  Problem2.main t = Ok (timeline, summary) →
  Forall summary_row_ok summary.
Proof.
  intros Hm.
  apply P2Facts.main_inv in Hm as (t' & st & _ & _ & HI & _ & Hs).
  unfold Problem2.cluster_summary_rows in Hs.
  destruct (Problem2.sorted_by_int _) as [cids|] eqn:Ec; [|done]. cbn [rbind] in Hs.
  apply P2Facts.sorted_by_int_spec in Ec as [Hperm _].
  apply P2Facts.summary_loop_spec in Hs.
  assert (Forall (fun cid => cid ∈ Py.counter_keys (Problem2.cluster_counts st)) cids)
    as Hin.
  { apply Forall_forall. intros cid Hc. by rewrite <- Hperm. }
  clear Hperm. induction Hs as [|row cid rows cids (f & l & Hf & Hl & ->) Hs IH];
    [constructor|].
  apply Forall_cons in Hin as [Hcid Hin]. constructor; [|by apply IH].
  destruct (HI cid) as [(_ & Hn & f' & l' & Hf' & Hl' & Hle) | (Hnot & _)]; [|done].
  exists (Py.counter_get (Problem2.cluster_counts st) cid), f, l.
  split_and!; [done | done | congruence].
Qed.

Lemma C10_summary_rows_are_consistent_witness :
  Problem2.main Sample.tree_9_10 = Ok (Sample.timeline_9_10, Sample.summary_9_10)
  ∧ Forall summary_row_ok Sample.summary_9_10.
Proof.
  split; [vm_compute; reflexivity|].
  apply (C10_summary_rows_are_consistent ascii_db
           Sample.tree_9_10 Sample.timeline_9_10 Sample.summary_9_10).
  vm_compute; reflexivity.
Defined.

(** C7 (amended). The rows of the cluster summary are in ascending numeric
    order of cluster_id.  The rows of the timeline are the rows of the
    application directories of the tree whose scan returns times, one for
    each of them and in the order in which the loop visits them, which is
    the order of the names of the directories compared as strings. *)
Theorem C7_summary_numeric_timeline_by_name
    (U : UnicodeDB) (t : Fs.tree)
    (timeline : list Problem2.timeline_row) (summary : list Problem2.summary_row) :
  Problem2.main t = Ok (timeline, summary) →
  (∃ ns, Forall2 (fun (row : Problem2.summary_row) n => Py.int row.1.1.1 = Ok n) summary ns
     ∧ StronglySorted Z.le ns)
  ∧ ∃ t', Fs.ensure_extracted t = Ok t'
      ∧ Forall2 row_from timeline (timeline_dirs t')
      ∧ StronglySorted name_le (Problem2.iter_app_dirs t')
      ∧ StronglySorted name_le (timeline_dirs t').
Proof.
  intros Hm.
  apply P2Facts.main_inv in Hm as (t' & st & He & Hrun & _ & -> & Hs).
  split.
  - unfold Problem2.cluster_summary_rows in Hs.
    destruct (Problem2.sorted_by_int _) as [cids|] eqn:Ec; [|done]. cbn [rbind] in Hs.
    apply P2Facts.sorted_by_int_spec in Ec as (_ & ns & Hns & Hsorted).
    apply P2Facts.summary_loop_spec in Hs.
    exists ns. split; [|done]. clear Hsorted. revert ns Hns.
    induction Hs as [|row cid rows cids (f & l & _ & _ & ->) Hs IH]; intros ns Hns.
    + inversion Hns. constructor.
    + inversion Hns as [|? n ? ns' Hn Hns']; subst. constructor; [done | by apply IH].
  - exists t'. split; [done|].
    apply StatsFacts.run_rows in Hrun as (rows & Hrows & Hfrom).
    cbn in Hrows. rewrite Hrows.
    pose proof (StatsFacts.iter_app_dirs_sorted t') as Hsorted.
    split_and!; [done | done |].
    eapply PyFacts.StronglySorted_sublist; [apply sublist_filter | exact Hsorted].
Qed.

Lemma C7_summary_numeric_timeline_by_name_witness :
  Problem2.main Sample.tree_9_10 = Ok (Sample.timeline_9_10, Sample.summary_9_10)
  ∧ timeline_dirs Sample.tree_9_10 = Problem2.iter_app_dirs Sample.tree_9_10
  ∧ (∃ ns, Forall2 (fun (row : Problem2.summary_row) n => Py.int row.1.1.1 = Ok n)
             Sample.summary_9_10 ns
       ∧ StronglySorted Z.le ns)
  ∧ ∃ t', Fs.ensure_extracted Sample.tree_9_10 = Ok t'
      ∧ Forall2 row_from Sample.timeline_9_10 (timeline_dirs t')
      ∧ StronglySorted name_le (Problem2.iter_app_dirs t')
      ∧ StronglySorted name_le (timeline_dirs t').
Proof.
  split; [vm_compute; reflexivity|]. split; [vm_compute; reflexivity|].
  apply (C7_summary_numeric_timeline_by_name ascii_db
           Sample.tree_9_10 Sample.timeline_9_10 Sample.summary_9_10).
  vm_compute; reflexivity.
Defined.

(** With applications 9 and 10 of one cluster the timeline lists 10 before
    9: its rows are not in ascending numeric order. *)
Lemma C7_counterexample_timeline_not_numeric :
  Problem2.main Sample.tree_9_10 = Ok (Sample.timeline_9_10, Sample.summary_9_10)
  ∧ timeline_numeric Sample.timeline_9_10 = false.
Proof. split; vm_compute; reflexivity. Qed.

(** C8 (amended). A file matched by the walk that cannot be read is not
    skipped: the walk yields the lines of the files matched before it and
    what was read of that file, then the error ends the walk and the run;
    no line of a later file is yielded; scanning an application directory
    that holds such a file raises as well.  A missing archive, when no
    application directory is there, is fatal too. *)
Theorem C8_walk_ends_at_unreadable_file
    (U : UnicodeDB) (R : RandomSource) (g : rng) (t t' : Fs.tree)
    (fs1 : list (text * Fs.file)) (dir : text) (f : Fs.file) (e : exn)
    (fs2 : list (text * Fs.file)) :
  Fs.ensure_extracted t = Ok t' →
  matched_logs t' = fs1 ++ (dir, f) :: fs2 →
  all_readable fs1 →
  Fs.f_fail f = Some e →
  Problem1.iter_log_lines t' =
    (concat (List.map (fun df : text * Fs.file => yielded df.1 df.2) fs1)
       ++ yielded dir f, Some e)
  ∧ Problem1.main g t = Raise e
  ∧ (∀ d, f ∈ Fs.glob_logs d → ∃ e', Problem2.scan_app_times d = Raise e')
  ∧ ∀ t0, Fs.glob_applications t0 = [] → Fs.archive t0 = None →
      Problem1.main g t0 = Raise Fs.archive_missing
      ∧ Problem2.main t0 = Raise Fs.archive_missing.
Proof.
  intros He Hm Hok Hf.
  assert (Problem1.iter_log_lines t' =
            (concat (List.map (fun df : text * Fs.file => yielded df.1 df.2) fs1)
               ++ yielded dir f, Some e)) as Hwalk.
  { rewrite WalkFacts.iter_log_lines_spec, Hm.
    by apply WalkFacts.walk_until_failure_stops. }
  split_and!; [done| | |].
  - by eapply P1Facts.main_aborts.
  - intros d Hd. by eapply P2Facts.scan_app_times_unreadable.
  - intros t0 Hg Ha.
    assert (Fs.ensure_extracted t0 = Raise Fs.archive_missing) as Hx
      by (apply WalkFacts.ensure_extracted_fatal; done).
    unfold Problem1.main, Problem2.main. by rewrite Hx.
Qed.

Lemma C8_walk_ends_at_unreadable_file_witness :
  Fs.ensure_extracted Sample.tree_unreadable = Ok Sample.tree_unreadable
  ∧ matched_logs Sample.tree_unreadable =
      [] ++ (str "application_1234567890123_0001", Sample.unreadable)
         :: [(str "application_1234567890123_0001", Sample.readable)]
  ∧ all_readable []
  ∧ Fs.f_fail Sample.unreadable = Some Sample.denied
  ∧ Problem1.iter_log_lines Sample.tree_unreadable = ([], Some Sample.denied)
  ∧ Problem1.main (R := Lcg.source) 42%Z Sample.tree_unreadable = Raise Sample.denied.
Proof.
  split; [vm_compute; reflexivity|].
  split; [vm_compute; reflexivity|].
  split; [constructor|].
  split; [reflexivity|].
  pose proof (C8_walk_ends_at_unreadable_file ascii_db Lcg.source 42%Z
                Sample.tree_unreadable Sample.tree_unreadable
                [] (str "application_1234567890123_0001") Sample.unreadable
                Sample.denied
                [(str "application_1234567890123_0001", Sample.readable)]
                eq_refl eq_refl (Forall_nil_2 _) eq_refl) as (H1 & H2 & _).
  split; [exact H1 | exact H2].
Defined.

(** One application directory whose first log cannot be opened: the walk
    yields nothing and fails, where a tolerant walk would yield the line of
    the second log; both reports abort. *)
Lemma C8_counterexample_unreadable_file_is_fatal :
  Problem1.iter_log_lines Sample.tree_unreadable = ([], Some Sample.denied)
  ∧ tolerant_walk (matched_logs Sample.tree_unreadable) =
      ([((str "application_1234567890123_0001", str "b.log"), Sample.started)], None)
  ∧ Problem1.iter_log_lines Sample.tree_unreadable
      ≠ tolerant_walk (matched_logs Sample.tree_unreadable)
  ∧ Problem1.main (R := Lcg.source) 42%Z Sample.tree_unreadable = Raise Sample.denied
  ∧ Problem2.main Sample.tree_unreadable = Raise Sample.denied.
Proof.
  assert (Problem1.iter_log_lines Sample.tree_unreadable = ([], Some Sample.denied))
    as Hwalk by (vm_compute; reflexivity).
  assert (tolerant_walk (matched_logs Sample.tree_unreadable) =
            ([((str "application_1234567890123_0001", str "b.log"), Sample.started)],
             None)) as Htol by (vm_compute; reflexivity).
  split; [exact Hwalk|]. split; [exact Htol|].
  split; [rewrite Hwalk, Htol; intros H; discriminate H|].
  split; [|vm_compute; reflexivity].
  eapply P1Facts.main_aborts; [|exact Hwalk]. vm_compute; reflexivity.
Qed.

(** * Further properties *)

Local Open Scope Z_scope.

(** ** The level report *)

(** X1. [reservoir_sample] never raises, for any capacity [k] (zero and
    negative ones included), predicate and generator; its sample holds
    max(0, min(k, n)) items, [n] being the number of items that satisfy the
    predicate, and every item of the sample is one of these. *)
Theorem X1_reservoir_sample_is_bounded
    (U : UnicodeDB) (R : RandomSource) (items : list (Fs.path * text)) (k : Z)
    (predicate : text → bool) (g : rng) :
  ∃ smp g', Problem1.reservoir_sample items k predicate g = Ok (smp, g')
    ∧ Py.len smp =
        Z.max 0 (Z.min k (Py.len (filter (fun item : Fs.path * text =>
                                            predicate item.2 = true) items)))
    ∧ Forall (fun item : Fs.path * text => item ∈ items ∧ predicate item.2 = true) smp.
Proof.
  unfold Problem1.reservoir_sample.
  rewrite P1Facts.reservoir_loop_spec by (try done; unfold Py.len; cbn [length]; lia).
  set (qs := filter _ items).
  destruct (algorithm_R k 0 qs ([], g)) as [smp g'] eqn:E.
  exists smp, g'. split; [done|]. split.
  - pose proof (SamplerFacts.algorithm_R_length k qs 0 [] g ltac:(lia)) as H.
    rewrite E in H. cbn [fst] in H. rewrite H; [f_equal; f_equal; lia|].
    unfold Py.len. cbn [length]. lia.
  - pose proof (SamplerFacts.algorithm_R_members
                  (fun item : Fs.path * text => item ∈ items ∧ predicate item.2 = true)
                  k qs 0 [] g) as H.
    rewrite E in H. apply H; [constructor|].
    apply Forall_forall. intros x Hx. by apply list_elem_of_filter in Hx as [? ?].
Qed.

(** X2. When at most ten lines of the stream have a level, the sample of
    [main] is the list of these lines in the order of the stream, no
    random number is drawn (the generator is left as it was), and
    [reservoir_sample] with capacity ten returns the same lines. *)
Theorem X2_few_lines_are_all_sampled
    (U : UnicodeDB) (R : RandomSource) (g : rng) (items : list (Fs.path * text)) :
  Py.len (qualifying items) ≤ 10 →
  (∃ st, Problem1.aggregate g items = Ok st
     ∧ Problem1.sample st = qualifying items ∧ Problem1.gen st = g)
  ∧ Problem1.reservoir_sample items 10 Problem1.has_level g =
      Ok (filter (fun item : Fs.path * text => Problem1.has_level item.2 = true) items, g).
Proof.
  intros Hfew. split.
  - destruct (P1Facts.run_items_spec items (Problem1.init g) (P1Facts.Inv1_init g))
      as (st & Hrun & _ & _ & Hs & _).
    exists st. split; [exact Hrun|]. cbn [Problem1.init Problem1.sample Problem1.gen
      Problem1.level_lines] in Hs.
    rewrite SamplerFacts.algorithm_R_few in Hs by (unfold Problem1.k; lia).
    by injection Hs as -> ->.
  - unfold Problem1.reservoir_sample.
    rewrite P1Facts.reservoir_loop_spec by (try done; unfold Py.len; cbn [length]; lia).
    rewrite SamplerFacts.algorithm_R_few; [done|].
    rewrite <- SamplerFacts.qualifying_fst. unfold Py.len in *.
    rewrite length_fmap, Z.add_0_l. exact Hfew.
Qed.

Lemma X2_few_lines_are_all_sampled_witness :
  Py.len (qualifying Sample.few) ≤ 10
  ∧ (∃ st, Problem1.aggregate (R := Lcg.source) 42 Sample.few = Ok st
       ∧ Problem1.sample st = qualifying Sample.few ∧ Problem1.gen st = 42)
  ∧ Problem1.reservoir_sample (R := Lcg.source) Sample.few 10
      Problem1.has_level 42 =
      Ok (filter (fun item : Fs.path * text => Problem1.has_level item.2 = true)
            Sample.few, 42).
Proof.
  assert (Py.len (qualifying Sample.few) ≤ 10) as H
    by (vm_compute; discriminate).
  split; [exact H|].
  exact (X2_few_lines_are_all_sampled ascii_db Lcg.source 42 Sample.few H).
Defined.

(** X3. The sampler written inline in [main] agrees with the function
    [reservoir_sample]: called on the same stream with capacity ten, the
    predicate [has_level] and the same generator, the function returns the
    sampled records of [main] without their level, and leaves the generator
    in the same state.  Every sampled record is a line of the stream with
    the level found in it. *)
Theorem X3_inline_sampler_agrees_with_reservoir_sample
    (U : UnicodeDB) (R : RandomSource) (g : rng) (items : list (Fs.path * text)) :
  ∃ st, Problem1.aggregate g items = Ok st
    ∧ Problem1.reservoir_sample items 10 Problem1.has_level g =
        Ok (fst <$> Problem1.sample st, Problem1.gen st)
    ∧ Forall (fun r : Problem1.record =>
                ∃ m, r.1 ∈ items ∧ search Problem1.LEVEL_RE r.1.2 = Some m
                  ∧ r.2 = Problem1.group1 m ∧ r.2 ∈ Problem1.LEVELS)
        (Problem1.sample st).
Proof.
  destruct (P1Facts.run_items_spec items (Problem1.init g) (P1Facts.Inv1_init g))
    as (st & Hrun & _ & _ & Hs & _).
  exists st. split; [exact Hrun|].
  cbn [Problem1.init Problem1.sample Problem1.gen Problem1.level_lines] in Hs.
  unfold Problem1.k in Hs. split.
  - unfold Problem1.reservoir_sample.
    rewrite P1Facts.reservoir_loop_spec by (try done; unfold Py.len; cbn [length]; lia).
    rewrite <- SamplerFacts.qualifying_fst.
    change (@nil (Fs.path * text)) with (fst <$> (@nil Problem1.record)).
    rewrite SamplerFacts.algorithm_R_fmap. symmetry.
    exact (f_equal (fun p : list Problem1.record * rng => Ok (fst <$> p.1, p.2)) Hs).
  - pose proof (SamplerFacts.algorithm_R_members
                  (fun r : Problem1.record => r ∈ qualifying items)
                  10 (qualifying items) 0 [] g) as H.
    rewrite <- Hs in H. cbn [fst] in H.
    eapply Forall_impl; [apply H; [constructor | by apply Forall_forall]|].
    intros r (m & Hin & Hm & Hg)%SamplerFacts.qualifying_elem.
    exists m. split_and!; try done. rewrite Hg. by eapply P1Facts.search_level_group.
Qed.

(** X4. After a pass the counts table lists exactly the levels that were
    met in at least one line, in the fixed order INFO, WARN, ERROR, DEBUG,
    each with the number of lines in which it was detected; the number
    that the summary announces as unique levels is the number of rows of
    this table. *)
Theorem X4_counts_table_lists_the_levels_found
    (U : UnicodeDB) (R : RandomSource) (g : rng) (items : list (Fs.path * text)) :
  ∃ st, Problem1.aggregate g items = Ok st
    ∧ Problem1.counts_rows st =
        List.map (fun lvl => lvl ++ str "," ++
                    Py.str_of_int (with_level lvl (qualifying items)) ++ [10%N])
          (filter (fun lvl => 0 < with_level lvl (qualifying items)) Problem1.LEVELS)
    ∧ Problem1.unique_levels st = Py.len (Problem1.counts_rows st).
Proof.
  destruct (P1Facts.run_items_spec items (Problem1.init g) (P1Facts.Inv1_init g))
    as (st & Hrun & _ & _ & _ & _ & Hc).
  exists st. split; [exact Hrun|]. split.
  - rewrite SamplerFacts.counts_rows_filter.
    assert (∀ lvl, Py.counter_get (Problem1.counts st) lvl =
                   with_level lvl (qualifying items)) as Hc'.
    { intros lvl. rewrite Hc. cbn. lia. }
    induction Problem1.LEVELS as [|lvl lvls IH]; [done|].
    rewrite !filter_cons, Hc'.
    destruct (decide (0 < with_level lvl (qualifying items))); cbn [List.map];
      by rewrite ?Hc', IH.
  - apply SamplerFacts.unique_levels_rows.
    eapply SamplerFacts.run_tidy; [|exact Hrun].
    split_and!; constructor.
Qed.

(** X5. The quoting of the sample table loses nothing: two samples that
    are written as the same rows hold the same lines with the same levels.
    (A line is written between double quotes with its own double quotes
    doubled.) *)
Theorem X5_sample_table_quoting_is_injective
    (U : UnicodeDB) (R : RandomSource) (st1 st2 : Problem1.state) :
  Problem1.sample_rows st1 = Problem1.sample_rows st2 →
  List.map (fun r : Problem1.record => (r.1.2, r.2)) (Problem1.sample st1) =
    List.map (fun r : Problem1.record => (r.1.2, r.2)) (Problem1.sample st2).
Proof. apply SamplerFacts.sample_rows_inj. Qed.

Lemma X5_sample_table_quoting_is_injective_witness :
  Problem1.sample_rows (Sample.sampled Lcg.source 42 "f")
    = Problem1.sample_rows (Sample.sampled Lcg.source 7 "g")
  ∧ List.map (fun r : Problem1.record => (r.1.2, r.2))
      (Problem1.sample (Sample.sampled Lcg.source 42 "f")) =
    List.map (fun r : Problem1.record => (r.1.2, r.2))
      (Problem1.sample (Sample.sampled Lcg.source 7 "g")).
Proof.
  split; [reflexivity|].
  apply (X5_sample_table_quoting_is_injective ascii_db Lcg.source
           (Sample.sampled Lcg.source 42 "f") (Sample.sampled Lcg.source 7 "g")).
  reflexivity.
Defined.

(** X6. The level report succeeds exactly when the archive step succeeds
    and every log file matched by the walk can be read to its end; the
    number of lines it then reports as processed is the number of lines of
    all these files. *)
Theorem X6_level_report_succeeds_iff_logs_are_readable
    (U : UnicodeDB) (R : RandomSource) (g : rng) (t : Fs.tree) :
  ((∃ st, Problem1.main g t = Ok st)
   ↔ ∃ t', Fs.ensure_extracted t = Ok t' ∧ all_readable (matched_logs t'))
  ∧ ∀ st, Problem1.main g t = Ok st →
      ∃ t', Fs.ensure_extracted t = Ok t'
        ∧ Problem1.total_lines st =
            Py.len (concat (List.map (fun df : text * Fs.file => Fs.f_lines df.2)
                              (matched_logs t'))).
Proof.
  split; [split|].
  - intros [st H]. apply LineFacts.main_inv1 in H as (t' & ? & ? & _). by exists t'.
  - intros (t' & He & Hok). rewrite (LineFacts.main_readable g t t' He Hok).
    apply P1Facts.aggregate_total.
  - intros st H. apply LineFacts.main_inv1 in H as (t' & He & _ & Ha). exists t'.
    split; [done|]. revert Ha.
    set (items := concat _). intros Ha.
    destruct (P1Facts.run_items_spec items (Problem1.init g) (P1Facts.Inv1_init g))
      as (st' & Hrun & _ & Ht & _).
    unfold Problem1.aggregate in Ha. rewrite Ha in Hrun. injection Hrun as <-.
    rewrite Ht. subst items. cbn [Problem1.init Problem1.total_lines]. unfold Py.len.
    rewrite Z.add_0_l. f_equal. apply LineFacts.length_yielded_all.
Qed.

(** X7. Every line that the walk yields is a line of a matched log file
    without the line feeds at its end: it does not end in a line feed, and
    the line of the file is the yielded line followed by line feeds
    only. *)
Theorem X7_yielded_lines_end_without_line_feed
    (t : Fs.tree) (item : Fs.path * text) :
  item ∈ (Problem1.iter_log_lines t).1 →
  last item.2 ≠ Some 10%N
  ∧ ∃ dir f line n, (dir, f) ∈ matched_logs t ∧ line ∈ Fs.f_lines f
      ∧ item.1 = (dir, Fs.f_name f) ∧ line = item.2 ++ replicate n 10%N.
Proof.
  rewrite WalkFacts.iter_log_lines_spec.
  intros (dir & f & Hin & Hy)%LineFacts.walk_until_failure_elem.
  unfold yielded in Hy. apply list_elem_of_fmap in Hy as (line & -> & Hline).
  cbn [fst snd]. destruct (LineFacts.rstrip_spec 10%N line) as (n & Hn & Hl).
  split; [done|]. by exists dir, f, line, n.
Qed.

Lemma X7_yielded_lines_end_without_line_feed_witness :
  Sample.first_item ∈ (Problem1.iter_log_lines Sample.tree_9_10).1
  ∧ last Sample.first_item.2 ≠ Some 10%N
  ∧ ∃ dir f line n, (dir, f) ∈ matched_logs Sample.tree_9_10 ∧ line ∈ Fs.f_lines f
      ∧ Sample.first_item.1 = (dir, Fs.f_name f)
      ∧ line = Sample.first_item.2 ++ replicate n 10%N.
Proof.
  assert (Sample.first_item ∈ (Problem1.iter_log_lines Sample.tree_9_10).1) as H
    by (vm_compute; apply list_elem_of_here).
  split; [exact H|].
  exact (X7_yielded_lines_end_without_line_feed Sample.tree_9_10 Sample.first_item H).
Defined.

(** X8. With binary64 floats the share of a level that was met in no line
    is written 0.00%, whatever the number of lines with a level, zero
    included: the percentage never divides by zero. *)
Theorem X8_absent_level_is_zero_percent (d : Z) :
  0 ≤ d → Problem1.pct (F := Binary64.ops) 0 d = Ok (str "0.00%").
Proof.
  intros Hd. destruct (decide (d = 0)) as [-> | Hn]; [reflexivity|].
  apply OutputFacts.pct_of_zero. lia.
Qed.

Lemma X8_absent_level_is_zero_percent_witness :
  0 ≤ 7 ∧ Problem1.pct (F := Binary64.ops) 0 7 = Ok (str "0.00%").
Proof. split; [lia | apply (X8_absent_level_is_zero_percent 7); lia]. Defined.

(** ** The time-range report *)

(** X9. For a timestamp written as the logs write it (YY/MM/DD HH:MM:SS in
    ASCII digits, one space), the parser returns the instant of the year
    2000 + YY exactly when the six numbers are a date and a time of day
    that exist (month 1..12, day within the month, hour below 24, minute
    and second below 60); for every other such text it raises a
    ValueError. *)
Theorem X9_parser_accepts_exactly_the_real_times
    (U : UnicodeDB) (yy mm dd HH MM SS : Z) :
  0 ≤ yy ≤ 99 → 0 ≤ mm ≤ 99 → 0 ≤ dd ≤ 99 → 0 ≤ HH ≤ 99 → 0 ≤ MM ≤ 99 → 0 ≤ SS ≤ 99 →
  if civil yy mm dd HH MM SS
  then Problem2.parse_ts (stamp yy mm dd HH MM SS) =
         Ok (Datetime.DT (2000 + yy) mm dd HH MM SS)
  else ∃ msg, Problem2.parse_ts (stamp yy mm dd HH MM SS) = Raise (ValueError msg).
Proof. apply StampFacts.parse_ts_stamp. Qed.

Lemma X9_parser_accepts_exactly_the_real_times_witness :
  0 ≤ 17 ≤ 99 ∧ 0 ≤ 3 ≤ 99 ∧ 0 ≤ 29 ≤ 99 ∧ 0 ≤ 10 ≤ 99 ∧ 0 ≤ 4 ≤ 99 ∧ 0 ≤ 41 ≤ 99
  ∧ civil 17 3 29 10 4 41 = true
  ∧ stamp 17 3 29 10 4 41 = Sample.started_ts
  ∧ Problem2.parse_ts (stamp 17 3 29 10 4 41) = Ok Sample.started_dt.
Proof.
  do 6 (split; [lia|]). split; [reflexivity|]. split; [reflexivity|].
  exact (X9_parser_accepts_exactly_the_real_times ascii_db 17 3 29 10 4 41
           ltac:(lia) ltac:(lia) ltac:(lia) ltac:(lia) ltac:(lia) ltac:(lia)).
Defined.

(** X10. Parsing a timestamp of the logs and formatting the result gives
    the same digits back: YY/MM/DD HH:MM:SS becomes 20YY-MM-DD HH:MM:SS. *)
Theorem X10_timestamp_round_trip
    (U : UnicodeDB) (yy mm dd HH MM SS : Z) :
  0 ≤ yy ≤ 99 → 0 ≤ HH → 0 ≤ MM → 0 ≤ SS →
  civil yy mm dd HH MM SS = true →
  ∃ dt, Problem2.parse_ts (stamp yy mm dd HH MM SS) = Ok dt
    ∧ Problem2.format_dt dt = rendered yy mm dd HH MM SS.
Proof.
  intros Hy HH' HM HS Hc.
  pose proof (TableFacts.civil_range _ _ _ _ _ _ Hc HH' HM HS) as (? & ? & ? & ? & ?).
  pose proof (StampFacts.parse_ts_stamp yy mm dd HH MM SS) as Hp.
  rewrite Hc in Hp. eexists. split; [by apply Hp|].
  by apply RenderFacts.strftime_rendered.
Qed.

Lemma X10_timestamp_round_trip_witness :
  0 ≤ 17 ≤ 99 ∧ 0 ≤ 10 ∧ 0 ≤ 4 ∧ 0 ≤ 41 ∧ civil 17 3 29 10 4 41 = true
  ∧ rendered 17 3 29 10 4 41 = str "2017-03-29 10:04:41"
  ∧ ∃ dt, Problem2.parse_ts (stamp 17 3 29 10 4 41) = Ok dt
      ∧ Problem2.format_dt dt = rendered 17 3 29 10 4 41.
Proof.
  do 4 (split; [lia|]). split; [reflexivity|]. split; [reflexivity|].
  exact (X10_timestamp_round_trip ascii_db 17 3 29 10 4 41
           ltac:(lia) ltac:(lia) ltac:(lia) ltac:(lia) eq_refl).
Defined.

(** X11. One log line that opens with a timestamp-shaped text that is no
    date or time of day (month 13, hour 99, ...) makes the whole time-range
    report fail: no table is written. *)
Theorem X11_impossible_timestamp_aborts_the_report
    (U : UnicodeDB) (t t' : Fs.tree) (d : Fs.entry) (f : Fs.file)
    (yy mm dd HH MM SS : Z) (tail : text) :
  0 ≤ yy ≤ 99 → 0 ≤ mm ≤ 99 → 0 ≤ dd ≤ 99 → 0 ≤ HH ≤ 99 → 0 ≤ MM ≤ 99 → 0 ≤ SS ≤ 99 →
  civil yy mm dd HH MM SS = false →
  Fs.ensure_extracted t = Ok t' →
  d ∈ Problem2.iter_app_dirs t' →
  f ∈ Fs.glob_logs d →
  stamp yy mm dd HH MM SS ++ tail ∈ Fs.f_lines f →
  (∀ r, ∃ msg, Problem2.scan_line r (stamp yy mm dd HH MM SS ++ tail)
               = Raise (ValueError msg))
  ∧ ∃ e, Problem2.main t = Raise e.
Proof.
  intros Hy Hm Hd HH' HM HS Hc He Hin Hf Hl.
  assert (∀ r, ∃ msg, Problem2.scan_line r (stamp yy mm dd HH MM SS ++ tail)
                      = Raise (ValueError msg)) as Hraise.
  { intros r. pose proof (RenderFacts.scan_line_stamp r yy mm dd HH MM SS tail
                            Hy Hm Hd HH' HM HS) as H. by rewrite Hc in H. }
  split; [done|].
  eapply RenderFacts.main_raises; [done | done |].
  eapply RenderFacts.scan_app_times_raises; [done | done |].
  intros r. destruct (Hraise r) as [msg ->]. by eexists.
Qed.

Lemma X11_impossible_timestamp_aborts_the_report_witness :
  civil 17 13 45 99 99 99 = false
  ∧ Fs.ensure_extracted Sample.tree_no_date = Ok Sample.tree_no_date
  ∧ stamp 17 13 45 99 99 99 ++ (str " INFO Started" ++ [10%N])
      = Sample.no_date ++ [10%N]
  ∧ (∀ r, ∃ msg, Problem2.scan_line r
                   (stamp 17 13 45 99 99 99 ++ (str " INFO Started" ++ [10%N]))
                 = Raise (ValueError msg))
  ∧ ∃ e, Problem2.main Sample.tree_no_date = Raise e.
Proof.
  split; [reflexivity|]. split; [reflexivity|]. split; [reflexivity|].
  apply (X11_impossible_timestamp_aborts_the_report ascii_db
           Sample.tree_no_date Sample.tree_no_date Sample.app_no_date
           (Sample.log "container.log" ["17/13/45 99:99:99 INFO Started"%string])
           17 13 45 99 99 99 (str " INFO Started" ++ [10%N]));
    try lia; try reflexivity; vm_compute; apply list_elem_of_here.
Defined.

(** X12. The start and the end that [scan_app_times] returns are the
    earliest and the latest of the times of the lines of the logs of the
    directory: every such time lies between them, and each of them is the
    time of one of the lines.  Both are absent exactly when no line of the
    logs has a time. *)
Theorem X12_scan_finds_the_earliest_and_the_latest_time
    (U : UnicodeDB) (d : Fs.entry) (cid aid num : text)
    (s e : option Datetime.datetime) :
  Problem2.scan_app_times d = Ok (cid, aid, num, s, e) →
  (∀ dt, seen (Fs.glob_logs d) dt →
     ∃ s' e', s = Some s' ∧ e = Some e'
       ∧ Datetime.le s' dt = true ∧ Datetime.le dt e' = true)
  ∧ (∀ s', s = Some s' → seen (Fs.glob_logs d) s')
  ∧ (∀ e', e = Some e' → seen (Fs.glob_logs d) e')
  ∧ (s = None ↔ ∀ dt, ¬ seen (Fs.glob_logs d) dt)
  ∧ (s = None ↔ e = None).
Proof.
  intros H. pose proof (ScanFacts.scan_app_times_extremes _ _ _ _ _ _ H) as (H1 & H2 & H3).
  pose proof (ScanFacts.scan_app_times_none _ _ _ _ _ _ H) as (H4 & H5).
  done.
Qed.

Lemma X12_scan_finds_the_earliest_and_the_latest_time_witness :
  Problem2.scan_app_times Sample.app_9 =
    Ok (Sample.cluster, str "application_1234567890123_9", str "9",
        Some Sample.started_dt, Some Sample.slow_dt)
  ∧ (∀ dt, seen (Fs.glob_logs Sample.app_9) dt →
       ∃ s' e', Some Sample.started_dt = Some s' ∧ Some Sample.slow_dt = Some e'
         ∧ Datetime.le s' dt = true ∧ Datetime.le dt e' = true).
Proof.
  assert (Problem2.scan_app_times Sample.app_9 =
    Ok (Sample.cluster, str "application_1234567890123_9", str "9",
        Some Sample.started_dt, Some Sample.slow_dt)) as H
    by (vm_compute; reflexivity).
  split; [exact H|].
  exact (proj1 (X12_scan_finds_the_earliest_and_the_latest_time ascii_db _ _ _ _ _ _ H)).
Defined.

(** X13. An application directory with an accepted name whose logs can be
    read and hold no line that opens with a timestamp (a directory without
    any log included) is skipped: the loop leaves its accumulators as they
    were, so the directory gets no row and is not counted. *)
Theorem X13_application_without_timestamps_is_skipped
    (U : UnicodeDB) (st : Problem2.state) (d : Fs.entry) :
  accepted (Fs.e_name d) →
  Forall (fun f => Fs.f_fail f = None
                   ∧ Forall (fun line => match_ Problem2.TS_RE line = None)
                       (Fs.f_lines f))
    (Fs.glob_logs d) →
  Problem2.step st d = Ok st.
Proof. apply OutputFacts.step_plain. Qed.

Lemma X13_application_without_timestamps_is_skipped_witness :
  accepted (Fs.e_name Sample.app_silent)
  ∧ Forall (fun f => Fs.f_fail f = None
                     ∧ Forall (fun line => match_ Problem2.TS_RE line = None)
                         (Fs.f_lines f))
      (Fs.glob_logs Sample.app_silent)
  ∧ Problem2.step Sample.state_9_10 Sample.app_silent = Ok Sample.state_9_10.
Proof.
  assert (accepted (Fs.e_name Sample.app_silent)) as Ha.
  { exists [], (str "1234567890123"), (str "000001"), [].
    split_and!; try reflexivity; try (by left); try done; by repeat constructor. }
  assert (Forall (fun f => Fs.f_fail f = None
                     ∧ Forall (fun line => match_ Problem2.TS_RE line = None)
                         (Fs.f_lines f))
      (Fs.glob_logs Sample.app_silent)) as Hf.
  { vm_compute. repeat constructor. }
  split; [exact Ha|]. split; [exact Hf|].
  exact (X13_application_without_timestamps_is_skipped ascii_db
           Sample.state_9_10 Sample.app_silent Ha Hf).
Defined.

(** X14. In the cluster summary the first and the last time of a cluster
    are the earliest start and the latest end of its applications: they
    bound the time range of every application of the cluster that was
    scanned, and each is the start, respectively the end, of one of
    them. *)
Theorem X14_cluster_times_are_the_extremes_of_its_applications
    (U : UnicodeDB) (t : Fs.tree)
    (timeline : list Problem2.timeline_row) (summary : list Problem2.summary_row) :
  Problem2.main t = Ok (timeline, summary) →
  ∃ t', Fs.ensure_extracted t = Ok t'
    ∧ Forall (fun row : Problem2.summary_row =>
        ∃ f l, row.1.2 = Problem2.format_dt f ∧ row.2 = Problem2.format_dt l
          ∧ (∀ d s e, d ∈ Problem2.iter_app_dirs t' → app_of row.1.1.1 d s e →
               Datetime.le f s = true ∧ Datetime.le e l = true)
          ∧ (∃ d e, d ∈ Problem2.iter_app_dirs t' ∧ app_of row.1.1.1 d f e)
          ∧ (∃ d s, d ∈ Problem2.iter_app_dirs t' ∧ app_of row.1.1.1 d s l)) summary.
Proof. apply ReportFacts.summary_extremes. Qed.

Lemma X14_cluster_times_are_the_extremes_of_its_applications_witness :
  Problem2.main Sample.tree_9_10 = Ok (Sample.timeline_9_10, Sample.summary_9_10)
  ∧ ∃ t', Fs.ensure_extracted Sample.tree_9_10 = Ok t'
    ∧ Forall (fun row : Problem2.summary_row =>
        ∃ f l, row.1.2 = Problem2.format_dt f ∧ row.2 = Problem2.format_dt l
          ∧ (∀ d s e, d ∈ Problem2.iter_app_dirs t' → app_of row.1.1.1 d s e →
               Datetime.le f s = true ∧ Datetime.le e l = true)
          ∧ (∃ d e, d ∈ Problem2.iter_app_dirs t' ∧ app_of row.1.1.1 d f e)
          ∧ (∃ d s, d ∈ Problem2.iter_app_dirs t' ∧ app_of row.1.1.1 d s l))
        Sample.summary_9_10.
Proof.
  split; [vm_compute; reflexivity|].
  apply (X14_cluster_times_are_the_extremes_of_its_applications ascii_db
           Sample.tree_9_10 Sample.timeline_9_10 Sample.summary_9_10).
  vm_compute; reflexivity.
Defined.

(** X15. The two tables agree: the clusters of the summary are distinct,
    they are the clusters that occur in the timeline, and the number of
    applications of a cluster in the summary is the number of rows of the
    timeline with that cluster. *)
Theorem X15_summary_counts_match_the_timeline
    (U : UnicodeDB) (t : Fs.tree)
    (timeline : list Problem2.timeline_row) (summary : list Problem2.summary_row) :
  Problem2.main t = Ok (timeline, summary) →
  NoDup ((fun row : Problem2.summary_row => row.1.1.1) <$> summary)
  ∧ (∀ cid, cid ∈ (fun row : Problem2.summary_row => row.1.1.1) <$> summary
            ↔ cid ∈ cluster_of <$> timeline)
  ∧ Forall (fun row : Problem2.summary_row =>
              row.1.1.2 =
                Py.str_of_int
                  (Py.len (filter (fun r => cluster_of r = row.1.1.1) timeline)))
      summary.
Proof. apply ReportFacts.summary_counts. Qed.

Lemma X15_summary_counts_match_the_timeline_witness :
  Problem2.main Sample.tree_9_10 = Ok (Sample.timeline_9_10, Sample.summary_9_10)
  ∧ NoDup ((fun row : Problem2.summary_row => row.1.1.1) <$> Sample.summary_9_10)
  ∧ (∀ cid, cid ∈ (fun row : Problem2.summary_row => row.1.1.1) <$> Sample.summary_9_10
            ↔ cid ∈ cluster_of <$> Sample.timeline_9_10)
  ∧ Forall (fun row : Problem2.summary_row =>
              row.1.1.2 =
                Py.str_of_int
                  (Py.len (filter (fun r => cluster_of r = row.1.1.1)
                             Sample.timeline_9_10)))
      Sample.summary_9_10.
Proof.
  split; [vm_compute; reflexivity|].
  apply (X15_summary_counts_match_the_timeline ascii_db
           Sample.tree_9_10 Sample.timeline_9_10 Sample.summary_9_10).
  vm_compute; reflexivity.
Defined.

(** X16. Every row of the timeline is made of thirteen digits, the
    identifier application_<these digits>_<number>, the digits of the
    number, and two times 20YY-MM-DD HH:MM:SS of dates and times of day
    that exist; every row of the cluster summary is made of thirteen
    digits, a count of at least one and two such times. *)
Theorem X16_rows_have_a_fixed_shape
    (U : UnicodeDB) (t : Fs.tree)
    (timeline : list Problem2.timeline_row) (summary : list Problem2.summary_row) :
  Problem2.main t = Ok (timeline, summary) →
  Forall timeline_shape timeline ∧ Forall summary_shape summary.
Proof. apply ReportFacts.shapes. Qed.

Lemma X16_rows_have_a_fixed_shape_witness :
  Problem2.main Sample.tree_9_10 = Ok (Sample.timeline_9_10, Sample.summary_9_10)
  ∧ Forall timeline_shape Sample.timeline_9_10
  ∧ Forall summary_shape Sample.summary_9_10.
Proof.
  split; [vm_compute; reflexivity|].
  apply (X16_rows_have_a_fixed_shape ascii_db
           Sample.tree_9_10 Sample.timeline_9_10 Sample.summary_9_10).
  vm_compute; reflexivity.
Defined.

(** X17. The tables need no quoting: [write_csv] joins the fields with
    commas as they are, and no field of a row holds a comma or a line feed.
    So each line of the timeline has exactly four commas, each line of the
    cluster summary exactly three, and each file has one line feed for its
    header and one for each row. *)
Theorem X17_lines_have_a_fixed_number_of_fields
    (U : UnicodeDB) (t : Fs.tree)
    (timeline : list Problem2.timeline_row) (summary : list Problem2.summary_row) :
  Problem2.main t = Ok (timeline, summary) →
  Forall (fun row => occurrences 44 (Py.join (str ",") (Problem2.timeline_fields row))
                     = 4%nat
                     ∧ occurrences 10 (Py.join (str ",") (Problem2.timeline_fields row))
                       = 0%nat) timeline
  ∧ Forall (fun row => occurrences 44 (Py.join (str ",") (Problem2.summary_fields row))
                       = 3%nat
                       ∧ occurrences 10 (Py.join (str ",") (Problem2.summary_fields row))
                         = 0%nat) summary
  ∧ occurrences 10 (Problem2.timeline_csv timeline) = S (length timeline)
  ∧ occurrences 10 (Problem2.cluster_summary_csv summary) = S (length summary).
Proof.
  intros Hm. apply ReportFacts.shapes in Hm as [Ht Hs].
  assert (Forall (fun row => occurrences 44 (Py.join (str ",") (Problem2.timeline_fields row))
                     = 4%nat
                     ∧ occurrences 10 (Py.join (str ",") (Problem2.timeline_fields row))
                       = 0%nat) timeline) as Ht'.
  { eapply Forall_impl; [exact Ht|]. apply ReportFacts.timeline_line. }
  assert (Forall (fun row => occurrences 44 (Py.join (str ",") (Problem2.summary_fields row))
                       = 3%nat
                       ∧ occurrences 10 (Py.join (str ",") (Problem2.summary_fields row))
                         = 0%nat) summary) as Hs'.
  { eapply Forall_impl; [exact Hs|]. apply ReportFacts.summary_line. }
  split_and!; [done | done | |].
  - unfold Problem2.timeline_csv. rewrite OutputFacts.write_csv_lines.
    + by rewrite length_map.
    + reflexivity.
    + apply Forall_fmap. eapply Forall_impl; [exact Ht'|]. by intros row [_ ?].
  - unfold Problem2.cluster_summary_csv. rewrite OutputFacts.write_csv_lines.
    + by rewrite length_map.
    + reflexivity.
    + apply Forall_fmap. eapply Forall_impl; [exact Hs'|]. by intros row [_ ?].
Qed.

Lemma X17_lines_have_a_fixed_number_of_fields_witness :
  Problem2.main Sample.tree_9_10 = Ok (Sample.timeline_9_10, Sample.summary_9_10)
  ∧ occurrences 10 (Problem2.timeline_csv Sample.timeline_9_10) = 3%nat
  ∧ occurrences 10 (Problem2.cluster_summary_csv Sample.summary_9_10) = 2%nat.
Proof.
  split; [vm_compute; reflexivity|].
  pose proof (X17_lines_have_a_fixed_number_of_fields ascii_db
                Sample.tree_9_10 Sample.timeline_9_10 Sample.summary_9_10
                ltac:(vm_compute; reflexivity)) as (_ & _ & H1 & H2).
  split; [exact H1 | exact H2].
Defined.

(** X18. Once the loop over the application directories has ended, the
    clusters sorted for the statistics are the clusters of the counter by
    falling count; the largest cluster is absent exactly when no
    application was recorded, and otherwise no cluster has more
    applications than it, and it is the first in the counter among the
    clusters with as many. *)
Theorem X18_largest_cluster_is_the_first_with_the_most_applications
    (U : UnicodeDB) (dirs : list Fs.entry) (st : Problem2.state) :
  Problem2.run Problem2.init dirs = Ok st →
  Problem2.top_items st ≡ₚ Problem2.cluster_counts st
  ∧ StronglySorted (fun a b : text * Z => b.2 ≤ a.2) (Problem2.top_items st)
  ∧ (Problem2.largest_cluster st = None ↔ Problem2.timeline_rows st = [])
  ∧ ∀ cid, Problem2.largest_cluster st = Some cid →
      (∀ cid', Py.counter_get (Problem2.cluster_counts st) cid'
               ≤ Py.counter_get (Problem2.cluster_counts st) cid)
      ∧ ∃ pre post,
          Problem2.cluster_counts st =
            pre ++ (cid, Py.counter_get (Problem2.cluster_counts st) cid) :: post
          ∧ Forall (fun kv : text * Z =>
                      kv.2 < Py.counter_get (Problem2.cluster_counts st) cid) pre.
Proof.
  intros Hrun. apply ReportFacts.run_state in Hrun as [HI Hc].
  pose proof (ScanFacts.top_items_spec st) as [Hp Hs].
  split_and!; [done | done | |].
  - rewrite ReportFacts.largest_none. symmetry. by apply ReportFacts.rows_nil_counts.
  - intros cid. by apply ReportFacts.largest_spec.
Qed.

Lemma X18_largest_cluster_is_the_first_with_the_most_applications_witness :
  Problem2.run Problem2.init (Problem2.iter_app_dirs Sample.tree_9_10)
    = Ok Sample.state_9_10
  ∧ Problem2.largest_cluster Sample.state_9_10 = Some Sample.cluster
  ∧ ∀ cid', Py.counter_get (Problem2.cluster_counts Sample.state_9_10) cid'
            ≤ Py.counter_get (Problem2.cluster_counts Sample.state_9_10) Sample.cluster.
Proof.
  assert (Problem2.run Problem2.init (Problem2.iter_app_dirs Sample.tree_9_10)
            = Ok Sample.state_9_10) as H by (vm_compute; reflexivity).
  split; [exact H|]. split; [reflexivity|].
  pose proof (X18_largest_cluster_is_the_first_with_the_most_applications ascii_db
                _ _ H) as (_ & _ & _ & Hl).
  exact (proj1 (Hl Sample.cluster eq_refl)).
Defined.

(** X19. The figures of the statistics agree with the tables: the total
    number of applications is the number of rows of the timeline, the
    number of clusters is the number of rows of the cluster summary and
    is at most the number of applications; the average never divides by
    zero, and without any application it is the float of zero.  With
    binary64 floats the statistics file has five lines before the lines of
    the clusters (three figures, an empty line and a heading) and then one
    line for each cluster, up to ten: no figure and no cluster identifier
    holds a line feed. *)
Theorem X19_statistics_agree_with_the_tables
    (U : UnicodeDB) (F : FloatOps) (dirs : list Fs.entry) (st : Problem2.state) :
  Problem2.run Problem2.init dirs = Ok st →
  Problem2.num_apps st = Py.len (Problem2.timeline_rows st)
  ∧ Problem2.num_clusters st ≤ Problem2.num_apps st
  ∧ (∀ summary, Problem2.cluster_summary_rows st = Ok summary →
       Py.len summary = Problem2.num_clusters st)
  ∧ Problem2.avg_apps_per_cluster st ≠ Raise ZeroDivisionError
  ∧ (Problem2.timeline_rows st = [] →
       Problem2.num_clusters st = 0
       ∧ Problem2.avg_apps_per_cluster st = Ok (float_of_int 0))
  ∧ ∀ lines, Problem2.stats_lines (F := Binary64.ops) st = Ok lines →
      Z.of_nat (occurrences 10 (concat lines)) = 5 + Z.min 10 (Problem2.num_clusters st).
Proof.
  intros Hrun.
  pose proof (fun lines => StatsFacts.stats_file_feeds dirs st lines Hrun) as Hfeeds.
  apply ReportFacts.run_state in Hrun as [HI Hc].
  split_and!.
  - apply Hc.
  - unfold Problem2.num_clusters, Problem2.num_apps.
    apply ReportFacts.sum_at_least. by apply ReportFacts.counts_positive.
  - intros summary. apply ReportFacts.length_summary.
  - apply ReportFacts.avg_no_zero_division.
  - intros Hr. apply (ReportFacts.rows_nil_counts _ HI Hc) in Hr.
    unfold Problem2.avg_apps_per_cluster, Problem2.num_clusters. by rewrite Hr.
  - intros lines Hl. rewrite (Hfeeds _ Hl).
    unfold Problem2.num_clusters, Py.len. lia.
Qed.

Lemma X19_statistics_agree_with_the_tables_witness :
  Problem2.run Problem2.init (Problem2.iter_app_dirs Sample.tree_9_10)
    = Ok Sample.state_9_10
  ∧ Problem2.num_apps Sample.state_9_10 = 2
  ∧ Problem2.num_clusters Sample.state_9_10 = 1
  ∧ Problem2.num_apps Sample.state_9_10
    = Py.len (Problem2.timeline_rows Sample.state_9_10)
  ∧ ∃ lines, Problem2.stats_lines (F := Binary64.ops) Sample.state_9_10 = Ok lines
      ∧ Z.of_nat (occurrences 10 (concat lines)) = 6.
Proof.
  assert (Problem2.run Problem2.init (Problem2.iter_app_dirs Sample.tree_9_10)
            = Ok Sample.state_9_10) as H by (vm_compute; reflexivity).
  split; [exact H|]. split; [reflexivity|]. split; [reflexivity|].
  pose proof (X19_statistics_agree_with_the_tables ascii_db Binary64.ops _ _ H)
    as (H1 & _ & _ & _ & _ & H6).
  split; [exact H1|].
  destruct (Problem2.stats_lines (F := Binary64.ops) Sample.state_9_10)
    as [lines|] eqn:E; [|vm_compute in E; discriminate E].
  exists lines. split; [reflexivity|]. exact (H6 lines eq_refl).
Defined.

(** X20. Writing the cluster summary cannot fail: the time-range report
    returns its tables exactly when the archive step and the loop over the
    application directories succeed.  No lookup of a first or last time
    misses its key, and [int] accepts every cluster identifier. *)
Theorem X20_summary_is_written_once_the_scan_succeeds
    (U : UnicodeDB) (t : Fs.tree) :
  (∃ out, Problem2.main t = Ok out)
  ↔ ∃ t' st, Fs.ensure_extracted t = Ok t'
      ∧ Problem2.run Problem2.init (Problem2.iter_app_dirs t') = Ok st.
Proof. apply P2Defined.main_defined. Qed.

(** X21. The times of the tables sort as texts the way the instants sort:
    for two parsed timestamps, the formatted text of the first is smaller
    than that of the second exactly when the first instant is earlier. *)
Theorem X21_formatted_times_sort_chronologically
    (U : UnicodeDB) (ts1 ts2 : text) (dt1 dt2 : Datetime.datetime) :
  Problem2.parse_ts ts1 = Ok dt1 → Problem2.parse_ts ts2 = Ok dt2 →
  Py.text_lt (Problem2.format_dt dt1) (Problem2.format_dt dt2) = Datetime.lt dt1 dt2.
Proof. apply OrderFacts.format_dt_order. Qed.

Lemma X21_formatted_times_sort_chronologically_witness :
  Problem2.parse_ts Sample.started_ts = Ok Sample.started_dt
  ∧ Problem2.parse_ts (str "17/03/29 10:05:00") = Ok Sample.slow_dt
  ∧ Py.text_lt (Problem2.format_dt Sample.started_dt) (Problem2.format_dt Sample.slow_dt)
    = Datetime.lt Sample.started_dt Sample.slow_dt.
Proof.
  split; [vm_compute; reflexivity|]. split; [vm_compute; reflexivity|].
  apply (X21_formatted_times_sort_chronologically ascii_db
           Sample.started_ts (str "17/03/29 10:05:00")); vm_compute; reflexivity.
Defined.

(** X22. The duration recorded for an application, the seconds from its
    start to its end, is never negative, and it is zero only when its
    start is its end.  The lists of durations are built exactly when the
    loop over the directories succeeds; then every recorded duration is
    non-negative, a cluster has as many durations as applications, and the
    lookup of the durations of the largest cluster finds its key. *)
Theorem X22_durations_are_not_negative
    (U : UnicodeDB) (dirs : list Fs.entry) :
  ((∃ durations, Problem2.durations_by_cluster ∅ dirs = Ok durations)
   ↔ ∃ st, Problem2.run Problem2.init dirs = Ok st)
  ∧ (∀ durations st,
       Problem2.durations_by_cluster ∅ dirs = Ok durations →
       Problem2.run Problem2.init dirs = Ok st →
       (∀ cid ds, durations !! cid = Some ds → Forall (fun x => 0 ≤ x) ds)
       ∧ (∀ cid, Py.len (default [] (durations !! cid)) =
                 Py.counter_get (Problem2.cluster_counts st) cid)
       ∧ ∀ cid, Problem2.largest_cluster st = Some cid → is_Some (durations !! cid))
  ∧ ∀ d cid aid num s e,
      Problem2.scan_app_times d = Ok (cid, aid, num, Some s, Some e) →
      0 ≤ Datetime.total_seconds e s ∧ (Datetime.total_seconds e s = 0 ↔ s = e).
Proof.
  split_and!.
  - apply DurationFacts.durations_defined.
  - intros durations st Hd Hrun.
    pose proof (DurationFacts.run_timed _ _ _ _ _ DurationFacts.timed_init Hd Hrun)
      as [H1 H2].
    split_and!; [done | done |].
    intros cid Hl. pose proof (ReportFacts.run_state _ _ Hrun) as [HI Hc].
    destruct (ReportFacts.largest_spec _ _ HI Hc Hl) as (_ & pre & post & Heq & _).
    pose proof (ReportFacts.counts_positive _ HI Hc) as Hpos.
    rewrite Heq in Hpos at 1. apply Forall_app in Hpos as [_ Hpos].
    apply Forall_cons in Hpos as [Hpos _]. cbn [snd] in Hpos.
    specialize (H2 cid). destruct (durations !! cid) as [ds|]; [by eexists|].
    unfold Py.len in H2. cbn [default length] in H2. lia.
  - intros d cid aid num s e. apply DurationFacts.scan_app_times_duration.
Qed.

Lemma X22_durations_are_not_negative_witness :
  Problem2.durations_by_cluster ∅ (Problem2.iter_app_dirs Sample.tree_9_10)
    = Ok Sample.durations_9_10
  ∧ Problem2.run Problem2.init (Problem2.iter_app_dirs Sample.tree_9_10)
    = Ok Sample.state_9_10
  ∧ (∀ cid ds, Sample.durations_9_10 !! cid = Some ds → Forall (fun x => 0 ≤ x) ds)
  ∧ is_Some (Sample.durations_9_10 !! Sample.cluster).
Proof.
  assert (Problem2.durations_by_cluster ∅ (Problem2.iter_app_dirs Sample.tree_9_10)
            = Ok Sample.durations_9_10) as H by (vm_compute; reflexivity).
  assert (Problem2.run Problem2.init (Problem2.iter_app_dirs Sample.tree_9_10)
            = Ok Sample.state_9_10) as Hr by (vm_compute; reflexivity).
  split; [exact H|]. split; [exact Hr|].
  pose proof (proj1 (proj2 (X22_durations_are_not_negative ascii_db _)) _ _ H Hr)
    as (H1 & _ & H3).
  split; [exact H1|]. exact (H3 Sample.cluster eq_refl).
Defined.

(** X23. The loop visits every application directory exactly once: the
    directories it is given are those of the entries named application_*,
    in another order, and entries that are no directories are left
    out. *)
Theorem X23_every_directory_is_visited_once (t : Fs.tree) :
  Problem2.iter_app_dirs t
    ≡ₚ filter (fun d => Fs.e_is_dir d = true) (Fs.glob_applications t).
Proof. apply OutputFacts.iter_app_dirs_Permutation. Qed.
